(** * The control plane state importer ([package importer])

    A shallow embedding of the importer: [Import], [PreflightChecks],
    [unarchive], [waitForConditions] and their helpers.  The live system
    (dynamic client, REST mapper, discovery, archive file, YAML decoder) is an
    environment whose answers may depend on everything that happened so far;
    every call to it is recorded in a trace and advances a logical clock. *)

From stdpp Require Import base gmap strings list fin_maps pretty.
From Stdlib Require Import ZArith Lia Ascii.

Local Open Scope Z_scope.
Local Open Scope string_scope.

(** ** Errors and formatted messages *)

(** Go [error] values.  [Errorf], [Wrap] and [Wrapf] are the constructors of
    crossplane-runtime's [errors] package; the format verbs are kept with
    their arguments instead of being rendered. *)
Inductive error : Type :=
| Canceled                                   (* context.Canceled *)
| DeadlineExceeded                           (* context.DeadlineExceeded *)
| NotFound (path : string)                   (* fieldpath: no such field *)
| External (msg : string)                    (* an error of a collaborator *)
| Errorf (format : string) (args : list string)
| Wrap (cause : error) (msg : string)
| Wrapf (cause : error) (format : string) (args : list string).

(** An argument of [fmt.Sprintf] / [pterm.Printf]. *)
Inductive fmtArg : Type :=
| ArgD (n : Z)          (* %d *)
| ArgS (s : string)     (* %s *)
| ArgQ (s : string)     (* %q *)
| ArgV (e : error).     (* %v *)

Record Formatted : Type := Sprintf { format : string; fargs : list fmtArg }.

(** [fieldpath.IsNotFound]. *)
Definition IsNotFound (e : error) : bool :=
  match e with NotFound _ => true | _ => false end.

(** ** Group kinds and resources *)

Record GroupKind : Type := mkGroupKind { Group : string; Kind : string }.

(** [schema.GroupKind.String]. *)
Definition GroupKind_String (gk : GroupKind) : string :=
  if decide (Group gk = "") then Kind gk else Kind gk +:+ "." +:+ Group gk.

Record GroupVersionResource : Type :=
  mkGVR { gvrGroup : string; gvrVersion : string; gvrResource : string }.

(** [rm.Resource.GroupResource().String()]. *)
Definition GroupResource_String (r : GroupVersionResource) : string :=
  if decide (gvrGroup r = "") then gvrResource r
  else gvrResource r +:+ "." +:+ gvrGroup r.

(** ** Status conditions *)

Definition ConditionType := string.

Record Condition : Type := mkCondition { Type_ : ConditionType; Status : string }.

Definition ConditionTrue : string := "True".
Definition ConditionUnknown : string := "Unknown".

Definition ConditionedStatus := list Condition.

(** [xpv1.ConditionedStatus.GetCondition]: the first condition of the given
    type, or an [Unknown] one. *)
Fixpoint GetCondition (s : ConditionedStatus) (ct : ConditionType) : Condition :=
  match s with
  | [] => mkCondition ct ConditionUnknown
  | c :: s' => if decide (Type_ c = ct) then c else GetCondition s' ct
  end.

(** What [status] holds in an unstructured object. *)
Inductive StatusField : Type :=
| StatusAbsent
| StatusMalformed (e : error)
| StatusValue (s : ConditionedStatus).

Record Unstructured : Type := mkUnstructured { GetName : string; statusField : StatusField }.

(** [fieldpath.Pave(r.Object).GetValueInto("status", &status)]: the error,
    if any, and the value left in [status]. *)
Definition GetValueInto_status (r : Unstructured) : option error * ConditionedStatus :=
  match statusField r with
  | StatusAbsent => (Some (NotFound "status"), [])
  | StatusMalformed e => (Some e, [])
  | StatusValue s => (None, s)
  end.

(** ** Pure helpers of the source *)

Definition stepFailed : string := "Failed!".

Definition baseResources : list string :=
  [ "namespaces"; "configmaps"; "secrets";
    "controllerconfigs.pkg.crossplane.io";
    "deploymentruntimeconfigs.pkg.crossplane.io";
    "storeconfigs.secrets.crossplane.io";
    "compositionrevisions.apiextensions.crossplane.io";
    "compositions.apiextensions.crossplane.io";
    "compositeresourcedefinitions.apiextensions.crossplane.io";
    "providers.pkg.crossplane.io";
    "functions.pkg.crossplane.io";
    "configurations.pkg.crossplane.io" ].

Fixpoint contains (ss : list string) (s : string) : bool :=
  match ss with
  | [] => false
  | v :: ss' => if decide (v = s) then true else contains ss' s
  end.

Fixpoint isBaseResource_loop (ks : list string) (gr : string) : bool :=
  match ks with
  | [] => false
  | k :: ks' => if decide (k = gr) then true else isBaseResource_loop ks' gr
  end.

Definition isBaseResource (gr : string) : bool := isBaseResource_loop baseResources gr.

(** [strings.Join]. *)
Fixpoint Join (ss : list string) (sep : string) : string :=
  match ss with
  | [] => ""
  | [s] => s
  | s :: ss' => s +:+ sep +:+ Join ss' sep
  end.

Definition printConditions (conditions : list ConditionType) : string :=
  match conditions with
  | [] => ""
  | [c0] => c0
  | [c0; c1] => c0 +:+ " and " +:+ c1
  | _ =>
      let cs := conditions in
      Join (take (length cs - 1) cs) ", " +:+ ", and " +:+ default "" (last cs)
  end.

(** ** Time and contexts *)

(** [time.Duration] counts nanoseconds. *)
Definition Second : Z := 1000000000.
Definition Minute : Z := 60 * Second.

(** A [context.Context] as the importer sees it: it is never done, or it
    becomes done at some instant, with [ctx.Err()] fixed from then on. *)
Inductive Context : Type :=
| Background
| DoneAt (t : Z) (err : error).

Definition Done (ctx : Context) (t : Z) : bool :=
  match ctx with
  | Background => false
  | DoneAt t0 _ => bool_decide (t0 <= t)
  end.

Definition Err (ctx : Context) (t : Z) : option error :=
  match ctx with
  | Background => None
  | DoneAt t0 e => if bool_decide (t0 <= t) then Some e else None
  end.

(** [context.WithTimeout(ctx, d)] called at instant [t]: the child is done
    when the parent is, or at [t + d]; the [cancel] function it returns is
    the [cancelled] flag of the caller. *)
Definition WithTimeout (ctx : Context) (t d : Z) : Context :=
  match ctx with
  | Background => DoneAt (t + d) DeadlineExceeded
  | DoneAt t0 e => if bool_decide (t0 <= t + d) then DoneAt t0 e
                   else DoneAt (t + d) DeadlineExceeded
  end.

(** ** The environment *)

Inductive SpinnerOp : Type := SpStart | SpSuccess | SpFail | SpUpdateText.

(** The function handed to [ModifyResources]. *)
Inductive Mutation : Type :=
| RemoveAnnotations (keys : list string).

(** Everything the importer does to the outside, in order. *)
Inductive Event : Type :=
| EvSpinner (op : SpinnerOp) (msg : string)
| EvPrintf (msg : Formatted)
| EvCollectInfo
| EvOpen (path : string)
| EvImportResources (gr : string) (pause : bool)
| EvRESTMapping (gk : GroupKind)
| EvList (r : GroupVersionResource)
| EvReset
| EvModifyResources (category : string) (f : Mutation).

Record World : Type := mkWorld { now : Z; trace : list Event }.

(** [crossplane.Info] and [v1alpha1.ExportMeta], by the fields the importer
    reads. *)
Record CrossplaneInfo : Type :=
  mkInfo { Version : string; FeatureFlags : list string }.

Record ExportMeta : Type := mkExportMeta { Crossplane : CrossplaneInfo }.

(** The gzip-compressed tar stream behind [os.Open]. *)
Record TarEntry : Type := mkTarEntry {
  hdrName : string;
  hdrIsDir : bool;
  body : string;                (* the bytes [io.Copy] gets out of the entry *)
  bodyErr : option error;       (* the read error that ends them, if any *)
  readTime : N                  (* how long reading the entry takes *)
}.

Record ArchiveFile : Type := mkArchiveFile {
  gzipErr : option error;       (* error of [gzip.NewReader] *)
  tarEntries : list TarEntry;
  tarEnd : option error         (* [None] is [io.EOF] *)
}.

Record FileInfo : Type := mkFileInfo { Name : string; IsDir : bool }.

(** The operations of [afero.Afero] the importer uses. *)
Class Afero (Fs : Type) : Type := {
  NewMemMapFs : Fs;
  Mkdir : Fs -> string -> error + Fs;
  OpenFile : Fs -> string -> error + Fs;       (* O_WRONLY|O_CREATE|O_TRUNC *)
  Write : Fs -> string -> string -> error + Fs;
  ReadFile : Fs -> string -> error + string;
  ReadDir : Fs -> string -> error + list FileInfo
}.

(** The collaborators.  Each answer may depend on the instant of the call
    and on the whole trace before it, hence also on the context the call
    was given. *)
Record Env (Fs : Type) : Type := mkEnv {
  envLatency : World -> Event -> N;
  envCollectInfo : World -> error + CrossplaneInfo;
  envOpen : World -> string -> error + ArchiveFile;
  envUnmarshal : string -> error + ExportMeta;
  envImportResources : Fs -> World -> string -> bool -> error + Z;
  envRESTMapping : World -> GroupKind -> error + GroupVersionResource;
  envList : World -> GroupVersionResource -> error + list Unstructured;
  envModifyResources : World -> string -> Mutation -> error + Z
}.

Arguments envLatency {Fs}.
Arguments envCollectInfo {Fs}.
Arguments envOpen {Fs}.
Arguments envUnmarshal {Fs}.
Arguments envImportResources {Fs}.
Arguments envRESTMapping {Fs}.
Arguments envList {Fs}.
Arguments envModifyResources {Fs}.

(** The closure state of the poll loop of [waitForConditions]. *)
Record PollState : Type := mkPollState {
  world : World;
  success : bool;
  cancelled : bool               (* [cancel()] was called *)
}.

(** The loop state at another instant. *)
Definition atInstant (t : Z) (ps : PollState) : PollState :=
  mkPollState (mkWorld t (trace (world ps))) (success ps) (cancelled ps).

(** The instant at which a wait on [ctx.Done()] that started at [t] ends. *)
Definition stopInstant (ctx : Context) (t : Z) : Z :=
  match ctx with
  | Background => t
  | DoneAt t0 _ => Z.max t0 t
  end.

(** [wait.UntilWithContext(ctx, f, period)]: check the stop channel, run
    [f], arm the timer, and wait for the stop channel or the timer;
    the stop channel wins when it closes no later than the timer fires
    (a tie is caught by the check that opens the next round). *)
Fixpoint UntilWithContext (fuel : nat) (ctx : Context) (f : PollState -> PollState)
    (period : Z) (ps : PollState) : option PollState :=
  match fuel with
  | O => None
  | S fuel' =>
      if cancelled ps || Done ctx (now (world ps)) then Some ps
      else
        let ps1 := f ps in
        let tick := now (world ps1) + period in
        if cancelled ps1 then Some ps1
        else if Done ctx tick then Some (atInstant (stopInstant ctx (now (world ps1))) ps1)
        else UntilWithContext fuel' ctx f period (atInstant tick ps1)
  end.

(** ** The importer *)

Record Options : Type := mkOptions {
  InputArchive : string;
  UnpauseAfterImport : bool
}.

(** [ControlPlaneStateImporter]: the clients are the environment, [fs] is
    [None] while [im.fs == nil]. *)
Record ControlPlaneStateImporter (Fs : Type) : Type := mkImporter {
  fs : option Fs;
  options : Options
}.

Arguments mkImporter {Fs}.
Arguments fs {Fs}.
Arguments options {Fs}.

Section Importer.

Context {Fs : Type} `{Afero Fs}.
Variable env : Env Fs.

(** An outside call: recorded, and it takes the time the environment says. *)
Definition call (e : Event) (w : World) : World :=
  mkWorld (now w + Z.of_N (envLatency env w e)) (trace w ++ [e])%list.

(** Terminal output: recorded, instantaneous. *)
Definition emit (e : Event) (w : World) : World :=
  mkWorld (now w) (trace w ++ [e])%list.

(** *** [waitForConditions] *)

(** The inner loop over [conditions]: is some requested condition not
    [True]? *)
Fixpoint someConditionUnmet (status : ConditionedStatus) (conditions : list ConditionType) : bool :=
  match conditions with
  | [] => false
  | c :: conditions' =>
      if decide (Status (GetCondition status c) <> ConditionTrue) then true
      else someConditionUnmet status conditions'
  end.

(** The loop over [resourceList.Items]: the number of unmet resources, or
    the resource whose status could not be read. *)
Fixpoint countUnmet (items : list Unstructured) (conditions : list ConditionType)
    (unmet : Z) : (string * error) + Z :=
  match items with
  | [] => inr unmet
  | r :: items' =>
      let '(err, status) := GetValueInto_status r in
      match err with
      | Some e =>
          if negb (IsNotFound e) then inl (GetName r, e)
          else countUnmet items' conditions
                 (if someConditionUnmet status conditions then unmet + 1 else unmet)
      | None =>
          countUnmet items' conditions
            (if someConditionUnmet status conditions then unmet + 1 else unmet)
      end
  end.

Definition waitingText (total unmet : Z) (rm : GroupVersionResource)
    (conditions : list ConditionType) : string :=
  "(" +:+ pretty (total - unmet) +:+ " / " +:+ pretty total +:+ ") Waiting for "
    +:+ GroupResource_String rm +:+ " to be " +:+ printConditions conditions +:+ "...".

(** The function polled by [wait.UntilWithContext]. *)
Definition poll (rm : GroupVersionResource) (gk : GroupKind)
    (conditions : list ConditionType) (ps : PollState) : PollState :=
  let w := world ps in
  let w1 := call (EvList rm) w in
  match envList env w rm with
  | inl err =>
      mkPollState
        (emit (EvPrintf (Sprintf "cannot list packages with error: %v\n" [ArgV err])) w1)
        (success ps) (cancelled ps)
  | inr items =>
      let total := Z.of_nat (length items) in
      match countUnmet items conditions 0 with
      | inl (name, err) =>
          mkPollState
            (emit (EvPrintf (Sprintf "cannot get status for %q %q with error: %v\n"
                               [ArgQ (Kind gk); ArgQ name; ArgV err])) w1)
            (success ps) (cancelled ps)
      | inr unmet =>
          if bool_decide (unmet > 0) then
            mkPollState
              (emit (EvSpinner SpUpdateText (waitingText total unmet rm conditions)) w1)
              (success ps) (cancelled ps)
          else mkPollState w1 true true
      end
  end.

Definition timeout : Z := 10 * Minute.
Definition period : Z := 5 * Second.

(** Rounds the poll loop can take before [timeout] is over. *)
Definition pollBudget : nat := S (Z.to_nat (timeout / period)).

Definition timeoutError (gk : GroupKind) (conditions : list ConditionType) : error :=
  Errorf "timeout waiting for conditions %q to be satisfied for all %q"
    [printConditions conditions; Kind gk].

Definition waitForConditions (ctx : Context) (gk : GroupKind)
    (conditions : list ConditionType) (w : World) : option (World * option error) :=
  let w1 := call (EvRESTMapping gk) w in
  match envRESTMapping env w gk with
  | inl err =>
      Some (w1, Some (Wrapf err "cannot get REST mapping for %q" [GroupKind_String gk]))
  | inr rm =>
      let ctx' := WithTimeout ctx (now w1) timeout in
      match UntilWithContext pollBudget ctx' (poll rm gk conditions) period
              (mkPollState w1 false false) with
      | None => None
      | Some ps =>
          if success ps then Some (world ps, None)
          else Some (world ps, Some (timeoutError gk conditions))
      end
  end.

(** *** [unarchive] *)

(** Time passing while the archive is read. *)
Definition elapse (d : N) (w : World) : World :=
  mkWorld (now w + Z.of_N d) (trace w).

(** The [for] loop of [unarchive] over the entries of the tar stream. *)
Fixpoint unarchive_loop (path : string) (ctx : Context) (entries : list TarEntry)
    (tarEnd : option error) (fs : Fs) (w : World) : Fs * World * option error :=
  match Err ctx (now w) with
  | Some e => (fs, w, Some e)
  | None =>
      match entries with
      | [] =>
          match tarEnd with
          | None => (fs, w, None)
          | Some err => (fs, w, Some (Wrapf err "cannot read archive %q" [path]))
          end
      | hdr :: entries' =>
          let w1 := elapse (readTime hdr) w in
          if hdrIsDir hdr then
            match Mkdir fs (hdrName hdr) with
            | inl err => (fs, w1, Some (Wrapf err "cannot create directory %q" [hdrName hdr]))
            | inr fs1 => unarchive_loop path ctx entries' tarEnd fs1 w1
            end
          else
            match OpenFile fs (hdrName hdr) with
            | inl err => (fs, w1, Some (Wrapf err "cannot create file %q" [hdrName hdr]))
            | inr fs1 =>
                match Write fs1 (hdrName hdr) (body hdr) with
                | inl err => (fs1, w1, Some (Wrapf err "cannot write file %q" [hdrName hdr]))
                | inr fs2 =>
                    match bodyErr hdr with
                    | Some err =>
                        (fs2, w1, Some (Wrapf err "cannot write file %q" [hdrName hdr]))
                    | None => unarchive_loop path ctx entries' tarEnd fs2 w1
                    end
                end
            end
      end
  end.

Definition unarchive (opts : Options) (ctx : Context) (fs : Fs) (w : World)
    : Fs * World * option error :=
  let path := InputArchive opts in
  let w1 := call (EvOpen path) w in
  match envOpen env w path with
  | inl err => (fs, w1, Some (Wrapf err "cannot open archive %q" [path]))
  | inr g =>
      match gzipErr g with
      | Some err => (fs, w1, Some (Wrapf err "cannot create gzip reader for %q" [path]))
      | None => unarchive_loop path ctx (tarEntries g) (tarEnd g) fs w1
      end
  end.

(** *** [PreflightChecks] *)

Definition versionDiagnostic (observed exported : string) : error :=
  Errorf "Crossplane version %q does not match exported version %q" [observed; exported].

Definition flagDiagnostic (ff : string) : error :=
  Errorf "Feature flag %q was set in the exported control plane but is not set in the target control plane for import." [ff].

(** The loop over [em.Crossplane.FeatureFlags]. *)
Fixpoint checkFeatureFlags (ffs : list string) (observedFlags : list string)
    (errs : list error) : list error :=
  match ffs with
  | [] => errs
  | ff :: ffs' =>
      if negb (contains observedFlags ff)
      then checkFeatureFlags ffs' observedFlags (errs ++ [flagDiagnostic ff])%list
      else checkFeatureFlags ffs' observedFlags errs
  end.

(** The comparison of the observed with the exported Crossplane info. *)
Definition compareInfo (observed : CrossplaneInfo) (em : ExportMeta) : list error :=
  let errs : list error := [] in
  let errs :=
    if decide (Version observed <> Version (Crossplane em))
    then (errs ++ [versionDiagnostic (Version observed) (Version (Crossplane em))])%list
    else errs in
  checkFeatureFlags (FeatureFlags (Crossplane em)) (FeatureFlags observed) errs.

Definition PreflightChecks (im : ControlPlaneStateImporter Fs) (ctx : Context) (w : World)
    : ControlPlaneStateImporter Fs * World * list error :=
  let w1 := call EvCollectInfo w in
  match envCollectInfo env w with
  | inl err => (im, w1, [Wrap err "Cannot get Crossplane info"])
  | inr observed =>
      let '(fs2, w2, uerr) :=
        match fs im with
        | None => unarchive (options im) ctx NewMemMapFs w1
        | Some fs1 => (fs1, w1, None)
        end in
      let im2 := mkImporter (Some fs2) (options im) in
      match uerr with
      | Some err => (im2, w2, [Wrap err "Cannot unarchive export archive"])
      | None =>
          match ReadFile fs2 "export.yaml" with
          | inl err => (im2, w2, [Wrap err "Cannot read export metadata"])
          | inr b =>
              match envUnmarshal env b with
              | inl err => (im2, w2, [Wrap err "Cannot unmarshal export metadata"])
              | inr em => (im2, w2, compareInfo observed em)
              end
          end
      end
  end.

(** *** [Import] *)

Definition unarchiveMsg : string := "Reading state from the archive... ".
Definition importBaseMsg : string := "Importing base resources... ".
Definition waitXRDsMsg : string := "Waiting for XRDs... ".
Definition waitPkgsMsg : string := "Waiting for Packages... ".
Definition importRemainingMsg : string := "Importing remaining resources... ".
Definition finalizeMsg : string := "Finalizing import... ".
Definition unpauseMsg : string := "Unpausing managed resources ... ".

Definition importingText (i n : Z) (gr : string) : string :=
  "(" +:+ pretty i +:+ " / " +:+ pretty n +:+ ") Importing " +:+ gr +:+ "...".

Definition importedText (total : Z) : string :=
  pretty total +:+ " resources imported! 📥".

(** [total := 0; for _, count := range counts { total += count }]. *)
Definition sumCounts (counts : gmap string Z) : Z :=
  map_fold (fun _ count total => total + count) 0 counts.

(** Reading state from the archive. *)
Definition importExtract (im : ControlPlaneStateImporter Fs) (ctx : Context) (w : World)
    : Fs * World * option error :=
  let w0 := emit (EvSpinner SpStart unarchiveMsg) w in
  let '(fs2, w2, uerr) :=
    match fs im with
    | None => unarchive (options im) ctx NewMemMapFs w0
    | Some fs1 => (fs1, w0, None)
    end in
  match uerr with
  | Some err =>
      (fs2, emit (EvSpinner SpFail (unarchiveMsg +:+ stepFailed)) w2,
       Some (Wrap err "cannot unarchive export archive"))
  | None => (fs2, emit (EvSpinner SpSuccess (unarchiveMsg +:+ "Done! 👀")) w2, None)
  end.

(** The loop over [baseResources]. *)
Fixpoint importBase_loop (fs : Fs) (grs : list string) (i : Z)
    (baseCounts : gmap string Z) (w : World) : World * (error + gmap string Z) :=
  match grs with
  | [] => (w, inr baseCounts)
  | gr :: grs' =>
      let w1 := call (EvImportResources gr false) w in
      match envImportResources env fs w gr false with
      | inl err =>
          (emit (EvSpinner SpFail (importBaseMsg +:+ stepFailed)) w1,
           inl (Wrapf err "cannot import %q resources" [gr]))
      | inr count =>
          importBase_loop fs grs' (i + 1) (<[gr := count]> baseCounts)
            (emit (EvSpinner SpUpdateText
                     (importingText i (Z.of_nat (length baseResources)) gr)) w1)
      end
  end.

(** Importing base resources. *)
Definition importBase (fs : Fs) (w : World) : World * option error :=
  let w0 := emit (EvSpinner SpStart
                    (importBaseMsg +:+ "0 / " +:+ pretty (Z.of_nat (length baseResources)))) w in
  match importBase_loop fs baseResources 0 ∅ w0 with
  | (w1, inl err) => (w1, Some err)
  | (w1, inr baseCounts) =>
      (emit (EvSpinner SpSuccess (importBaseMsg +:+ importedText (sumCounts baseCounts))) w1,
       None)
  end.

(** A loop waiting for the same conditions on several kinds. *)
Fixpoint waitKinds (ctx : Context) (ks : list GroupKind) (conditions : list ConditionType)
    (w : World) : option (World * option error) :=
  match ks with
  | [] => Some (w, None)
  | k :: ks' =>
      match waitForConditions ctx k conditions w with
      | None => None
      | Some (w1, Some err) =>
          Some (emit (EvSpinner SpFail (waitPkgsMsg +:+ stepFailed)) w1,
                Some (Wrapf err "there are unhealthy %qs" [Kind k]))
      | Some (w1, None) => waitKinds ctx ks' conditions w1
      end
  end.

Definition xrdKind : GroupKind :=
  mkGroupKind "apiextensions.crossplane.io" "CompositeResourceDefinition".

Definition packageKinds : list GroupKind :=
  [ mkGroupKind "pkg.crossplane.io" "Provider";
    mkGroupKind "pkg.crossplane.io" "Function";
    mkGroupKind "pkg.crossplane.io" "Configuration" ].

Definition revisionKinds : list GroupKind :=
  [ mkGroupKind "pkg.crossplane.io" "ProviderRevision";
    mkGroupKind "pkg.crossplane.io" "FunctionRevision";
    mkGroupKind "pkg.crossplane.io" "ConfigurationRevision" ].

(** Waiting for XRDs and packages. *)
Definition importWait (ctx : Context) (w : World) : option (World * option error) :=
  let w0 := emit (EvSpinner SpStart waitXRDsMsg) w in
  match waitForConditions ctx xrdKind ["Established"] w0 with
  | None => None
  | Some (w1, Some err) =>
      Some (emit (EvSpinner SpFail (waitXRDsMsg +:+ stepFailed)) w1,
            Some (Wrap err "there are unhealthy CompositeResourceDefinitions"))
  | Some (w1, None) =>
      let w2 := emit (EvSpinner SpSuccess (waitXRDsMsg +:+ "Established! ⏳")) w1 in
      let w3 := emit (EvSpinner SpStart waitPkgsMsg) w2 in
      match waitKinds ctx packageKinds ["Installed"; "Healthy"] w3 with
      | None => None
      | Some (w4, Some err) => Some (w4, Some err)
      | Some (w4, None) =>
          match waitKinds ctx revisionKinds ["Healthy"] w4 with
          | None => None
          | Some (w5, Some err) => Some (w5, Some err)
          | Some (w5, None) =>
              Some (emit (EvSpinner SpSuccess (waitPkgsMsg +:+ "Installed and Healthy! ⏳")) w5,
                    None)
          end
      end
  end.

(** The loop over the entries of the root directory. *)
Fixpoint importRemaining_loop (fs : Fs) (grs : list FileInfo) (i n : Z)
    (remainingCounts : gmap string Z) (w : World) : World * (error + gmap string Z) :=
  match grs with
  | [] => (w, inr remainingCounts)
  | info :: grs' =>
      if decide (Name info = "export.yaml") then
        importRemaining_loop fs grs' (i + 1) n remainingCounts w
      else if negb (IsDir info) then
        (w, inl (Errorf "unexpected file %q in root directory of exported state" [Name info]))
      else if isBaseResource (Name info) then
        importRemaining_loop fs grs' (i + 1) n remainingCounts w
      else
        let w1 := call (EvImportResources (Name info) true) w in
        match envImportResources env fs w (Name info) true with
        | inl err => (w1, inl (Wrapf err "cannot import %q resources" [Name info]))
        | inr count =>
            importRemaining_loop fs grs' (i + 1) n (<[Name info := count]> remainingCounts)
              (emit (EvSpinner SpUpdateText (importingText i n (Name info))) w1)
        end
  end.

(** Resetting the mapper and importing the remaining resources. *)
Definition importRemaining (fs : Fs) (w : World) : World * option error :=
  let w0 := call EvReset w in
  let w1 := emit (EvSpinner SpStart importRemainingMsg) w0 in
  match ReadDir fs "/" with
  | inl err =>
      (emit (EvSpinner SpFail (importRemainingMsg +:+ stepFailed)) w1,
       Some (Wrap err "cannot list group resources"))
  | inr grs =>
      match importRemaining_loop fs grs 0 (Z.of_nat (length grs)) ∅ w1 with
      | (w2, inl err) => (w2, Some err)
      | (w2, inr remainingCounts) =>
          (emit (EvSpinner SpSuccess
                   (importRemainingMsg +:+ importedText (sumCounts remainingCounts))) w2,
           None)
      end
  end.

Definition unpause : Mutation := RemoveAnnotations ["crossplane.io/paused"].

(** [cm.ModifyResources(ctx, category, f)]. *)
Definition ModifyResources (category : string) (f : Mutation) (w : World)
    : World * (error + Z) :=
  (call (EvModifyResources category f) w, envModifyResources env w category f).

(** Finalizing the import. *)
Definition importFinalize (opts : Options) (w : World) : World * option error :=
  let w0 := emit (EvSpinner SpStart finalizeMsg) w in
  match ModifyResources "composite" unpause w0 with
  | (w1, inl err) => (w1, Some (Wrap err "cannot unpause composites"))
  | (w1, inr _) =>
      match ModifyResources "claim" unpause w1 with
      | (w2, inl err) => (w2, Some (Wrap err "cannot unpause claims"))
      | (w2, inr _) =>
          let w3 := emit (EvSpinner SpSuccess (finalizeMsg +:+ "Done! 🎉")) w2 in
          if UnpauseAfterImport opts then
            let w4 := emit (EvSpinner SpStart unpauseMsg) w3 in
            match ModifyResources "managed" unpause w4 with
            | (w5, inl err) => (w5, Some (Wrap err "cannot unpause managed resources"))
            | (w5, inr _) =>
                (emit (EvSpinner SpSuccess (unpauseMsg +:+ "Done! ▶️")) w5, None)
            end
          else (w3, None)
      end
  end.

(** The steps of [Import] after the archive is read. *)
Definition importSteps (opts : Options) (fs : Fs) (ctx : Context) (w : World)
    : option (World * option error) :=
  match importBase fs w with
  | (w1, Some err) => Some (w1, Some err)
  | (w1, None) =>
      match importWait ctx w1 with
      | None => None
      | Some (w2, Some err) => Some (w2, Some err)
      | Some (w2, None) =>
          match importRemaining fs w2 with
          | (w3, Some err) => Some (w3, Some err)
          | (w3, None) => Some (importFinalize opts w3)
          end
      end
  end.

Definition Import (im : ControlPlaneStateImporter Fs) (ctx : Context) (w : World)
    : option (ControlPlaneStateImporter Fs * World * option error) :=
  let '(fs2, w1, uerr) := importExtract im ctx w in
  let im2 := mkImporter (Some fs2) (options im) in
  match uerr with
  | Some err => Some (im2, w1, Some err)
  | None =>
      match importSteps (options im2) fs2 ctx w1 with
      | None => None
      | Some (w2, res) => Some (im2, w2, res)
      end
  end.

(** *** Runs of the two entry points on one importer *)

Inductive EntryPoint : Type :=
| CallPreflightChecks (ctx : Context)
| CallImport (ctx : Context).

Fixpoint runCalls (calls : list EntryPoint) (im : ControlPlaneStateImporter Fs) (w : World)
    : option (ControlPlaneStateImporter Fs * World) :=
  match calls with
  | [] => Some (im, w)
  | CallPreflightChecks ctx :: calls' =>
      let '(im1, w1, _) := PreflightChecks im ctx w in
      runCalls calls' im1 w1
  | CallImport ctx :: calls' =>
      match Import im ctx w with
      | None => None
      | Some (im1, w1, _) => runCalls calls' im1 w1
      end
  end.

End Importer.


(** ** Notions used to state the properties *)

(** [Round ctx f period ps0 ps]: the loop of [wait.UntilWithContext] started
    in [ps0] is about to open a round in state [ps]. *)
Inductive Round (ctx : Context) (f : PollState -> PollState) (period : Z)
    (ps0 : PollState) : PollState -> Prop :=
| Round_first : Round ctx f period ps0 ps0
| Round_next ps :
    Round ctx f period ps0 ps ->
    cancelled ps = false ->
    Done ctx (now (world ps)) = false ->
    cancelled (f ps) = false ->
    Done ctx (now (world (f ps)) + period) = false ->
    Round ctx f period ps0 (atInstant (now (world (f ps)) + period) (f ps)).

(** The resource reports every requested condition as [True]. *)
Definition reportsAll (conditions : list ConditionType) (r : Unstructured) : Prop :=
  exists s, statusField r = StatusValue s /\
            Forall (fun c => Status (GetCondition s c) = ConditionTrue) conditions.

(** The status of the resource can be read (it may be absent). *)
Definition statusReadable (r : Unstructured) : Prop :=
  forall e, statusField r = StatusMalformed e -> IsNotFound e = true.

(** [s] occurs in [t]. *)
Definition occursIn (s t : string) : Prop :=
  exists pre post, t = pre +:+ s +:+ post.

(** The calls to collaborators in a trace: terminal output is left out. *)
Definition significant (e : Event) : bool :=
  match e with
  | EvSpinner _ _ | EvPrintf _ => false
  | _ => true
  end.

Definition steps (d : list Event) : list Event := filter (fun e => significant e = true) d.

(** The calls made by [waitForConditions]. *)
Definition isWaitCall (e : Event) : bool :=
  match e with
  | EvRESTMapping _ | EvList _ => true
  | _ => false
  end.

(** A piece of trace in which only [waitForConditions] calls out. *)
Definition waitCalls (d : list Event) : Prop :=
  Forall (fun e => isWaitCall e = true) (steps d).

Definition isReset (e : Event) : bool :=
  match e with EvReset => true | _ => false end.

Definition isOpen (e : Event) : bool :=
  match e with EvOpen _ => true | _ => false end.

(** How many events of a trace satisfy [p]. *)
Definition count (p : Event -> bool) (d : list Event) : nat :=
  length (filter (fun e => p e = true) d).

(** How often the mapper is reset in a trace. *)
Definition resets (d : list Event) : nat := count isReset d.

(** How often the archive is opened for extraction in a trace. *)
Definition extractions (d : list Event) : nat := count isOpen d.

Definition importOf (pause : bool) (gr : string) : Event := EvImportResources gr pause.

Definition modifyOf (category : string) : Event :=
  EvModifyResources category (RemoveAnnotations ["crossplane.io/paused"]).

(** The root entries that are neither the metadata record nor base groups. *)
Definition remainingGroups (grs : list FileInfo) : list string :=
  filter (fun n => n <> "export.yaml" /\ isBaseResource n = false) (Name <$> grs).

(** The categories handed to [ModifyResources] in a trace, each with its
    mutation. *)
Definition modified (d : list Event) : list (string * Mutation) :=
  omap (fun e => match e with
                 | EvModifyResources category f => Some (category, f)
                 | _ => None
                 end) d.

(** The groups handed to [ImportResources] in a trace, each with [pause]. *)
Definition imported (d : list Event) : list (string * bool) :=
  omap (fun e => match e with
                 | EvImportResources gr pause => Some (gr, pause)
                 | _ => None
                 end) d.

(** How [importFinalize] ends, by the categories it modified. *)
Definition finalizeOutcome (opts : Options) (M : list string) (r : option error) : Prop :=
  (M = ["composite"] /\ exists e, r = Some (Wrap e "cannot unpause composites")) \/
  (M = ["composite"; "claim"] /\ exists e, r = Some (Wrap e "cannot unpause claims")) \/
  (M = ["composite"; "claim"] /\ r = None /\ UnpauseAfterImport opts = false) \/
  (M = ["composite"; "claim"; "managed"] /\ UnpauseAfterImport opts = true /\
   (r = None \/ exists e, r = Some (Wrap e "cannot unpause managed resources"))).

(** One call of an entry point: it extracts only if the store is not
    there, and leaves a store that is there alone. *)
Definition extractsOnlyIfMissing {Fs : Type} (im im' : ControlPlaneStateImporter Fs)
    (d : list Event) : Prop :=
  options im' = options im /\
  ((fs im' = fs im /\ extractions d = 0%nat) \/
   (fs im = None /\ is_Some (fs im') /\ extractions d = 1%nat)).

(** ** A test double

    An in-memory file system and a live system in which everything works;
    single answers are replaced to build the scenarios below. *)
Module Scenario.

(** Entries by name: [None] is a directory, [Some b] a file. *)
Definition MemFs : Type := list (string * option string).

Fixpoint hasSlash (s : string) : bool :=
  match s with
  | EmptyString => false
  | String a s' => if decide (a = "/"%char) then true else hasSlash s'
  end.

Definition memLookup (m : MemFs) (name : string) : option (option string) :=
  (fun e => snd (snd e)) <$> list_find (fun e => fst e = name) m.

Definition memPut (m : MemFs) (name : string) (v : option string) : MemFs :=
  (filter (fun e => fst e <> name) m ++ [(name, v)])%list.

#[export] Instance MemFs_Afero : Afero MemFs := {|
  NewMemMapFs := [];
  Mkdir m name :=
    match memLookup m name with
    | Some _ => inl (External "file already exists")
    | None => inr (memPut m name None)
    end;
  OpenFile m name :=
    match memLookup m name with
    | Some None => inl (External "is a directory")
    | _ => inr (memPut m name (Some ""))
    end;
  Write m name data := inr (memPut m name (Some data));
  ReadFile m name :=
    match memLookup m name with
    | Some (Some b) => inr b
    | _ => inl (External "file does not exist")
    end;
  ReadDir m dir :=
    inr ((fun e => mkFileInfo (fst e) (bool_decide (snd e = None)))
           <$> filter (fun e => hasSlash (fst e) = false) m)
|}.

Definition dir (name : string) : TarEntry := mkTarEntry name true "" None 0.
Definition file (name data : string) : TarEntry := mkTarEntry name false data None 0.

Definition archive : ArchiveFile :=
  mkArchiveFile None
    [ file "export.yaml" "meta";
      dir "namespaces"; file "namespaces/ns1.yaml" "ns1";
      dir "secrets"; file "secrets/s1.yaml" "s1";
      dir "widgets.example.io"; file "widgets.example.io/w1.yaml" "w1" ]
    None.

Definition exported : ExportMeta := mkExportMeta (mkInfo "1.14.0" ["A"; "B"]).

Definition mapping (gk : GroupKind) : GroupVersionResource :=
  mkGVR (Group gk) "v1" (Kind gk).

(** Listing takes a second, everything else no time. *)
Definition latency (w : World) (e : Event) : N :=
  match e with
  | EvList _ => 1000000000
  | _ => 0
  end%N.

Definition healthy : Env MemFs := {|
  envLatency := latency;
  envCollectInfo _ := inr (mkInfo "1.14.0" ["A"; "B"]);
  envOpen _ _ := inr archive;
  envUnmarshal b :=
    if decide (b = "meta") then inr exported else inl (External "yaml: cannot unmarshal");
  envImportResources _ _ _ _ := inr 1;
  envRESTMapping _ gk := inr (mapping gk);
  envList _ _ := inr [];
  envModifyResources _ _ _ := inr 0
|}.

Definition withList (f : World -> GroupVersionResource -> error + list Unstructured)
    (e : Env MemFs) : Env MemFs :=
  mkEnv MemFs (envLatency e) (envCollectInfo e) (envOpen e) (envUnmarshal e)
    (envImportResources e) (envRESTMapping e) f (envModifyResources e).

Definition withImportResources (f : MemFs -> World -> string -> bool -> error + Z)
    (e : Env MemFs) : Env MemFs :=
  mkEnv MemFs (envLatency e) (envCollectInfo e) (envOpen e) (envUnmarshal e)
    f (envRESTMapping e) (envList e) (envModifyResources e).

Definition withModifyResources (f : World -> string -> Mutation -> error + Z)
    (e : Env MemFs) : Env MemFs :=
  mkEnv MemFs (envLatency e) (envCollectInfo e) (envOpen e) (envUnmarshal e)
    (envImportResources e) (envRESTMapping e) (envList e) f.

Definition withCollectInfo (f : World -> error + CrossplaneInfo) (e : Env MemFs) : Env MemFs :=
  mkEnv MemFs (envLatency e) f (envOpen e) (envUnmarshal e)
    (envImportResources e) (envRESTMapping e) (envList e) (envModifyResources e).

Definition withOpen (f : World -> string -> error + ArchiveFile) (e : Env MemFs) : Env MemFs :=
  mkEnv MemFs (envLatency e) (envCollectInfo e) f (envUnmarshal e)
    (envImportResources e) (envRESTMapping e) (envList e) (envModifyResources e).

(** The same archive, read at one entry per second. *)
Definition slowArchive : ArchiveFile :=
  mkArchiveFile None
    ((fun e => mkTarEntry (hdrName e) (hdrIsDir e) (body e) (bodyErr e) 1000000000)
       <$> tarEntries archive)
    None.

(** A provider that is installed and never gets healthy. *)
Definition unhealthy : Env MemFs :=
  withList (fun _ _ => inr [mkUnstructured "p"
                              (StatusValue [mkCondition "Installed" "True";
                                            mkCondition "Healthy" "False"])]) healthy.

(** The first listing fails, the next ones find nothing. *)
Definition flaky : Env MemFs :=
  withList (fun w _ => if decide (now w = 0) then inl (External "connection refused")
                       else inr []) healthy.

(** The target runs another version, with one flag less. *)
Definition otherTarget : Env MemFs :=
  withCollectInfo (fun _ => inr (mkInfo "1.15.0" ["A"])) healthy.

(** The target cannot be asked for its Crossplane info. *)
Definition unreachableTarget : Env MemFs :=
  withCollectInfo (fun _ => inl (External "deployments.apps is forbidden")) healthy.

(** Composites cannot be modified. *)
Definition frozenComposites : Env MemFs :=
  withModifyResources
    (fun _ category _ => if decide (category = "composite")
                         then inl (External "forbidden") else inr 0) healthy.

(** Namespaces cannot be imported. *)
Definition noNamespaces : Env MemFs :=
  withImportResources
    (fun _ _ gr _ => if decide (gr = "namespaces")
                     then inl (External "forbidden") else inr 1) healthy.

(** The archive is read slowly. *)
Definition slowDisk : Env MemFs := withOpen (fun _ _ => inr slowArchive) healthy.

Definition providerKind : GroupKind := mkGroupKind "pkg.crossplane.io" "Provider".

Definition installedAndHealthy : list ConditionType := ["Installed"; "Healthy"].

Definition start : World := mkWorld 0 [].

(** The state in which the wait for providers opens its first round. *)
Definition ps0 (env : Env MemFs) : PollState :=
  mkPollState (call env (EvRESTMapping providerKind) start) false false.

(** The second round of the wait on the flaky target. *)
Definition second : PollState :=
  let ps1 := poll flaky (mapping providerKind) providerKind installedAndHealthy (ps0 flaky) in
  atInstant (now (world ps1) + period) ps1.

Definition fresh (unpauseAfterImport : bool) : ControlPlaneStateImporter MemFs :=
  mkImporter None (mkOptions "xp-state.tar.gz" unpauseAfterImport).

Definition provider (name : string) (installed healthy : string) : Unstructured :=
  mkUnstructured name
    (StatusValue [mkCondition "Installed" installed; mkCondition "Healthy" healthy]).

End Scenario.

(** ** Further notions *)

Definition isList (e : Event) : bool :=
  match e with EvList _ => true | _ => false end.

(** How often the resources are listed in a trace. *)
Definition listings (d : list Event) : nat := count isList d.

(** The kinds whose REST mapping is asked for in a trace. *)
Definition mapped (d : list Event) : list GroupKind :=
  omap (fun e => match e with
                 | EvRESTMapping gk => Some gk
                 | _ => None
                 end) d.

(** The kinds [Import] waits for, in the order of the source. *)
Definition waitedKinds : list GroupKind :=
  [ mkGroupKind "apiextensions.crossplane.io" "CompositeResourceDefinition";
    mkGroupKind "pkg.crossplane.io" "Provider";
    mkGroupKind "pkg.crossplane.io" "Function";
    mkGroupKind "pkg.crossplane.io" "Configuration";
    mkGroupKind "pkg.crossplane.io" "ProviderRevision";
    mkGroupKind "pkg.crossplane.io" "FunctionRevision";
    mkGroupKind "pkg.crossplane.io" "ConfigurationRevision" ].

(** [NewControlPlaneStateImporter]: the clients are the environment and
    [fs] is left [nil]. *)
Definition NewControlPlaneStateImporter {Fs : Type} (opts : Options)
    : ControlPlaneStateImporter Fs :=
  mkImporter None opts.

(** The resource is one that a poll counts as unmet. *)
Definition unmetResource (conditions : list ConditionType) (r : Unstructured) : bool :=
  someConditionUnmet (snd (GetValueInto_status r)) conditions.

(** The status of the resource is there and cannot be decoded. *)
Definition statusBroken (r : Unstructured) : option error :=
  match statusField r with
  | StatusMalformed e => if IsNotFound e then None else Some e
  | _ => None
  end.

(** The first resource of a list whose status cannot be decoded. *)
Fixpoint firstBroken (items : list Unstructured) : option (string * error) :=
  match items with
  | [] => None
  | r :: items' =>
      match statusBroken r with
      | Some e => Some (GetName r, e)
      | None => firstBroken items'
      end
  end.

(** What the entries of an archive do to the store when nothing fails,
    and how long reading them takes. *)
Definition storeEntry {Fs : Type} `{Afero Fs} (fs : Fs) (hdr : TarEntry) : option Fs :=
  if hdrIsDir hdr then
    match Mkdir fs (hdrName hdr) with
    | inr fs1 => Some fs1
    | inl _ => None
    end
  else
    match OpenFile fs (hdrName hdr) with
    | inr fs1 =>
        match Write fs1 (hdrName hdr) (body hdr), bodyErr hdr with
        | inr fs2, None => Some fs2
        | _, _ => None
        end
    | inl _ => None
    end.

Fixpoint storeEntries {Fs : Type} `{Afero Fs} (fs : Fs) (entries : list TarEntry)
    : option Fs :=
  match entries with
  | [] => Some fs
  | hdr :: entries' =>
      match storeEntry fs hdr with
      | Some fs1 => storeEntries fs1 entries'
      | None => None
      end
  end.

Fixpoint readingTime (entries : list TarEntry) : N :=
  match entries with
  | [] => 0
  | hdr :: entries' => readTime hdr + readingTime entries'
  end%N.

(** The errors [unarchive] makes itself. *)
Definition unarchiveError (path : string) (e : error) : Prop :=
  exists cause,
    e = Wrapf cause "cannot open archive %q" [path] \/
    e = Wrapf cause "cannot create gzip reader for %q" [path] \/
    e = Wrapf cause "cannot read archive %q" [path] \/
    (exists name, e = Wrapf cause "cannot create directory %q" [name]) \/
    (exists name, e = Wrapf cause "cannot create file %q" [name]) \/
    (exists name, e = Wrapf cause "cannot write file %q" [name]).

(** The errors [Import] returns. *)
Definition importError (e : error) : Prop :=
  (exists cause, e = Wrap cause "cannot unarchive export archive") \/
  (exists cause gr, e = Wrapf cause "cannot import %q resources" [gr]) \/
  (exists cause, e = Wrap cause "there are unhealthy CompositeResourceDefinitions") \/
  (exists cause kind, e = Wrapf cause "there are unhealthy %qs" [kind]) \/
  (exists cause, e = Wrap cause "cannot list group resources") \/
  (exists name, e = Errorf "unexpected file %q in root directory of exported state" [name]) \/
  (exists cause, e = Wrap cause "cannot unpause composites") \/
  (exists cause, e = Wrap cause "cannot unpause claims") \/
  (exists cause, e = Wrap cause "cannot unpause managed resources").

(** A poll in state [ps] meets an error, and [msg] is what is to be logged
    for it: the resources cannot be listed, or the status of a listed
    resource is there and cannot be decoded, the statuses of the resources
    listed before it being readable or absent. *)
Definition pollError {Fs : Type} (env : Env Fs) (rm : GroupVersionResource) (gk : GroupKind)
    (ps : PollState) (msg : Formatted) : Prop :=
  (exists err,
      envList env (world ps) rm = inl err /\
      msg = Sprintf "cannot list packages with error: %v\n" [ArgV err]) \/
  (exists pre r post err,
      envList env (world ps) rm = inr (pre ++ r :: post)%list /\
      Forall statusReadable pre /\
      statusField r = StatusMalformed err /\
      IsNotFound err = false /\
      msg = Sprintf "cannot get status for %q %q with error: %v\n"
              [ArgQ (Kind gk); ArgQ (GetName r); ArgV err]).

(** [w'] is [w] after terminal output only: no collaborator was called and
    no time has passed. *)
Definition afterOutput (w w' : World) : Prop :=
  now w' = now w /\ exists o, trace w' = (trace w ++ o)%list /\ steps o = [].

(** The condition waits of [Import], in the order of the source, each with
    the conditions it waits for. *)
Definition conditionWaits : list (GroupKind * list ConditionType) :=
  [ (mkGroupKind "apiextensions.crossplane.io" "CompositeResourceDefinition", ["Established"]);
    (mkGroupKind "pkg.crossplane.io" "Provider", ["Installed"; "Healthy"]);
    (mkGroupKind "pkg.crossplane.io" "Function", ["Installed"; "Healthy"]);
    (mkGroupKind "pkg.crossplane.io" "Configuration", ["Installed"; "Healthy"]);
    (mkGroupKind "pkg.crossplane.io" "ProviderRevision", ["Healthy"]);
    (mkGroupKind "pkg.crossplane.io" "FunctionRevision", ["Healthy"]);
    (mkGroupKind "pkg.crossplane.io" "ConfigurationRevision", ["Healthy"]) ].

(** The waits [ks] are made one after the other from the world [w], with
    nothing but terminal output in between, each returns [nil], and [w'] is
    the world after the last of them. *)
Fixpoint allWaited {Fs : Type} (env : Env Fs) (ctx : Context)
    (ks : list (GroupKind * list ConditionType)) (w w' : World) : Prop :=
  match ks with
  | [] => afterOutput w w'
  | (k, conditions) :: ks' =>
      exists w1 w2,
        afterOutput w w1 /\
        waitForConditions env ctx k conditions w1 = Some (w2, None) /\
        allWaited env ctx ks' w2 w'
  end.

(** Case analysis on the membership of an event in an explicit list. *)
Ltac in_events Hin :=
  repeat (apply elem_of_cons in Hin as [Hin|Hin]; [try discriminate Hin|]);
  try (apply elem_of_nil in Hin; destruct Hin).

(** ** The get command ([package controlplane]) *)

Module GetCmd.

Section Run.

(** [spacesv1beta1.ControlPlane]. *)
Variable ControlPlane : Type.

Record getCmd : Type := mkGetCmd { Name : string }.

(** What [Run] does to the outside, in order. *)
Inductive Event : Type :=
| EvNamespace
| EvGet (namespace name : string)
| EvPrintfln (msg : Formatted)
| EvTabularPrint (ctp : ControlPlane).

(** The kubeconfig, the client, [kerrors.IsNotFound] and [tabularPrint]. *)
Record Env : Type := mkEnv {
  Namespace : error + string;
  Get : string -> string -> error + ControlPlane;
  IsNotFound : error -> bool;
  tabularPrint : ControlPlane -> option error
}.

Definition Run (env : Env) (c : getCmd) : list Event * option error :=
  match Namespace env with
  | inl err => ([EvNamespace], Some (Wrap err "error getting namespace"))
  | inr ns =>
      match Get env ns (Name c) with
      | inl err =>
          if IsNotFound env err then
            ([EvNamespace; EvGet ns (Name c);
              EvPrintfln (Sprintf "Control plane %s not found" [ArgS (Name c)])],
             None)
          else
            ([EvNamespace; EvGet ns (Name c)],
             Some (Wrap err "error getting control plane"))
      | inr ctp =>
          ([EvNamespace; EvGet ns (Name c); EvTabularPrint ctp], tabularPrint env ctp)
      end
  end.

End Run.

Arguments EvNamespace {ControlPlane}.
Arguments EvGet {ControlPlane}.
Arguments EvPrintfln {ControlPlane}.
Arguments EvTabularPrint {ControlPlane}.
Arguments Run {ControlPlane}.
Arguments Namespace {ControlPlane}.
Arguments Get {ControlPlane}.
Arguments IsNotFound {ControlPlane}.
Arguments tabularPrint {ControlPlane}.

End GetCmd.

(** ** More test doubles *)

Module Cases.

Import Scenario.

Definition withRESTMapping (f : World -> GroupKind -> error + GroupVersionResource)
    (e : Env MemFs) : Env MemFs :=
  mkEnv MemFs (envLatency e) (envCollectInfo e) (envOpen e) (envUnmarshal e)
    (envImportResources e) f (envList e) (envModifyResources e).

(** The kind is not known to the mapper. *)
Definition unknownKind : Env MemFs :=
  withRESTMapping (fun _ _ => inl (External "no matches for kind")) healthy.

(** The archive ends in the middle. *)
Definition truncatedArchive : ArchiveFile :=
  mkArchiveFile None [file "export.yaml" "meta"; dir "namespaces"]
    (Some (External "unexpected EOF")).

Definition truncated : Env MemFs := withOpen (fun _ _ => inr truncatedArchive) healthy.

(** There is no archive. *)
Definition noArchive : Env MemFs :=
  withOpen (fun _ _ => inl (External "no such file or directory")) healthy.

(** The archive holds a file besides export.yaml in its root. *)
Definition strayFileArchive : ArchiveFile :=
  mkArchiveFile None
    [file "export.yaml" "meta"; dir "namespaces"; file "README" "hello";
     dir "widgets.example.io"]
    None.

Definition strayFile : Env MemFs := withOpen (fun _ _ => inr strayFileArchive) healthy.

(** The store that archive is extracted to. *)
Definition strayStore : MemFs :=
  [("export.yaml", Some "meta"); ("namespaces", None); ("README", Some "hello");
   ("widgets.example.io", None)].

(** Every group holds as many resources as its name has letters. *)
Definition byName : Env MemFs :=
  withImportResources (fun _ _ gr _ => inr (Z.of_nat (String.length gr))) healthy.

(** A resource without a status, and one whose status cannot be decoded. *)
Definition bare : Unstructured := mkUnstructured "bare" StatusAbsent.

Definition garbled : Unstructured :=
  mkUnstructured "garbled" (StatusMalformed (External "json: cannot unmarshal")).

(** The first listing finds a provider whose status cannot be decoded
    behind one that is fine; the next ones find nothing. *)
Definition halfReadable : Env MemFs :=
  withList (fun w _ => if decide (now w = 0)
                       then inr [provider "p" "True" "True"; garbled]
                       else inr []) healthy.

Definition withUnmarshal (f : string -> error + ExportMeta) (e : Env MemFs) : Env MemFs :=
  mkEnv MemFs (envLatency e) (envCollectInfo e) (envOpen e) f
    (envImportResources e) (envRESTMapping e) (envList e) (envModifyResources e).

(** The export lists the flag B twice; the target has the flag A only. *)
Definition repeatedFlag : Env MemFs :=
  withUnmarshal (fun _ => inr (mkExportMeta (mkInfo "1.14.0" ["A"; "B"; "B"])))
    (withCollectInfo (fun _ => inr (mkInfo "1.14.0" ["A"])) healthy).

(** A control plane is its name here; [ctp1] exists, nothing else does. *)
Definition space : GetCmd.Env string :=
  GetCmd.mkEnv string (inr "default")
    (fun ns name => if decide (name = "ctp1") then inr name
                    else inl (External (name +:+ " not found")))
    (fun e => match e with External _ => true | _ => false end)
    (fun _ => None).

End Cases.

(** * Properties *)

(** ** The poll loop *)

Section WaitProperties.

Context {Fs : Type} `{Afero Fs}.
Variable env : Env Fs.

Lemma call_now e w : now w <= now (call env e w).
Proof. unfold call; simpl; lia. Qed.

Lemma poll_now rm gk conditions ps :
  now (world ps) <= now (world (poll env rm gk conditions ps)).
Proof.
  unfold poll. pose proof (call_now (EvList rm) (world ps)).
  destruct (envList env (world ps) rm) as [err|items]; simpl; [lia|].
  destruct (countUnmet items conditions 0) as [[name err]|unmet]; simpl; [lia|].
  destruct (bool_decide (unmet > 0)); simpl; lia.
Qed.

(** [success] and [cancel()] go together. *)
Lemma poll_flags rm gk conditions ps :
  let ps1 := poll env rm gk conditions ps in
  (success ps1 = true /\ cancelled ps1 = true) \/
  (success ps1 = success ps /\ cancelled ps1 = cancelled ps).
Proof.
  unfold poll.
  destruct (envList env (world ps) rm) as [err|items]; simpl; [tauto|].
  destruct (countUnmet items conditions 0) as [[name err]|unmet]; simpl; [tauto|].
  destruct (bool_decide (unmet > 0)); simpl; tauto.
Qed.

(** The loop ends within the fuel that the distance to the deadline buys. *)
Lemma UntilWithContext_total f p t0 e :
  0 < p ->
  (forall ps, now (world ps) <= now (world (f ps))) ->
  forall k ps,
    t0 - now (world ps) < Z.of_nat (S k) * p ->
    is_Some (UntilWithContext (S k) (DoneAt t0 e) f p ps).
Proof.
  intros Hp Hf k. induction k as [|k IH]; intros ps Hlt.
  - simpl. destruct (cancelled ps); simpl; [eauto|].
    case_bool_decide; simpl; [eauto|].
    destruct (cancelled (f ps)); [eauto|].
    pose proof (Hf ps). case_bool_decide; [eauto|]. exfalso. change (Z.of_nat 1) with 1 in Hlt. lia.
  - cbn [UntilWithContext].
    destruct (cancelled ps || Done (DoneAt t0 e) (now (world ps))) eqn:Hd; [eauto|].
    destruct (cancelled (f ps)); [eauto|].
    destruct (Done (DoneAt t0 e) (now (world (f ps)) + p)) eqn:Hd2; [eauto|].
    apply IH. apply orb_false_elim in Hd as [_ Hd]. simpl in Hd, Hd2 |- *.
    case_bool_decide; [done|]. pose proof (Hf ps).
    rewrite (Nat2Z.inj_succ (S k)) in Hlt. lia.
Qed.

Lemma WithTimeout_DoneAt ctx t d :
  exists t0 e, WithTimeout ctx t d = DoneAt t0 e /\ t0 <= t + d.
Proof.
  destruct ctx as [|t1 e1]; simpl.
  - exists (t + d), DeadlineExceeded. split; [done|lia].
  - case_bool_decide; [exists t1, e1|exists (t + d), DeadlineExceeded]; split; done || lia.
Qed.

Lemma poll_loop_total ctx rm gk conditions w :
  is_Some (UntilWithContext pollBudget (WithTimeout ctx (now w) timeout)
             (poll env rm gk conditions) period (mkPollState w false false)).
Proof.
  destruct (WithTimeout_DoneAt ctx (now w) timeout) as (t0 & e & -> & Hle).
  apply UntilWithContext_total.
  - reflexivity.
  - intros ps. apply poll_now.
  - cbn [world now]. change (Z.of_nat _ * period) with 605000000000.
    change timeout with 600000000000 in Hle. lia.
Qed.

(** [waitForConditions] returns. *)
Lemma waitForConditions_total ctx gk conditions w :
  is_Some (waitForConditions env ctx gk conditions w).
Proof.
  unfold waitForConditions.
  destruct (envRESTMapping env w gk) as [err|rm]; [eauto|].
  destruct (poll_loop_total ctx rm gk conditions (call env (EvRESTMapping gk) w)) as [ps ->].
  destruct (success ps); eauto.
Qed.

(** It returns [nil] or the timeout error once the REST mapping is known. *)
Lemma waitForConditions_result ctx gk conditions w w' r rm :
  envRESTMapping env w gk = inr rm ->
  waitForConditions env ctx gk conditions w = Some (w', r) ->
  r = None \/ r = Some (timeoutError gk conditions).
Proof.
  unfold waitForConditions. intros ->.
  destruct (UntilWithContext _ _ _ _ _) as [ps|]; [|done].
  destruct (success ps); intros [= <- <-]; tauto.
Qed.

(** A round reached by the loop decides the result of the loop. *)
Lemma Round_UntilWithContext ctx f p ps0 ps :
  Round ctx f p ps0 ps ->
  forall fuel r, UntilWithContext fuel ctx f p ps0 = Some r ->
  exists fuel', UntilWithContext fuel' ctx f p ps = Some r.
Proof.
  induction 1 as [|ps HR IH Hc Hd Hc1 Hd1]; intros fuel r Hr; [eauto|].
  destruct (IH fuel r Hr) as [[|k] Hk]; [done|].
  exists k. cbn [UntilWithContext] in Hk.
  rewrite Hc, Hd, Hc1, Hd1 in Hk. exact Hk.
Qed.

Lemma Round_flags ctx rm gk conditions ps0 ps :
  Round ctx (poll env rm gk conditions) period ps0 ps ->
  success ps0 = false -> cancelled ps0 = false ->
  success ps = false /\ cancelled ps = false.
Proof.
  induction 1 as [|ps HR IH Hc Hd Hc1 Hd1]; intros Hs0 Hc0; [done|].
  destruct (IH Hs0 Hc0) as [Hs _]. simpl. split; [|done].
  destruct (poll_flags rm gk conditions ps) as [[_ Hx]|[Hx _]]; congruence.
Qed.

Lemma UntilWithContext_fuel ctx f p :
  forall n m ps r r',
    UntilWithContext n ctx f p ps = Some r ->
    UntilWithContext m ctx f p ps = Some r' -> r = r'.
Proof.
  induction n as [|n IH]; intros [|m] ps r r'; try done.
  cbn [UntilWithContext].
  destruct (cancelled ps || Done ctx (now (world ps))); [congruence|].
  destruct (cancelled (f ps)); [congruence|].
  destruct (Done ctx (now (world (f ps)) + p)); [congruence|].
  apply IH.
Qed.

Lemma UntilWithContext_now ctx f p :
  0 <= p ->
  (forall ps, now (world ps) <= now (world (f ps))) ->
  forall n ps r,
    UntilWithContext n ctx f p ps = Some r -> now (world ps) <= now (world r).
Proof.
  intros Hp Hf. induction n as [|n IH]; intros ps r; [done|].
  cbn [UntilWithContext]. pose proof (Hf ps).
  destruct (cancelled ps || Done ctx (now (world ps))); [intros [= <-]; lia|].
  destruct (cancelled (f ps)); [intros [= <-]; lia|].
  destruct (Done ctx (now (world (f ps)) + p)).
  - intros [= <-]. destruct ctx; simpl; lia.
  - intros Hr. apply IH in Hr. simpl in Hr. lia.
Qed.

(** What the loop returns from a round it reaches is what
    [waitForConditions] returns. *)
Lemma waitForConditions_from_round ctx gk conditions w rm ps fuel r :
  envRESTMapping env w gk = inr rm ->
  Round (WithTimeout ctx (now (call env (EvRESTMapping gk) w)) timeout)
    (poll env rm gk conditions) period
    (mkPollState (call env (EvRESTMapping gk) w) false false) ps ->
  UntilWithContext fuel (WithTimeout ctx (now (call env (EvRESTMapping gk) w)) timeout)
    (poll env rm gk conditions) period ps = Some r ->
  waitForConditions env ctx gk conditions w =
    Some (world r, if success r then None else Some (timeoutError gk conditions)).
Proof.
  intros Hrm HR Hr. unfold waitForConditions. rewrite Hrm.
  destruct (poll_loop_total ctx rm gk conditions (call env (EvRESTMapping gk) w))
    as [r0 Hr0].
  rewrite Hr0.
  destruct (Round_UntilWithContext _ _ _ _ _ HR _ _ Hr0) as [fuel' Hr'].
  rewrite (UntilWithContext_fuel _ _ _ _ _ _ _ _ Hr' Hr).
  by destruct (success r).
Qed.

(** *** Counting unmet resources *)

Lemma someConditionUnmet_reportsAll s conditions :
  Forall (fun c => Status (GetCondition s c) = ConditionTrue) conditions ->
  someConditionUnmet s conditions = false.
Proof.
  induction 1 as [|c cs Hc _ IH]; simpl; [done|].
  by destruct (decide (Status (GetCondition s c) <> ConditionTrue)).
Qed.

Lemma countUnmet_reportsAll items conditions unmet :
  Forall (reportsAll conditions) items ->
  countUnmet items conditions unmet = inr unmet.
Proof.
  induction 1 as [|r items (s & Hs & Hall) _ IH]; simpl; [done|].
  unfold GetValueInto_status. rewrite Hs.
  by rewrite someConditionUnmet_reportsAll.
Qed.

Lemma countUnmet_no_conditions items unmet :
  Forall statusReadable items ->
  countUnmet items [] unmet = inr unmet.
Proof.
  induction 1 as [|r items Hr _ IH]; simpl; [done|].
  unfold GetValueInto_status. unfold statusReadable in Hr.
  destruct (statusField r) as [|e|s]; simpl; [done| |done].
  by rewrite (Hr e eq_refl).
Qed.

Lemma countUnmet_bounds items conditions :
  forall unmet n,
    countUnmet items conditions unmet = inr n ->
    unmet <= n <= unmet + Z.of_nat (length items).
Proof.
  induction items as [|r items IH]; intros unmet n; simpl.
  - intros [= <-]. lia.
  - destruct (GetValueInto_status r) as [[e|] status].
    + destruct (negb (IsNotFound e)); [done|].
      intros Hn%IH. destruct (someConditionUnmet status conditions); lia.
    + intros Hn%IH. destruct (someConditionUnmet status conditions); lia.
Qed.

(** A poll that finds nothing unmet sets [success] and cancels. *)
Lemma poll_success rm gk conditions ps items :
  envList env (world ps) rm = inr items ->
  countUnmet items conditions 0 = inr 0 ->
  poll env rm gk conditions ps = mkPollState (call env (EvList rm) (world ps)) true true.
Proof. unfold poll. by intros -> ->. Qed.

Lemma wait_success_at_round ctx gk conditions w rm ps items :
  envRESTMapping env w gk = inr rm ->
  Round (WithTimeout ctx (now (call env (EvRESTMapping gk) w)) timeout)
    (poll env rm gk conditions) period
    (mkPollState (call env (EvRESTMapping gk) w) false false) ps ->
  Done (WithTimeout ctx (now (call env (EvRESTMapping gk) w)) timeout)
    (now (world ps)) = false ->
  envList env (world ps) rm = inr items ->
  countUnmet items conditions 0 = inr 0 ->
  waitForConditions env ctx gk conditions w =
    Some (call env (EvList rm) (world ps), None).
Proof.
  intros Hrm HR Hd Hl Hc.
  destruct (Round_flags _ _ _ _ _ _ HR eq_refl eq_refl) as [_ Hcan].
  rewrite (waitForConditions_from_round ctx gk conditions w rm ps 1
             (poll env rm gk conditions ps) Hrm HR).
  - by rewrite (poll_success _ _ _ _ _ Hl Hc).
  - cbn [UntilWithContext]. rewrite Hcan, Hd. simpl.
    by rewrite (poll_success _ _ _ _ _ Hl Hc).
Qed.

(** C3.  Whenever a poll of [waitForConditions] lists the resources and
    counts none unmet (no resource at all, or every resource reporting
    every requested condition as true, or any other way to count zero),
    [waitForConditions] returns [nil] from that very poll: the world it
    returns in is the one in which the list call ended, no tick later. *)
Theorem wait_succeeds_on_poll_without_unmet ctx gk conditions w rm ps items :
  envRESTMapping env w gk = inr rm ->
  Round (WithTimeout ctx (now (call env (EvRESTMapping gk) w)) timeout)
    (poll env rm gk conditions) period
    (mkPollState (call env (EvRESTMapping gk) w) false false) ps ->
  Done (WithTimeout ctx (now (call env (EvRESTMapping gk) w)) timeout)
    (now (world ps)) = false ->
  envList env (world ps) rm = inr items ->
  items = [] \/ Forall (reportsAll conditions) items \/
    countUnmet items conditions 0 = inr 0 ->
  waitForConditions env ctx gk conditions w =
    Some (call env (EvList rm) (world ps), None).
Proof.
  intros Hrm HR Hd Hl Hzero.
  apply (wait_success_at_round ctx gk conditions w rm ps items Hrm HR Hd Hl).
  destruct Hzero as [->|[Hall|Hc]]; [done| |done].
  by apply countUnmet_reportsAll.
Qed.

(** C10.  With no requested condition, a poll that lists the resources
    and can read their statuses ends the wait with [nil], whatever the
    conditions of the resources are; and a poll never counts more unmet
    resources than it listed. *)
Theorem wait_without_conditions_and_unmet_bound ctx gk w rm ps items :
  envRESTMapping env w gk = inr rm ->
  Round (WithTimeout ctx (now (call env (EvRESTMapping gk) w)) timeout)
    (poll env rm gk []) period
    (mkPollState (call env (EvRESTMapping gk) w) false false) ps ->
  Done (WithTimeout ctx (now (call env (EvRESTMapping gk) w)) timeout)
    (now (world ps)) = false ->
  envList env (world ps) rm = inr items ->
  (Forall statusReadable items ->
   waitForConditions env ctx gk [] w = Some (call env (EvList rm) (world ps), None)) /\
  (forall conditions unmet,
     countUnmet items conditions 0 = inr unmet ->
     0 <= unmet <= Z.of_nat (length items)).
Proof.
  intros Hrm HR Hd Hl. split.
  - intros Hread.
    apply (wait_success_at_round ctx gk [] w rm ps items Hrm HR Hd Hl).
    by apply countUnmet_no_conditions.
  - intros conditions unmet Hc. apply countUnmet_bounds in Hc. lia.
Qed.

(** *** Errors during a poll *)

(** The count stops at the first resource whose status cannot be decoded. *)
Lemma countUnmet_broken conditions r post err :
  statusField r = StatusMalformed err ->
  IsNotFound err = false ->
  forall pre unmet,
    Forall statusReadable pre ->
    countUnmet (pre ++ r :: post) conditions unmet = inl (GetName r, err).
Proof.
  intros Hs Hnf. induction pre as [|a pre IH]; intros unmet Hpre; simpl.
  - unfold GetValueInto_status. rewrite Hs. simpl. by rewrite Hnf.
  - apply Forall_cons in Hpre as [Ha Hpre]. unfold GetValueInto_status.
    unfold statusReadable in Ha.
    destruct (statusField a) as [|e|st]; simpl.
    + by apply IH.
    + rewrite (Ha e eq_refl). simpl. by apply IH.
    + by apply IH.
Qed.

Lemma poll_error rm gk conditions ps msg :
  pollError env rm gk ps msg ->
  poll env rm gk conditions ps =
    mkPollState (emit (EvPrintf msg) (call env (EvList rm) (world ps)))
      (success ps) (cancelled ps).
Proof.
  unfold poll.
  intros [(err & -> & ->)|(pre & r & post & err & -> & Hpre & Hs & Hnf & ->)]; [done|].
  by rewrite (countUnmet_broken conditions r post err Hs Hnf pre 0 Hpre).
Qed.

(** C4.  A poll that cannot list the resources, or that meets a listed
    resource whose status is there and cannot be decoded, prints the error
    ("cannot list packages with error: ..." with the list error, or
    "cannot get status for <kind> <name> with error: ..." with the kind,
    the name of that resource and the decoding error) right after the list
    call, and leaves [success] and the context alone.  The loop then goes on
    as after any other unsuccessful poll: it opens the next round one period
    later under the same deadline, unless the context ends first; so
    [waitForConditions] returns no sooner than that next tick, or else with
    the timeout error once the context is over. *)
Theorem poll_error_is_retried ctx gk conditions w rm ps msg :
  envRESTMapping env w gk = inr rm ->
  let ctx' := WithTimeout ctx (now (call env (EvRESTMapping gk) w)) timeout in
  let ps0 := mkPollState (call env (EvRESTMapping gk) w) false false in
  let ps1 := poll env rm gk conditions ps in
  let tick := now (world ps1) + period in
  Round ctx' (poll env rm gk conditions) period ps0 ps ->
  Done ctx' (now (world ps)) = false ->
  pollError env rm gk ps msg ->
  world ps1 = emit (EvPrintf msg) (call env (EvList rm) (world ps)) /\
  success ps1 = false /\ cancelled ps1 = false /\
  (forall fuel,
     UntilWithContext (S fuel) ctx' (poll env rm gk conditions) period ps =
       if Done ctx' tick
       then Some (atInstant (stopInstant ctx' (now (world ps1))) ps1)
       else UntilWithContext fuel ctx' (poll env rm gk conditions) period
              (atInstant tick ps1)) /\
  (Done ctx' tick = false ->
   Round ctx' (poll env rm gk conditions) period ps0 (atInstant tick ps1)) /\
  (forall w' r,
     waitForConditions env ctx gk conditions w = Some (w', r) ->
     tick <= now w' \/
     (Done ctx' (now w') = true /\ r = Some (timeoutError gk conditions))).
Proof.
  intros Hrm ctx' ps0 ps1 tick HR Hd Hfail.
  destruct (Round_flags _ _ _ _ _ _ HR eq_refl eq_refl) as [Hs Hcan].
  pose proof (poll_error rm gk conditions ps msg Hfail) as Hps1.
  fold ps1 in Hps1.
  assert (Hs1 : success ps1 = false) by (by rewrite Hps1).
  assert (Hc1 : cancelled ps1 = false) by (by rewrite Hps1).
  assert (Hloop : forall fuel,
     UntilWithContext (S fuel) ctx' (poll env rm gk conditions) period ps =
       if Done ctx' tick
       then Some (atInstant (stopInstant ctx' (now (world ps1))) ps1)
       else UntilWithContext fuel ctx' (poll env rm gk conditions) period
              (atInstant tick ps1)).
  { intros fuel. cbn [UntilWithContext]. rewrite Hcan, Hd. simpl.
    fold ps1. by rewrite Hc1. }
  split; [by rewrite Hps1|].
  split; [done|]. split; [done|]. split; [done|].
  split; [intros Hd1; by apply Round_next|].
  intros w' r Hw.
  destruct (poll_loop_total ctx rm gk conditions (call env (EvRESTMapping gk) w))
    as [r0 Hr0].
  destruct (Round_UntilWithContext _ _ _ _ _ HR _ _ Hr0) as [[|fuel] Hr']; [done|].
  rewrite (waitForConditions_from_round ctx gk conditions w rm ps (S fuel) r0 Hrm HR Hr')
    in Hw.
  injection Hw as <- <-.
  rewrite Hloop in Hr'. destruct (Done ctx' tick) eqn:Hd1.
  - right. injection Hr' as <-. simpl. rewrite Hs1. split; [|done].
    destruct (WithTimeout_DoneAt ctx (now (call env (EvRESTMapping gk) w)) timeout)
      as (t0 & e & Hctx & _).
    subst ctx'. rewrite Hctx. simpl. apply bool_decide_eq_true. lia.
  - left. apply UntilWithContext_now in Hr'; [done|done|].
    intros ps'. apply poll_now.
Qed.

(** *** Timeout *)

Lemma never_satisfied_loop ctx' rm gk conditions ps0 :
  (exists t0 e, ctx' = DoneAt t0 e) ->
  success ps0 = false -> cancelled ps0 = false ->
  (forall ps items,
     Round ctx' (poll env rm gk conditions) period ps0 ps ->
     Done ctx' (now (world ps)) = false ->
     envList env (world ps) rm = inr items ->
     countUnmet items conditions 0 <> inr 0) ->
  forall fuel ps r,
    Round ctx' (poll env rm gk conditions) period ps0 ps ->
    UntilWithContext fuel ctx' (poll env rm gk conditions) period ps = Some r ->
    success r = false /\ Done ctx' (now (world r)) = true.
Proof.
  intros (t0 & e & ->) Hs0 Hc0 Hnever.
  induction fuel as [|fuel IH]; intros ps r HR; [done|].
  destruct (Round_flags _ _ _ _ _ _ HR Hs0 Hc0) as [Hs Hcan].
  cbn [UntilWithContext]. rewrite Hcan, orb_false_l.
  destruct (Done (DoneAt t0 e) (now (world ps))) eqn:Hd; [by intros [= <-]|].
  assert (Hs1 : success (poll env rm gk conditions ps) = false).
  { unfold poll.
    destruct (envList env (world ps) rm) as [err|items] eqn:Hl; [done|].
    specialize (Hnever ps items HR Hd Hl).
    destruct (countUnmet items conditions 0) as [[name err]|unmet] eqn:Hc; [done|].
    case_bool_decide; [done|].
    apply countUnmet_bounds in Hc. exfalso. apply Hnever. f_equal. lia. }
  assert (Hc1 : cancelled (poll env rm gk conditions ps) = false).
  { destruct (poll_flags rm gk conditions ps) as [[Hx _]|[_ Hx]]; congruence. }
  rewrite Hc1.
  destruct (Done (DoneAt t0 e) (now (world (poll env rm gk conditions ps)) + period))
    eqn:Hd1.
  - intros [= <-]. simpl. split; [done|]. apply bool_decide_eq_true. lia.
  - intros Hr. apply (IH _ _ (Round_next _ _ _ _ _ HR Hcan Hd Hc1 Hd1) Hr).
Qed.

(** *** The text of the condition list *)

Lemma append_nil_r (s : string) : s +:+ "" = s.
Proof. induction s as [|a s IH]; simpl; [done|]. unfold String.app. simpl. by f_equal. Qed.

Lemma append_assoc (s t u : string) : (s +:+ t) +:+ u = s +:+ t +:+ u.
Proof. induction s as [|a s IH]; [done|]. unfold String.app in *. simpl. by f_equal. Qed.

Lemma occursIn_refl s : occursIn s s.
Proof. exists "", "". by rewrite append_nil_r. Qed.

Lemma occursIn_app_l s t u : occursIn s t -> occursIn s (t +:+ u).
Proof.
  intros (pre & post & ->). exists pre, (post +:+ u).
  by rewrite !append_assoc.
Qed.

Lemma occursIn_app_r s t u : occursIn s t -> occursIn s (u +:+ t).
Proof.
  intros (pre & post & ->). exists (u +:+ pre), post.
  by rewrite !append_assoc.
Qed.

Lemma occursIn_Join s ss sep : s ∈ ss -> occursIn s (Join ss sep).
Proof.
  induction ss as [|s0 [|s1 ss] IH]; intros Hin.
  - by apply elem_of_nil in Hin.
  - apply list_elem_of_singleton in Hin as ->. apply occursIn_refl.
  - apply elem_of_cons in Hin as [->|Hin].
    + change (Join (s0 :: s1 :: ss) sep) with (s0 +:+ sep +:+ Join (s1 :: ss) sep).
      apply occursIn_app_l, occursIn_refl.
    + change (Join (s0 :: s1 :: ss) sep) with (s0 +:+ sep +:+ Join (s1 :: ss) sep).
      by apply occursIn_app_r, occursIn_app_r, IH.
Qed.

(** Every condition type is spelled out by [printConditions]. *)
Lemma printConditions_names conditions c :
  c ∈ conditions -> occursIn c (printConditions conditions).
Proof.
  destruct conditions as [|c0 [|c1 [|c2 cs]]]; intros Hin.
  - by apply elem_of_nil in Hin.
  - apply list_elem_of_singleton in Hin as ->. apply occursIn_refl.
  - apply elem_of_cons in Hin as [->|Hin%list_elem_of_singleton].
    + apply occursIn_app_l, occursIn_refl.
    + subst. apply occursIn_app_r, occursIn_app_r, occursIn_refl.
  - remember (c0 :: c1 :: c2 :: cs) as l eqn:Hl.
    assert (Hpc : printConditions l =
                  Join (take (length l - 1) l) ", " +:+ ", and " +:+ default "" (last l))
      by (by subst l).
    rewrite Hpc. clear Hpc.
    destruct (decide (l = [])) as [->|Hne]; [done|].
    destruct (exists_last Hne) as (l' & x & ->).
    rewrite last_snoc. simpl default.
    replace (take (length (l' ++ [x])%list - 1) (l' ++ [x])%list) with l'.
    2:{ rewrite length_app. simpl. replace (length l' + 1 - 1)%nat with (length l') by lia.
        by rewrite take_app_length. }
    apply elem_of_app in Hin as [Hin|Hin%list_elem_of_singleton].
    + by apply occursIn_app_l, occursIn_Join.
    + subst. apply occursIn_app_r, occursIn_app_r, occursIn_refl.
Qed.

(** C5.  If, as long as the context of the wait is not over, no poll finds
    every listed resource satisfied, then [waitForConditions] returns,
    after that context is over, the error "timeout waiting for
    conditions", whose arguments are the text of the requested condition
    list, in which every requested condition type occurs, and the kind. *)
Theorem wait_times_out_naming_kind_and_conditions ctx gk conditions w rm :
  envRESTMapping env w gk = inr rm ->
  let ctx' := WithTimeout ctx (now (call env (EvRESTMapping gk) w)) timeout in
  let ps0 := mkPollState (call env (EvRESTMapping gk) w) false false in
  (forall ps items,
     Round ctx' (poll env rm gk conditions) period ps0 ps ->
     Done ctx' (now (world ps)) = false ->
     envList env (world ps) rm = inr items ->
     countUnmet items conditions 0 <> inr 0) ->
  exists w',
    waitForConditions env ctx gk conditions w =
      Some (w', Some (Errorf "timeout waiting for conditions %q to be satisfied for all %q"
                        [printConditions conditions; Kind gk])) /\
    Done ctx' (now w') = true /\
    Forall (fun c => occursIn c (printConditions conditions)) conditions.
Proof.
  intros Hrm ctx' ps0 Hnever.
  destruct (poll_loop_total ctx rm gk conditions (call env (EvRESTMapping gk) w))
    as [r Hr].
  fold ctx' ps0 in Hr.
  assert (Hctx : exists t0 e, ctx' = DoneAt t0 e).
  { destruct (WithTimeout_DoneAt ctx (now (call env (EvRESTMapping gk) w)) timeout)
      as (t0 & e & Hctx & _). eauto. }
  destruct (never_satisfied_loop ctx' rm gk conditions ps0 Hctx eq_refl eq_refl Hnever
              pollBudget ps0 r (Round_first _ _ _ _) Hr) as [Hs Hd].
  exists (world r). split; [|split; [done|]].
  - rewrite (waitForConditions_from_round ctx gk conditions w rm ps0 _ r Hrm
               (Round_first _ _ _ _) Hr).
    by rewrite Hs.
  - apply Forall_forall. intros c Hc. by apply printConditions_names.
Qed.

End WaitProperties.

(** ** Traces of the phases of [Import] *)

Section TraceProperties.

Context {Fs : Type} `{Afero Fs}.
Variable env : Env Fs.

Lemma steps_app d1 d2 : steps (d1 ++ d2) = (steps d1 ++ steps d2)%list.
Proof. apply filter_app. Qed.

Lemma steps_nil : steps [] = [].
Proof. done. Qed.

Lemma steps_spinner op msg d : steps (EvSpinner op msg :: d) = steps d.
Proof. done. Qed.

Lemma trace_call e w : trace (call env e w) = (trace w ++ [e])%list.
Proof. done. Qed.

Lemma trace_emit e w : trace (emit e w) = (trace w ++ [e])%list.
Proof. done. Qed.

(** *** Extraction *)

Lemma unarchive_loop_trace path ctx tarEnd :
  forall entries fs0 w fs1 w1 r,
    unarchive_loop path ctx entries tarEnd fs0 w = (fs1, w1, r) ->
    trace w1 = trace w.
Proof.
  induction entries as [|hdr entries IH]; intros fs0 w fs1 w1 r; simpl.
  - destruct (Err ctx (now w)); [by intros [= _ <- _]|].
    destruct tarEnd; by intros [= _ <- _].
  - destruct (Err ctx (now w)); [by intros [= _ <- _]|].
    destruct (hdrIsDir hdr).
    + destruct (Mkdir fs0 (hdrName hdr)); [by intros [= _ <- _]|].
      intros Hr. by apply IH in Hr.
    + destruct (OpenFile fs0 (hdrName hdr)) as [|fs']; [by intros [= _ <- _]|].
      destruct (Write fs' (hdrName hdr) (body hdr)); [by intros [= _ <- _]|].
      destruct (bodyErr hdr); [by intros [= _ <- _]|].
      intros Hr. by apply IH in Hr.
Qed.

Lemma unarchive_trace opts ctx fs0 w fs1 w1 r :
  unarchive env opts ctx fs0 w = (fs1, w1, r) ->
  trace w1 = (trace w ++ [EvOpen (InputArchive opts)])%list.
Proof.
  unfold unarchive.
  destruct (envOpen env w (InputArchive opts)) as [|g]; [by intros [= _ <- _]|].
  destruct (gzipErr g); [by intros [= _ <- _]|].
  intros Hr. by apply unarchive_loop_trace in Hr.
Qed.

Lemma importExtract_trace im ctx w fs2 w1 r :
  importExtract env im ctx w = (fs2, w1, r) ->
  exists d,
    trace w1 = (trace w ++ d)%list /\
    steps d = match fs im with
              | Some _ => []
              | None => [EvOpen (InputArchive (options im))]
              end /\
    (forall f, fs im = Some f -> fs2 = f /\ r = None).
Proof.
  unfold importExtract. destruct (fs im) as [f|].
  - intros [= <- <- <-]. eexists. split; [|split].
    + rewrite !trace_emit, <- app_assoc. reflexivity.
    + done.
    + by intros f' [= ->].
  - destruct (unarchive env (options im) ctx NewMemMapFs
                (emit (EvSpinner SpStart unarchiveMsg) w)) as [[fs' w'] uerr] eqn:Hu.
    apply unarchive_trace in Hu. rewrite trace_emit in Hu.
    destruct uerr; intros [= <- <- <-]; eexists; (split; [|split]);
      try (rewrite trace_emit, Hu, <- !app_assoc; reflexivity); done.
Qed.

(** *** Base resources *)

Lemma importBase_loop_trace fs0 :
  forall grs i counts w w1 res,
    importBase_loop env fs0 grs i counts w = (w1, res) ->
    exists d B,
      trace w1 = (trace w ++ d)%list /\
      steps d = importOf false <$> B /\
      B `prefix_of` grs /\
      (forall c, res = inr c -> B = grs).
Proof.
  induction grs as [|gr grs IH]; intros i counts w w1 res; simpl.
  - intros [= <- <-]. exists [], []. rewrite app_nil_r. done.
  - destruct (envImportResources env fs0 w gr false) as [err|count].
    + intros [= <- <-]. exists [EvImportResources gr false; EvSpinner SpFail (importBaseMsg +:+ stepFailed)], [gr].
      split; [by rewrite trace_emit, trace_call, <- app_assoc|].
      split; [done|]. split; [by apply prefix_cons, prefix_nil|done].
    + intros Hr. apply IH in Hr as (d & B & Ht & Hs & Hp & Hc).
      exists (EvImportResources gr false
                :: EvSpinner SpUpdateText
                     (importingText i (Z.of_nat (length baseResources)) gr) :: d), (gr :: B).
      split; [by rewrite Ht, trace_emit, trace_call, <- !app_assoc|].
      split; [by rewrite fmap_cons, <- Hs|].
      split; [by apply prefix_cons|].
      intros c Hres. by rewrite (Hc c Hres).
Qed.

Lemma importBase_trace fs0 w w1 r :
  importBase env fs0 w = (w1, r) ->
  exists d B,
    trace w1 = (trace w ++ d)%list /\
    steps d = importOf false <$> B /\
    B `prefix_of` baseResources /\
    (r = None -> B = baseResources).
Proof.
  unfold importBase.
  destruct (importBase_loop env fs0 baseResources 0 ∅ _) as [w2 [err|counts]] eqn:Hl;
    apply importBase_loop_trace in Hl as (d & B & Ht & Hs & Hp & Hc);
    rewrite trace_emit in Ht; intros [= <- <-].
  - exists (EvSpinner SpStart
              (importBaseMsg +:+ "0 / " +:+ pretty (Z.of_nat (length baseResources))) :: d), B.
    split; [by rewrite Ht, <- app_assoc|]. by repeat split.
  - exists (EvSpinner SpStart
              (importBaseMsg +:+ "0 / " +:+ pretty (Z.of_nat (length baseResources)))
              :: d ++ [EvSpinner SpSuccess (importBaseMsg +:+ importedText (sumCounts counts))])%list, B.
    split; [by rewrite trace_emit, Ht, <- !app_assoc|]. split.
    + rewrite steps_spinner, steps_app, Hs. simpl. by rewrite app_nil_r.
    + split; [done|]. intros _. by apply (Hc counts).
Qed.

(** *** Condition waits *)

Lemma waitCalls_nil : waitCalls [].
Proof. constructor. Qed.

Lemma waitCalls_app d1 d2 : waitCalls d1 -> waitCalls d2 -> waitCalls (d1 ++ d2).
Proof. unfold waitCalls. rewrite steps_app. apply Forall_app_2. Qed.

Lemma waitCalls_spinner op msg : waitCalls [EvSpinner op msg].
Proof. unfold waitCalls. simpl. constructor. Qed.

Lemma waitCalls_call e d : isWaitCall e = true -> waitCalls d -> waitCalls (e :: d).
Proof.
  intros He Hd. unfold waitCalls, steps. rewrite filter_cons.
  destruct e; try done; by constructor.
Qed.

Lemma waitCalls_output e d : significant e = false -> waitCalls d -> waitCalls (e :: d).
Proof.
  intros He Hd. unfold waitCalls, steps. rewrite filter_cons.
  by destruct e.
Qed.

Lemma poll_trace rm gk conditions ps :
  exists d,
    trace (world (poll env rm gk conditions ps)) = (trace (world ps) ++ d)%list /\
    waitCalls d.
Proof.
  unfold poll.
  destruct (envList env (world ps) rm) as [err|items]; simpl.
  { eexists [_; _]. rewrite <- app_assoc. split; [reflexivity|].
    apply waitCalls_call; [done|]. apply waitCalls_output; [done|apply waitCalls_nil]. }
  destruct (countUnmet items conditions 0) as [[name err]|unmet]; simpl.
  { eexists [_; _]. rewrite <- app_assoc. split; [reflexivity|].
    apply waitCalls_call; [done|]. apply waitCalls_output; [done|apply waitCalls_nil]. }
  destruct (bool_decide (unmet > 0)); simpl.
  - eexists [_; _]. rewrite <- app_assoc. split; [reflexivity|].
    apply waitCalls_call; [done|]. apply waitCalls_output; [done|apply waitCalls_nil].
  - eexists [_]. split; [reflexivity|].
    apply waitCalls_call; [done|apply waitCalls_nil].
Qed.

Lemma UntilWithContext_trace ctx rm gk conditions p :
  forall fuel ps r,
    UntilWithContext fuel ctx (poll env rm gk conditions) p ps = Some r ->
    exists d, trace (world r) = (trace (world ps) ++ d)%list /\ waitCalls d.
Proof.
  induction fuel as [|fuel IH]; intros ps r; [done|].
  cbn [UntilWithContext].
  destruct (poll_trace rm gk conditions ps) as (d1 & Hd1 & Hw1).
  destruct (cancelled ps || Done ctx (now (world ps))).
  { intros [= <-]. exists []. split; [by rewrite app_nil_r|apply waitCalls_nil]. }
  destruct (cancelled (poll env rm gk conditions ps)); [intros [= <-]; eauto|].
  destruct (Done ctx (now (world (poll env rm gk conditions ps)) + p)).
  { intros [= <-]. simpl. eauto. }
  intros Hr. apply IH in Hr as (d2 & Hd2 & Hw2). simpl in Hd2.
  exists (d1 ++ d2)%list. split; [by rewrite Hd2, Hd1, app_assoc|].
  by apply waitCalls_app.
Qed.

Lemma waitForConditions_trace ctx gk conditions w w1 r :
  waitForConditions env ctx gk conditions w = Some (w1, r) ->
  exists d, trace w1 = (trace w ++ d)%list /\ waitCalls d.
Proof.
  unfold waitForConditions.
  assert (Hcall : waitCalls [EvRESTMapping gk])
    by (apply waitCalls_call; [done|apply waitCalls_nil]).
  destruct (envRESTMapping env w gk) as [err|rm].
  { intros [= <- <-]. by exists [EvRESTMapping gk]. }
  destruct (UntilWithContext _ _ _ _ _) as [ps|] eqn:Hu; [|done].
  apply UntilWithContext_trace in Hu as (d & Hd & Hw). simpl in Hd.
  destruct (success ps); intros [= <- <-];
    (exists ([EvRESTMapping gk] ++ d)%list; split;
     [by rewrite Hd, app_assoc|by apply waitCalls_app]).
Qed.

Lemma waitKinds_trace ctx conditions :
  forall ks w w1 r,
    waitKinds env ctx ks conditions w = Some (w1, r) ->
    exists d, trace w1 = (trace w ++ d)%list /\ waitCalls d.
Proof.
  induction ks as [|k ks IH]; intros w w1 r; simpl.
  { intros [= <- <-]. exists []. split; [by rewrite app_nil_r|apply waitCalls_nil]. }
  destruct (waitForConditions env ctx k conditions w) as [[w2 [err|]]|] eqn:Hw; [| |done];
    apply waitForConditions_trace in Hw as (d1 & Hd1 & Hw1).
  - intros [= <- <-]. eexists (d1 ++ [_])%list.
    split; [by rewrite trace_emit, Hd1, app_assoc|].
    apply waitCalls_app; [done|apply waitCalls_spinner].
  - intros Hr. apply IH in Hr as (d2 & Hd2 & Hw2).
    exists (d1 ++ d2)%list. split; [by rewrite Hd2, Hd1, app_assoc|].
    by apply waitCalls_app.
Qed.

Lemma importWait_trace ctx w w1 r :
  importWait env ctx w = Some (w1, r) ->
  exists d, trace w1 = (trace w ++ d)%list /\ waitCalls d.
Proof.
  unfold importWait.
  destruct (waitForConditions env ctx xrdKind ["Established"] _)
    as [[w2 [err|]]|] eqn:Hx; [| |done];
    apply waitForConditions_trace in Hx as (d1 & Hd1 & Hw1);
    rewrite trace_emit in Hd1.
  { intros [= <- <-].
    exists (EvSpinner SpStart waitXRDsMsg
              :: d1 ++ [EvSpinner SpFail (waitXRDsMsg +:+ stepFailed)])%list.
    split; [by rewrite trace_emit, Hd1, <- !app_assoc|].
    apply (waitCalls_app [_]); [apply waitCalls_spinner|].
    apply waitCalls_app; [done|apply waitCalls_spinner]. }
  destruct (waitKinds env ctx packageKinds ["Installed"; "Healthy"] _)
    as [[w4 r4]|] eqn:Hp; [|done].
  apply waitKinds_trace in Hp as (d2 & Hd2 & Hw2). rewrite !trace_emit, Hd1 in Hd2.
  set (pre := (EvSpinner SpStart waitXRDsMsg
                 :: d1 ++ [EvSpinner SpSuccess (waitXRDsMsg +:+ "Established! ⏳");
                           EvSpinner SpStart waitPkgsMsg] ++ d2)%list).
  assert (Hpre : waitCalls pre).
  { apply (waitCalls_app [_]); [apply waitCalls_spinner|].
    apply waitCalls_app; [done|]. apply waitCalls_app; [|done].
    apply (waitCalls_app [_] [_]); apply waitCalls_spinner. }
  assert (Ht4 : trace w4 = (trace w ++ pre)%list).
  { rewrite Hd2. unfold pre. by rewrite <- !app_assoc. }
  clearbody pre. clear Hd2.
  destruct r4 as [err|]; [intros [= <- <-]; by exists pre|].
  destruct (waitKinds env ctx revisionKinds ["Healthy"] w4) as [[w5 r5]|] eqn:Hr; [|done].
  apply waitKinds_trace in Hr as (d3 & Hd3 & Hw3). rewrite Ht4 in Hd3.
  destruct r5 as [err|]; intros [= <- <-].
  - exists (pre ++ d3)%list. split; [by rewrite Hd3, app_assoc|].
    by apply waitCalls_app.
  - exists (pre ++ d3 ++ [EvSpinner SpSuccess (waitPkgsMsg +:+ "Installed and Healthy! ⏳")])%list.
    split; [by rewrite trace_emit, Hd3, <- !app_assoc|].
    apply waitCalls_app; [done|]. apply waitCalls_app; [done|apply waitCalls_spinner].
Qed.

(** *** Remaining resources *)

Lemma remainingGroups_cons info grs :
  remainingGroups (info :: grs) =
    if decide (Name info = "export.yaml") then remainingGroups grs
    else if isBaseResource (Name info) then remainingGroups grs
    else Name info :: remainingGroups grs.
Proof.
  unfold remainingGroups. rewrite fmap_cons, filter_cons.
  destruct (decide (Name info = "export.yaml")) as [He|He].
  - rewrite decide_False; [done|]. intros [? _]. done.
  - destruct (isBaseResource (Name info)) eqn:Hb.
    + rewrite decide_False; [done|]. intros [_ ?]. done.
    + by rewrite decide_True.
Qed.

Lemma importRemaining_loop_trace fs0 n :
  forall grs i counts w w1 res,
    importRemaining_loop env fs0 grs i n counts w = (w1, res) ->
    exists d G,
      trace w1 = (trace w ++ d)%list /\
      steps d = importOf true <$> G /\
      G `prefix_of` remainingGroups grs /\
      (forall c, res = inr c ->
         G = remainingGroups grs /\
         Forall (fun info => Name info = "export.yaml" \/ IsDir info = true) grs).
Proof.
  induction grs as [|info grs IH]; intros i counts w w1 res; simpl.
  { intros [= <- <-]. exists [], []. rewrite app_nil_r. by repeat split. }
  rewrite remainingGroups_cons.
  destruct (decide (Name info = "export.yaml")) as [He|He].
  { intros Hr. apply IH in Hr as (d & G & Ht & Hs & Hp & Hc).
    exists d, G. split; [done|]. split; [done|]. split; [done|].
    intros c Hres. destruct (Hc c Hres) as [HG Hall]. split; [done|].
    constructor; [by left|done]. }
  destruct (IsDir info) eqn:Hdir; simpl.
  2:{ intros [= <- <-]. exists [], []. rewrite app_nil_r.
      repeat split; try done. apply prefix_nil. }
  destruct (isBaseResource (Name info)) eqn:Hb.
  { intros Hr. apply IH in Hr as (d & G & Ht & Hs & Hp & Hc).
    exists d, G. split; [done|]. split; [done|]. split; [done|].
    intros c Hres. destruct (Hc c Hres) as [HG Hall]. split; [done|].
    constructor; [by right|done]. }
  destruct (envImportResources env fs0 w (Name info) true) as [err|count].
  { intros [= <- <-]. exists [EvImportResources (Name info) true], [Name info].
    repeat split; try done. by apply prefix_cons, prefix_nil. }
  intros Hr. apply IH in Hr as (d & G & Ht & Hs & Hp & Hc).
  exists (EvImportResources (Name info) true
            :: EvSpinner SpUpdateText (importingText i n (Name info)) :: d), (Name info :: G).
  split; [by rewrite Ht, trace_emit, trace_call, <- !app_assoc|].
  split; [by rewrite fmap_cons, <- Hs|].
  split; [by apply prefix_cons|].
  intros c Hres. apply Hc in Hres as [-> Hall]. split; [done|].
  constructor; [by right|done].
Qed.

Lemma importRemaining_trace fs0 w w1 r :
  importRemaining env fs0 w = (w1, r) ->
  exists d G,
    trace w1 = (trace w ++ EvReset :: d)%list /\
    steps d = importOf true <$> G /\
    (forall grs, ReadDir fs0 "/" = inr grs -> G `prefix_of` remainingGroups grs) /\
    (r = None ->
     exists grs, ReadDir fs0 "/" = inr grs /\ G = remainingGroups grs /\
                 Forall (fun info => Name info = "export.yaml" \/ IsDir info = true) grs).
Proof.
  unfold importRemaining.
  destruct (ReadDir fs0 "/") as [err|grs].
  { intros [= <- <-].
    exists [EvSpinner SpStart importRemainingMsg;
            EvSpinner SpFail (importRemainingMsg +:+ stepFailed)], [].
    split; [by rewrite !trace_emit, trace_call, <- !app_assoc|]. by repeat split. }
  destruct (importRemaining_loop env fs0 grs 0 _ ∅ _) as [w2 [err|counts]] eqn:Hl;
    apply importRemaining_loop_trace in Hl as (d & G & Ht & Hs & Hp & Hc);
    rewrite trace_emit, trace_call in Ht; intros [= <- <-].
  - exists (EvSpinner SpStart importRemainingMsg :: d), G.
    split; [by rewrite Ht, <- !app_assoc|].
    split; [by rewrite <- Hs|]. split; [by intros grs' [= <-]|done].
  - exists (EvSpinner SpStart importRemainingMsg
              :: d ++ [EvSpinner SpSuccess
                         (importRemainingMsg +:+ importedText (sumCounts counts))])%list, G.
    split; [by rewrite trace_emit, Ht, <- !app_assoc|].
    split; [rewrite steps_spinner, steps_app, Hs; simpl; by rewrite app_nil_r|].
    split; [by intros grs' [= <-]|].
    intros _. exists grs. destruct (Hc counts eq_refl) as [? ?]. by repeat split.
Qed.

(** *** Finalization *)

Lemma importFinalize_trace opts w w1 r :
  importFinalize env opts w = (w1, r) ->
  exists d M,
    trace w1 = (trace w ++ d)%list /\
    steps d = modifyOf <$> M /\
    ((M = ["composite"] /\ exists e, r = Some (Wrap e "cannot unpause composites")) \/
     (M = ["composite"; "claim"] /\ exists e, r = Some (Wrap e "cannot unpause claims")) \/
     (M = ["composite"; "claim"] /\ r = None /\ UnpauseAfterImport opts = false) \/
     (M = ["composite"; "claim"; "managed"] /\ UnpauseAfterImport opts = true /\
      (r = None \/ exists e, r = Some (Wrap e "cannot unpause managed resources")))).
Proof.
  unfold importFinalize, ModifyResources.
  destruct (envModifyResources env _ "composite" unpause) as [e1|n1].
  { intros [= <- <-]. exists [EvSpinner SpStart finalizeMsg; modifyOf "composite"], ["composite"].
    split; [by rewrite trace_call, trace_emit, <- !app_assoc|]. split; [done|].
    left. eauto. }
  destruct (envModifyResources env _ "claim" unpause) as [e2|n2].
  { intros [= <- <-].
    exists [EvSpinner SpStart finalizeMsg; modifyOf "composite"; modifyOf "claim"],
      ["composite"; "claim"].
    split; [by rewrite !trace_call, trace_emit, <- !app_assoc|]. split; [done|].
    right; left. eauto. }
  destruct (UnpauseAfterImport opts) eqn:Hopt.
  2:{ intros [= <- <-].
      exists [EvSpinner SpStart finalizeMsg; modifyOf "composite"; modifyOf "claim";
              EvSpinner SpSuccess (finalizeMsg +:+ "Done! 🎉")], ["composite"; "claim"].
      split; [by rewrite trace_emit, !trace_call, trace_emit, <- !app_assoc|].
      split; [done|]. right; right; left. eauto. }
  destruct (envModifyResources env _ "managed" unpause) as [e3|n3]; intros [= <- <-].
  - exists [EvSpinner SpStart finalizeMsg; modifyOf "composite"; modifyOf "claim";
            EvSpinner SpSuccess (finalizeMsg +:+ "Done! 🎉");
            EvSpinner SpStart unpauseMsg; modifyOf "managed"],
      ["composite"; "claim"; "managed"].
    split; [by rewrite trace_call, !trace_emit, !trace_call, trace_emit, <- !app_assoc|].
    split; [done|]. right; right; right. eauto.
  - exists [EvSpinner SpStart finalizeMsg; modifyOf "composite"; modifyOf "claim";
            EvSpinner SpSuccess (finalizeMsg +:+ "Done! 🎉");
            EvSpinner SpStart unpauseMsg; modifyOf "managed";
            EvSpinner SpSuccess (unpauseMsg +:+ "Done! ▶️")],
      ["composite"; "claim"; "managed"].
    split; [by rewrite trace_emit, trace_call, !trace_emit, !trace_call, trace_emit,
              <- !app_assoc|].
    split; [done|]. right; right; right. eauto.
Qed.

(** *** The whole run *)

Lemma Import_shape im ctx w im' w' r :
  Import env im ctx w = Some (im', w', r) ->
  exists fs2 dE dB dW dR dF B G M,
    im' = mkImporter (Some fs2) (options im) /\
    (forall f, fs im = Some f -> fs2 = f) /\
    trace w' = (trace w ++ dE ++ dB ++ dW ++ dR ++ dF)%list /\
    steps dE = match fs im with
               | Some _ => []
               | None => [EvOpen (InputArchive (options im))]
               end /\
    steps dB = importOf false <$> B /\
    B `prefix_of` baseResources /\
    waitCalls dW /\
    ((dR = [] /\ dF = [] /\ r <> None /\ (dW = [] \/ B = baseResources)) \/
     (B = baseResources /\
      (exists w1 w2,
          importWait env ctx w1 = Some (w2, None) /\
          trace w1 = (trace w ++ dE ++ dB)%list /\
          trace w2 = (trace w ++ dE ++ dB ++ dW)%list) /\
      (exists dR', dR = EvReset :: dR' /\ steps dR' = importOf true <$> G) /\
      (forall grs, ReadDir fs2 "/" = inr grs -> G `prefix_of` remainingGroups grs) /\
      ((dF = [] /\ r <> None) \/
       ((exists grs, ReadDir fs2 "/" = inr grs /\ G = remainingGroups grs /\
                     Forall (fun info => Name info = "export.yaml" \/ IsDir info = true) grs) /\
        steps dF = modifyOf <$> M /\
        finalizeOutcome (options im) M r)))).
Proof.
  unfold Import.
  destruct (importExtract env im ctx w) as [[fs2 w1] uerr] eqn:HE.
  apply importExtract_trace in HE as (dE & HtE & HsE & HfE).
  destruct uerr as [err|].
  { intros [= <- <- <-]. exists fs2, dE, [], [], [], [], [], [], [].
    rewrite !app_nil_r. split; [done|]. split; [intros f Hf; by apply HfE|].
    repeat (split; [done || apply prefix_nil || apply waitCalls_nil|]).
    left. repeat split; try done. by left. }
  unfold importSteps. simpl options.
  destruct (importBase env fs2 w1) as [w2 rB] eqn:HB.
  apply importBase_trace in HB as (dB & B & HtB & HsB & HpB & HcB).
  destruct rB as [err|].
  { intros [= <- <- <-]. exists fs2, dE, dB, [], [], [], B, [], [].
    rewrite !app_nil_r. split; [done|]. split; [intros f Hf; by apply HfE|].
    split; [by rewrite HtB, HtE, <- !app_assoc|].
    repeat (split; [done || apply waitCalls_nil|]).
    left. repeat split; try done. by left. }
  specialize (HcB eq_refl). subst B.
  destruct (importWait env ctx w2) as [[w3 rW]|] eqn:HW; [|done].
  pose proof HW as HW'.
  apply importWait_trace in HW' as (dW & HtW & HwW).
  assert (Ht2 : trace w2 = (trace w ++ dE ++ dB)%list)
    by (by rewrite HtB, HtE, <- !app_assoc).
  assert (Ht3 : trace w3 = (trace w ++ dE ++ dB ++ dW)%list)
    by (by rewrite HtW, Ht2, <- !app_assoc).
  destruct rW as [err|].
  { intros [= <- <- <-]. exists fs2, dE, dB, dW, [], [], baseResources, [], [].
    rewrite !app_nil_r. split; [done|]. split; [intros f Hf; by apply HfE|].
    repeat (split; [done|]).
    left. repeat split; try done. by right. }
  destruct (importRemaining env fs2 w3) as [w4 rR] eqn:HR.
  apply importRemaining_trace in HR as (dR' & G & HtR & HsR & HpR & HcR).
  assert (Ht4 : trace w4 = (trace w ++ dE ++ dB ++ dW ++ EvReset :: dR')%list)
    by (by rewrite HtR, Ht3, <- !app_assoc).
  destruct rR as [err|].
  { intros [= <- <- <-].
    exists fs2, dE, dB, dW, (EvReset :: dR'), [], baseResources, G, [].
    rewrite !app_nil_r. split; [done|]. split; [intros f Hf; by apply HfE|].
    repeat (split; [done|]).
    right. split; [done|]. split; [by exists w2, w3|].
    split; [by exists dR'|]. split; [done|]. by left. }
  destruct (importFinalize env (options im) w4) as [w5 rF] eqn:HF.
  apply importFinalize_trace in HF as (dF & M & HtF & HsF & HoF).
  intros [= <- <- <-].
  exists fs2, dE, dB, dW, (EvReset :: dR'), dF, baseResources, G, M.
  split; [done|]. split; [intros f Hf; by apply HfE|].
  split; [by rewrite HtF, Ht4, <- !app_assoc|].
  repeat (split; [done|]).
  right. split; [done|]. split; [by exists w2, w3|].
  split; [by exists dR'|]. split; [done|]. right. by split; [apply HcR|].
Qed.

(** [Import] returns. *)
Lemma Import_total im ctx w : is_Some (Import env im ctx w).
Proof.
  unfold Import.
  destruct (importExtract env im ctx w) as [[fs2 w1] [err|]]; [eauto|].
  unfold importSteps. simpl options.
  destruct (importBase env fs2 w1) as [w2 [err|]]; [eauto|].
  assert (HK : forall ks conditions w0, is_Some (waitKinds env ctx ks conditions w0)).
  { induction ks as [|k ks IH]; intros conditions w0; simpl; [eauto|].
    destruct (waitForConditions_total env ctx k conditions w0) as [[w' [e|]] ->];
      [eauto|apply IH]. }
  assert (HW : is_Some (importWait env ctx w2)).
  { unfold importWait.
    destruct (waitForConditions_total env ctx xrdKind ["Established"]
                (emit (EvSpinner SpStart waitXRDsMsg) w2)) as [[w' [e|]] ->]; [eauto|].
    destruct (HK packageKinds ["Installed"; "Healthy"]
                (emit (EvSpinner SpStart waitPkgsMsg)
                   (emit (EvSpinner SpSuccess (waitXRDsMsg +:+ "Established! ⏳")) w')))
      as [[w4 [e|]] ->]; [eauto|].
    destruct (HK revisionKinds ["Healthy"] w4) as [[w5 [e|]] ->]; eauto. }
  destruct HW as [[w3 [err|]] ->]; [eauto|].
  destruct (importRemaining env fs2 w3) as [w4 [err|]]; [eauto|].
  destruct (importFinalize env (options im) w4); eauto.
Qed.

(** *** Waits that all return [nil] *)

Lemma afterOutput_refl w : afterOutput w w.
Proof. split; [done|]. exists []. by rewrite app_nil_r. Qed.

Lemma afterOutput_trans w1 w2 w3 :
  afterOutput w1 w2 -> afterOutput w2 w3 -> afterOutput w1 w3.
Proof.
  intros [Hn1 (o1 & Ht1 & Hs1)] [Hn2 (o2 & Ht2 & Hs2)]. split; [congruence|].
  exists (o1 ++ o2)%list. split; [by rewrite Ht2, Ht1, app_assoc|].
  by rewrite steps_app, Hs1, Hs2.
Qed.

Lemma afterOutput_spinner op msg w : afterOutput w (emit (EvSpinner op msg) w).
Proof. split; [done|]. by exists [EvSpinner op msg]. Qed.

Lemma allWaited_output_l ctx ks w w1 w' :
  afterOutput w w1 -> allWaited env ctx ks w1 w' -> allWaited env ctx ks w w'.
Proof.
  destruct ks as [|[k c] ks]; simpl; [apply afterOutput_trans|].
  intros Ho (wa & wb & Ha & Hw & Hrest). exists wa, wb.
  split; [by apply (afterOutput_trans _ w1)|done].
Qed.

Lemma allWaited_output_r ctx :
  forall ks w w1 w',
    allWaited env ctx ks w w1 -> afterOutput w1 w' -> allWaited env ctx ks w w'.
Proof.
  induction ks as [|[k c] ks IH]; intros w w1 w'; simpl.
  - apply afterOutput_trans.
  - intros (wa & wb & Ha & Hw & Hrest) Ho. exists wa, wb.
    split; [done|]. split; [done|]. by apply (IH _ w1).
Qed.

Lemma allWaited_app ctx :
  forall ks1 ks2 w w1 w',
    allWaited env ctx ks1 w w1 -> allWaited env ctx ks2 w1 w' ->
    allWaited env ctx (ks1 ++ ks2) w w'.
Proof.
  induction ks1 as [|[k c] ks1 IH]; intros ks2 w w1 w'; simpl.
  - apply allWaited_output_l.
  - intros (wa & wb & Ha & Hw & Hrest) H2. exists wa, wb.
    split; [done|]. split; [done|]. by apply (IH _ _ w1).
Qed.

Lemma waitKinds_allWaited ctx conditions :
  forall ks w w',
    waitKinds env ctx ks conditions w = Some (w', None) ->
    allWaited env ctx ((fun k => (k, conditions)) <$> ks) w w'.
Proof.
  induction ks as [|k ks IH]; intros w w'; simpl.
  - intros [= <-]. apply afterOutput_refl.
  - destruct (waitForConditions env ctx k conditions w) as [[w1 [err|]]|] eqn:Hw;
      [done| |done].
    intros Hr. exists w, w1. split; [apply afterOutput_refl|]. split; [done|].
    by apply IH.
Qed.

(** A failing wait in a loop over kinds: the waits before it returned
    [nil], and it is the last one made. *)
Lemma waitKinds_failure ctx conditions :
  forall ks w w' e,
    waitKinds env ctx ks conditions w = Some (w', Some e) ->
    exists before k rest wk wk' cause,
      ks = (before ++ k :: rest)%list /\
      allWaited env ctx ((fun k => (k, conditions)) <$> before) w wk /\
      waitForConditions env ctx k conditions wk = Some (wk', Some cause) /\
      w' = emit (EvSpinner SpFail (waitPkgsMsg +:+ stepFailed)) wk' /\
      e = Wrapf cause "there are unhealthy %qs" [Kind k].
Proof.
  induction ks as [|k ks IH]; intros w w' e; simpl; [done|].
  destruct (waitForConditions env ctx k conditions w) as [[w1 [err|]]|] eqn:Hw; [| |done].
  - intros [= <- <-]. exists [], k, ks, w, w1, err.
    split; [done|]. split; [apply afterOutput_refl|]. by repeat split.
  - intros Hr. apply IH in Hr as (before & k' & rest & wk & wk' & cause & -> & Ha & Hf & Hw' & He).
    exists (k :: before), k', rest, wk, wk', cause.
    split; [done|]. split; [|by repeat split].
    simpl. exists w, w1. split; [apply afterOutput_refl|]. by split.
Qed.

Lemma importWait_allWaited ctx w w' :
  importWait env ctx w = Some (w', None) ->
  allWaited env ctx conditionWaits w w'.
Proof.
  unfold importWait.
  destruct (waitForConditions env ctx xrdKind ["Established"] _)
    as [[w1 [err|]]|] eqn:Hx; [done| |done].
  destruct (waitKinds env ctx packageKinds ["Installed"; "Healthy"] _)
    as [[w4 [err|]]|] eqn:Hp; [done| |done].
  destruct (waitKinds env ctx revisionKinds ["Healthy"] w4)
    as [[w5 [err|]]|] eqn:Hr; [done| |done].
  intros [= <-].
  apply waitKinds_allWaited in Hp, Hr.
  change conditionWaits with
    ((xrdKind, ["Established"])
       :: (((fun k => (k, ["Installed"; "Healthy"])) <$> packageKinds) ++
           ((fun k => (k, ["Healthy"])) <$> revisionKinds)))%list.
  cbn [allWaited]. eexists _, w1. split; [apply afterOutput_spinner|]. split; [exact Hx|].
  apply (allWaited_output_r _ _ _ w5); [|apply afterOutput_spinner].
  apply (allWaited_app _ _ _ _ w4); [|done].
  eapply allWaited_output_l; [|exact Hp].
  eapply afterOutput_trans; apply afterOutput_spinner.
Qed.

End TraceProperties.

(** ** Reading traces *)

Section Projections.

Context {A : Type} (f : Event -> option A).

Lemma omap_steps d :
  (forall e, significant e = false -> f e = None) ->
  omap f (steps d) = omap f d.
Proof.
  intros Hf. induction d as [|e d IH]; [done|].
  unfold steps in *. rewrite filter_cons.
  destruct (decide (significant e = true)) as [He|He]; cbn [omap list_omap];
    rewrite IH; [done|].
  rewrite Hf; [done|]. by destruct (significant e).
Qed.

Lemma omap_fmap_None {B} (g : B -> Event) (l : list B) :
  (forall x, f (g x) = None) -> omap f (g <$> l) = [].
Proof.
  intros Hg. induction l as [|x l IH]; [done|].
  rewrite fmap_cons. cbn [omap list_omap]. by rewrite Hg.
Qed.

Lemma omap_fmap_Some {B} (g : B -> Event) (h : B -> A) (l : list B) :
  (forall x, f (g x) = Some (h x)) -> omap f (g <$> l) = h <$> l.
Proof.
  intros Hg. induction l as [|x l IH]; [done|].
  rewrite !fmap_cons. cbn [omap list_omap]. by rewrite Hg, IH.
Qed.

Lemma omap_waitCalls d :
  (forall e, significant e = false -> f e = None) ->
  (forall e, isWaitCall e = true -> f e = None) ->
  waitCalls d -> omap f d = [].
Proof.
  intros Hs Hw Hd. rewrite <- omap_steps by done. unfold waitCalls in Hd.
  induction Hd as [|e l He _ IH]; [done|]. cbn [omap list_omap]. by rewrite Hw.
Qed.

End Projections.

Section Counting.

Variable p : Event -> bool.
Hypothesis p_significant : forall e, p e = true -> significant e = true.

Lemma count_app d1 d2 : count p (d1 ++ d2) = (count p d1 + count p d2)%nat.
Proof. unfold count. by rewrite filter_app, length_app. Qed.

Lemma count_steps d : count p (steps d) = count p d.
Proof.
  induction d as [|e d IH]; [done|]. unfold count, steps in *.
  rewrite (filter_cons (fun e => significant e = true)).
  destruct (decide (significant e = true)) as [He|He].
  - rewrite !filter_cons. destruct (decide (p e = true)); simpl; by rewrite IH.
  - rewrite IH, filter_cons. rewrite decide_False; [done|].
    intros Hp. by apply He, p_significant.
Qed.

Lemma count_none l : Forall (fun e => p e = false) l -> count p l = 0%nat.
Proof.
  unfold count. induction 1 as [|e l He _ IH]; [done|].
  rewrite filter_cons, decide_False; [done|congruence].
Qed.

Lemma none_of_steps d :
  Forall (fun e => p e = false) (steps d) -> Forall (fun e => p e = false) d.
Proof.
  induction d as [|e d IH]; [done|]. unfold steps in *. rewrite filter_cons.
  destruct (decide (significant e = true)) as [He|He].
  - intros [? ?]%Forall_cons. constructor; auto.
  - intros ?. constructor; [|auto].
    destruct (p e) eqn:Hp; [|done]. by apply p_significant in Hp.
Qed.

(** The place of an event satisfying [p] in a trace with a single piece
    that may hold such events. *)
Lemma split_in_piece a x c d1 e d2 :
  Forall (fun e => p e = false) a ->
  Forall (fun e => p e = false) c ->
  (a ++ x ++ c)%list = (d1 ++ e :: d2)%list ->
  p e = true ->
  exists x1 x2, x = (x1 ++ e :: x2)%list /\ d1 = (a ++ x1)%list /\ d2 = (x2 ++ c)%list.
Proof.
  intros Ha Hc. revert d1. induction Ha as [|a0 a Ha0 _ IHa]; intros d1; simpl.
  - revert d1. induction x as [|x0 x IHx]; intros d1; simpl.
    + intros -> He. apply Forall_app in Hc as [_ Hc]. apply Forall_cons in Hc as [Hc _].
      congruence.
    + destruct d1 as [|y d1]; simpl.
      * intros [= -> <-] _. by exists [], x.
      * intros [= -> Heq] He. destruct (IHx d1 Heq He) as (x1 & x2 & -> & -> & ->).
        by exists (y :: x1), x2.
  - destruct d1 as [|y d1]; simpl.
    + intros [= -> _] He. congruence.
    + intros [= -> Heq] He. destruct (IHa d1 Heq He) as (x1 & x2 & -> & -> & ->).
      by exists x1, x2.
Qed.

End Counting.

(** ** The order of the phases of [Import] *)

Section ImportProperties.

Context {Fs : Type} `{Afero Fs}.
Variable env : Env Fs.

Lemma isWaitCall_significant e : isWaitCall e = true -> significant e = true.
Proof. by destruct e. Qed.

Lemma isReset_significant e : isReset e = true -> significant e = true.
Proof. by destruct e. Qed.

Lemma isOpen_significant e : isOpen e = true -> significant e = true.
Proof. by destruct e. Qed.

Lemma modified_steps d : modified (steps d) = modified d.
Proof. apply omap_steps. by intros []. Qed.

Lemma imported_steps d : imported (steps d) = imported d.
Proof. apply omap_steps. by intros []. Qed.

Lemma modified_app d1 d2 : modified (d1 ++ d2) = (modified d1 ++ modified d2)%list.
Proof. apply omap_app. Qed.

Lemma imported_app d1 d2 : imported (d1 ++ d2) = (imported d1 ++ imported d2)%list.
Proof. apply omap_app. Qed.

(** What a piece of trace that only holds calls of [ImportResources]
    shows. *)
Lemma piece_imports pause (L : list string) d :
  steps d = importOf pause <$> L ->
  modified d = [] /\
  imported d = (fun gr => (gr, pause)) <$> L /\
  Forall (fun e => isWaitCall e = false) d /\
  Forall (fun e => isReset e = false) d /\
  Forall (fun e => isOpen e = false) d.
Proof.
  intros Hs. rewrite <- modified_steps, <- imported_steps, Hs.
  split; [by apply omap_fmap_None|]. split; [by apply omap_fmap_Some|].
  split; [|split].
  - apply (none_of_steps _ isWaitCall_significant). rewrite Hs.
    apply Forall_fmap, Forall_true. done.
  - apply (none_of_steps _ isReset_significant). rewrite Hs.
    apply Forall_fmap, Forall_true. done.
  - apply (none_of_steps _ isOpen_significant). rewrite Hs.
    apply Forall_fmap, Forall_true. done.
Qed.

(** What a piece of trace that only holds calls of [waitForConditions]
    shows. *)
Lemma piece_wait d :
  waitCalls d ->
  modified d = [] /\
  imported d = [] /\
  Forall (fun e => isReset e = false) d /\
  Forall (fun e => isOpen e = false) d.
Proof.
  intros Hw. split; [|split; [|split]].
  - apply omap_waitCalls; [by intros []|by intros []|done].
  - apply omap_waitCalls; [by intros []|by intros []|done].
  - apply (none_of_steps _ isReset_significant).
    eapply Forall_impl; [exact Hw|]. by intros [].
  - apply (none_of_steps _ isOpen_significant).
    eapply Forall_impl; [exact Hw|]. by intros [].
Qed.

(** What a piece of trace that only holds calls of [ModifyResources]
    shows. *)
Lemma piece_modify (M : list string) d :
  steps d = modifyOf <$> M ->
  modified d = (fun c => (c, RemoveAnnotations ["crossplane.io/paused"])) <$> M /\
  imported d = [] /\
  Forall (fun e => isWaitCall e = false) d /\
  Forall (fun e => isReset e = false) d /\
  Forall (fun e => isOpen e = false) d.
Proof.
  intros Hs. rewrite <- modified_steps, <- imported_steps, Hs.
  split; [by apply omap_fmap_Some|]. split; [by apply omap_fmap_None|].
  split; [|split].
  - apply (none_of_steps _ isWaitCall_significant). rewrite Hs.
    apply Forall_fmap, Forall_true. done.
  - apply (none_of_steps _ isReset_significant). rewrite Hs.
    apply Forall_fmap, Forall_true. done.
  - apply (none_of_steps _ isOpen_significant). rewrite Hs.
    apply Forall_fmap, Forall_true. done.
Qed.

(** What the extraction piece shows. *)
Lemma piece_extract (im : ControlPlaneStateImporter Fs) d :
  steps d = match fs im with
            | Some _ => []
            | None => [EvOpen (InputArchive (options im))]
            end ->
  modified d = [] /\
  imported d = [] /\
  Forall (fun e => isWaitCall e = false) d /\
  Forall (fun e => isReset e = false) d /\
  extractions d = match fs im with Some _ => 0%nat | None => 1%nat end.
Proof.
  intros Hs. rewrite <- modified_steps, <- imported_steps.
  unfold extractions. rewrite <- (count_steps _ isOpen_significant).
  split; [|split; [|split; [|split]]].
  - rewrite Hs. by destruct (fs im).
  - rewrite Hs. by destruct (fs im).
  - apply (none_of_steps _ isWaitCall_significant). rewrite Hs.
    destruct (fs im); by repeat constructor.
  - apply (none_of_steps _ isReset_significant). rewrite Hs.
    destruct (fs im); by repeat constructor.
  - rewrite Hs. by destruct (fs im).
Qed.

(** A run of [Import] ends before anything is modified, or it gets to
    [importFinalize]. *)
Lemma Import_reaches_finalize im ctx w im' w' r :
  Import env im ctx w = Some (im', w', r) ->
  (exists d, trace w' = (trace w ++ d)%list /\ modified d = [] /\ r <> None) \/
  (exists w3 d0,
      trace w3 = (trace w ++ d0)%list /\ modified d0 = [] /\
      importFinalize env (options im) w3 = (w', r)).
Proof.
  unfold Import.
  destruct (importExtract env im ctx w) as [[fs2 w1] uerr] eqn:HE.
  apply importExtract_trace in HE as (dE & HtE & HsE & _).
  destruct (piece_extract im dE HsE) as (HmE & _).
  destruct uerr as [err|].
  { intros [= _ <- <-]. left. by exists dE. }
  unfold importSteps. simpl options.
  destruct (importBase env fs2 w1) as [w2 rB] eqn:HB.
  apply importBase_trace in HB as (dB & B & HtB & HsB & _).
  destruct (piece_imports false B dB HsB) as (HmB & _).
  destruct rB as [err|].
  { intros [= _ <- <-]. left. exists (dE ++ dB)%list.
    split; [by rewrite HtB, HtE, <- app_assoc|].
    split; [by rewrite modified_app, HmE, HmB|done]. }
  destruct (importWait env ctx w2) as [[w3 rW]|] eqn:HW; [|done].
  apply importWait_trace in HW as (dW & HtW & HwW).
  destruct (piece_wait dW HwW) as (HmW & _).
  destruct rW as [err|].
  { intros [= _ <- <-]. left. exists (dE ++ dB ++ dW)%list.
    split; [by rewrite HtW, HtB, HtE, <- !app_assoc|].
    split; [by rewrite !modified_app, HmE, HmB, HmW|done]. }
  destruct (importRemaining env fs2 w3) as [w4 rR] eqn:HR.
  apply importRemaining_trace in HR as (dR & G & HtR & HsR & _).
  destruct (piece_imports true G dR HsR) as (HmR & _).
  assert (Ht4 : trace w4 = (trace w ++ dE ++ dB ++ dW ++ [EvReset] ++ dR)%list)
    by (by rewrite HtR, HtW, HtB, HtE, <- !app_assoc).
  assert (Hm4 : modified (dE ++ dB ++ dW ++ [EvReset] ++ dR) = [])
    by (by rewrite !modified_app, HmE, HmB, HmW, HmR).
  destruct rR as [err|].
  { intros [= _ <- <-]. left. by eexists. }
  intros HF. right. exists w4. eexists. split; [exact Ht4|]. split; [exact Hm4|].
  destruct (importFinalize env (options im) w4) as [w5 rF]. by injection HF as _ <- <-.
Qed.

(** C1, amended.  A run of [Import] either fails before the finalize
    phase, and then modifies nothing, or it calls [ModifyResources] for
    "composite" in some world [wc], nothing having been modified before.
    From there on the answers of [ModifyResources] decide, each category
    being handed the mutation that removes the pause annotation.  If the
    call for "composite" fails, nothing else is modified and the run ends
    with "cannot unpause composites".  Only if it succeeds is "claim"
    modified, in the world the call for "composite" returned in; if that
    fails, the run ends with "cannot unpause claims".  If both succeed,
    "managed" is modified, after "claim", exactly when
    [UnpauseAfterImport] is true, and the run ends with [nil] or with
    "cannot unpause managed resources" as that call answers. *)
Theorem finalize_unpauses_in_order im ctx w :
  exists im' w' r d,
    Import env im ctx w = Some (im', w', r) /\
    trace w' = (trace w ++ d)%list /\
    ((modified d = [] /\ r <> None) \/
     exists wc d0 d1,
       d = (d0 ++ modifyOf "composite" :: d1)%list /\
       trace wc = (trace w ++ d0)%list /\
       modified d0 = [] /\
       let touched (M : list string) :=
         modified d = (fun c => (c, RemoveAnnotations ["crossplane.io/paused"])) <$> M in
       let wk := call env (modifyOf "composite") wc in
       let wl := call env (modifyOf "claim") wk in
       match envModifyResources env wc "composite"
               (RemoveAnnotations ["crossplane.io/paused"]) with
       | inl e =>
           touched ["composite"] /\ w' = wk /\
           r = Some (Wrap e "cannot unpause composites")
       | inr _ =>
           match envModifyResources env wk "claim"
                   (RemoveAnnotations ["crossplane.io/paused"]) with
           | inl e =>
               touched ["composite"; "claim"] /\ w' = wl /\
               r = Some (Wrap e "cannot unpause claims")
           | inr _ =>
               if UnpauseAfterImport (options im) then
                 exists wm,
                   afterOutput wl wm /\
                   touched ["composite"; "claim"; "managed"] /\
                   afterOutput (call env (modifyOf "managed") wm) w' /\
                   r = match envModifyResources env wm "managed"
                               (RemoveAnnotations ["crossplane.io/paused"]) with
                       | inl e => Some (Wrap e "cannot unpause managed resources")
                       | inr _ => None
                       end
               else
                 touched ["composite"; "claim"] /\ afterOutput wl w' /\ r = None
           end
       end).
Proof.
  destruct (Import_total env im ctx w) as [[[im' w'] r] HI].
  exists im', w', r. pose proof HI as HS.
  apply Import_reaches_finalize in HS as [(d & Ht & Hm & Hr)|(w3 & dpre & Ht3 & Hm3 & HF)].
  { exists d. split; [done|]. split; [done|]. left. by split. }
  revert HF. unfold importFinalize, ModifyResources, unpause.
  set (wc := emit (EvSpinner SpStart finalizeMsg) w3).
  assert (Htc : trace wc = (trace w ++ dpre ++ [EvSpinner SpStart finalizeMsg])%list)
    by (unfold wc; by rewrite trace_emit, Ht3, <- app_assoc).
  assert (Hmc : modified (dpre ++ [EvSpinner SpStart finalizeMsg]) = [])
    by (by rewrite modified_app, Hm3).
  change (EvModifyResources "composite" (RemoveAnnotations ["crossplane.io/paused"]))
    with (modifyOf "composite").
  change (EvModifyResources "claim" (RemoveAnnotations ["crossplane.io/paused"]))
    with (modifyOf "claim").
  change (EvModifyResources "managed" (RemoveAnnotations ["crossplane.io/paused"]))
    with (modifyOf "managed").
  destruct (envModifyResources env wc "composite" _) as [e1|n1] eqn:H1.
  { intros [= <- <-].
    exists ((dpre ++ [EvSpinner SpStart finalizeMsg]) ++ modifyOf "composite" :: [])%list.
    split; [done|]. split; [by rewrite trace_call, Htc, <- !app_assoc|].
    right. exists wc, (dpre ++ [EvSpinner SpStart finalizeMsg])%list, [].
    split; [done|]. split; [done|]. split; [done|]. cbv zeta. rewrite H1.
    split; [by rewrite modified_app, Hmc|done]. }
  destruct (envModifyResources env (call env (modifyOf "composite") wc) "claim" _)
    as [e2|n2] eqn:H2.
  { intros [= <- <-].
    exists ((dpre ++ [EvSpinner SpStart finalizeMsg])
              ++ modifyOf "composite" :: [modifyOf "claim"])%list.
    split; [done|]. split; [by rewrite !trace_call, Htc, <- !app_assoc|].
    right. exists wc, (dpre ++ [EvSpinner SpStart finalizeMsg])%list, [modifyOf "claim"].
    split; [done|]. split; [done|]. split; [done|]. cbv zeta. rewrite H1, H2.
    split; [by rewrite modified_app, Hmc|done]. }
  destruct (UnpauseAfterImport (options im)) eqn:Hopt.
  2:{ intros [= <- <-].
      exists ((dpre ++ [EvSpinner SpStart finalizeMsg])
                ++ modifyOf "composite"
                :: [modifyOf "claim"; EvSpinner SpSuccess (finalizeMsg +:+ "Done! 🎉")])%list.
      split; [done|].
      split; [by rewrite trace_emit, !trace_call, Htc, <- !app_assoc|].
      right. exists wc, (dpre ++ [EvSpinner SpStart finalizeMsg])%list,
        [modifyOf "claim"; EvSpinner SpSuccess (finalizeMsg +:+ "Done! 🎉")].
      split; [done|]. split; [done|]. split; [done|]. cbv zeta. rewrite H1, H2.
      split; [by rewrite modified_app, Hmc|]. split; [apply afterOutput_spinner|done]. }
  set (wm := emit (EvSpinner SpStart unpauseMsg)
               (emit (EvSpinner SpSuccess (finalizeMsg +:+ "Done! 🎉"))
                  (call env (modifyOf "claim") (call env (modifyOf "composite") wc)))).
  assert (Hwm : afterOutput (call env (modifyOf "claim") (call env (modifyOf "composite") wc))
                  wm).
  { unfold wm. eapply afterOutput_trans; apply afterOutput_spinner. }
  assert (Htm : trace wm =
                (trace w ++ (dpre ++ [EvSpinner SpStart finalizeMsg])
                   ++ modifyOf "composite"
                   :: [modifyOf "claim"; EvSpinner SpSuccess (finalizeMsg +:+ "Done! 🎉");
                       EvSpinner SpStart unpauseMsg])%list).
  { unfold wm. by rewrite !trace_emit, !trace_call, Htc, <- !app_assoc. }
  destruct (envModifyResources env wm "managed" _) as [e3|n3] eqn:H3; intros [= <- <-].
  - exists ((dpre ++ [EvSpinner SpStart finalizeMsg])
              ++ modifyOf "composite"
              :: [modifyOf "claim"; EvSpinner SpSuccess (finalizeMsg +:+ "Done! 🎉");
                  EvSpinner SpStart unpauseMsg; modifyOf "managed"])%list.
    split; [done|]. split; [by rewrite trace_call, Htm, <- !app_assoc|].
    right. exists wc, (dpre ++ [EvSpinner SpStart finalizeMsg])%list,
      [modifyOf "claim"; EvSpinner SpSuccess (finalizeMsg +:+ "Done! 🎉");
       EvSpinner SpStart unpauseMsg; modifyOf "managed"].
    split; [done|]. split; [done|]. split; [done|]. cbv zeta. rewrite H1, H2.
    exists wm. split; [done|]. split; [by rewrite modified_app, Hmc|].
    split; [apply afterOutput_refl|]. by rewrite H3.
  - exists ((dpre ++ [EvSpinner SpStart finalizeMsg])
              ++ modifyOf "composite"
              :: [modifyOf "claim"; EvSpinner SpSuccess (finalizeMsg +:+ "Done! 🎉");
                  EvSpinner SpStart unpauseMsg; modifyOf "managed";
                  EvSpinner SpSuccess (unpauseMsg +:+ "Done! ▶️")])%list.
    split; [done|]. split; [by rewrite trace_emit, trace_call, Htm, <- !app_assoc|].
    right. exists wc, (dpre ++ [EvSpinner SpStart finalizeMsg])%list,
      [modifyOf "claim"; EvSpinner SpSuccess (finalizeMsg +:+ "Done! 🎉");
       EvSpinner SpStart unpauseMsg; modifyOf "managed";
       EvSpinner SpSuccess (unpauseMsg +:+ "Done! ▶️")].
    split; [done|]. split; [done|]. split; [done|]. cbv zeta. rewrite H1, H2.
    exists wm. split; [done|]. split; [by rewrite modified_app, Hmc|].
    split; [apply afterOutput_spinner|]. by rewrite H3.
Qed.

Lemma waitCalls_prefix d1 d2 : waitCalls (d1 ++ d2) -> waitCalls d1.
Proof. unfold waitCalls. rewrite steps_app. by intros [? _]%Forall_app. Qed.

Lemma resets_app d1 d2 : resets (d1 ++ d2) = (resets d1 + resets d2)%nat.
Proof. apply count_app. Qed.

Lemma resets_none d : Forall (fun e => isReset e = false) d -> resets d = 0%nat.
Proof. apply count_none. Qed.

(** C2, amended.  In every run of [Import]: when a call of a condition
    wait is made, the calls of [ImportResources] before it are exactly
    those of the base groups, in order, with [pause = false]; the mapper
    is reset at most once; when it is reset, the base groups are all that
    was imported before, the seven condition waits of the source have been
    made after that import, in order, and every one of them has returned
    [nil], the last one in the world in which the mapper is reset, no call
    of a condition wait follows, and what is imported afterwards is a
    prefix of the remaining groups of the root directory, with
    [pause = true]; and when the run gets to the finalize phase, or
    succeeds, the mapper was reset exactly once, every root entry other
    than export.yaml is a directory, and every remaining group was
    imported with [pause = true]. *)
Theorem import_phases_in_order im ctx w :
  exists im' w' r d,
    Import env im ctx w = Some (im', w', r) /\
    trace w' = (trace w ++ d)%list /\
    (forall d1 e d2,
       d = (d1 ++ e :: d2)%list -> isWaitCall e = true ->
       imported d1 = (fun gr => (gr, false)) <$> baseResources) /\
    (resets d <= 1)%nat /\
    (forall d1 d2,
       d = (d1 ++ EvReset :: d2)%list ->
       imported d1 = (fun gr => (gr, false)) <$> baseResources /\
       (exists wa wb da db,
           d1 = (da ++ db)%list /\
           trace wa = (trace w ++ da)%list /\
           imported da = (fun gr => (gr, false)) <$> baseResources /\
           Forall (fun e => isWaitCall e = false) da /\
           allWaited env ctx conditionWaits wa wb /\
           trace wb = (trace w ++ d1)%list) /\
       Forall (fun e => isWaitCall e = false) d2 /\
       exists G,
         imported d2 = (fun gr => (gr, true)) <$> G /\
         forall fs2 grs,
           fs im' = Some fs2 -> ReadDir fs2 "/" = inr grs ->
           G `prefix_of` remainingGroups grs) /\
    (r = None \/ modified d <> [] ->
     resets d = 1%nat /\
     exists fs2 grs,
       fs im' = Some fs2 /\ ReadDir fs2 "/" = inr grs /\
       Forall (fun info => Name info = "export.yaml" \/ IsDir info = true) grs /\
       imported d = (((fun gr => (gr, false)) <$> baseResources) ++
                     ((fun gr => (gr, true)) <$> remainingGroups grs))%list).
Proof.
  destruct (Import_total env im ctx w) as [[[im' w'] r] HI].
  exists im', w', r. pose proof HI as HS.
  apply Import_shape in HS
    as (fs2 & dE & dB & dW & dR & dF & B & G & M & -> & _ & Ht & HsE & HsB & _ & HwW & Hst).
  exists (dE ++ dB ++ dW ++ dR ++ dF)%list. split; [done|]. split; [done|].
  destruct (piece_extract im dE HsE) as (HmE & HiE & HwE & HrE & _).
  destruct (piece_imports false B dB HsB) as (HmB & HiB & HwB & HrB & _).
  destruct (piece_wait dW HwW) as (HmW & HiW & HrW & _).
  destruct Hst as [(-> & -> & Hr & HB)|(-> & Hwait & (dR' & -> & HsR) & HpG & Hfin)].
  - (* the run ends before the mapper is reset *)
    rewrite !app_nil_r.
    assert (Hres : resets (dE ++ dB ++ dW) = 0%nat).
    { apply resets_none. by rewrite !Forall_app. }
    split; [|split; [lia|split]].
    + intros d1 e d2 Hd He.
      destruct (split_in_piece isWaitCall (dE ++ dB) dW [] d1 e d2) as (x1 & x2 & -> & -> & _);
        [by apply Forall_app|done|by rewrite app_nil_r, <- app_assoc|done|].
      destruct HB as [HB | ->]; [by destruct x1|].
      destruct (piece_wait x1 (waitCalls_prefix _ _ HwW)) as (_ & Hi1 & _).
      rewrite !imported_app, HiE, HiB, Hi1. by rewrite app_nil_r.
    + intros d1 d2 Hd. rewrite Hd, resets_app in Hres. unfold resets at 2 in Hres.
      unfold count in Hres. rewrite filter_cons in Hres. simpl in Hres. lia.
    + intros [-> | Hm]; [done|]. exfalso. apply Hm.
      by rewrite !modified_app, HmE, HmB, HmW.
  - (* the mapper is reset *)
    destruct (piece_imports true G dR' HsR) as (HmR & HiR & HwR & HrR & _).
    assert (HwF : Forall (fun e => isWaitCall e = false) dF /\
                  Forall (fun e => isReset e = false) dF /\
                  imported dF = [] /\
                  (modified dF <> [] \/ r = None ->
                   exists grs, ReadDir fs2 "/" = inr grs /\ G = remainingGroups grs /\
                     Forall (fun info => Name info = "export.yaml" \/ IsDir info = true) grs)).
    { destruct Hfin as [(-> & Hr)|(Hgrs & HsF & Hout)].
      - repeat split; try done. intros [?|?]; done.
      - destruct (piece_modify M dF HsF) as (_ & ? & ? & ? & _). by repeat split. }
    destruct HwF as (HwF & HrF & HiF & HcF).
    assert (Hres : resets (dE ++ dB ++ dW ++ (EvReset :: dR') ++ dF) = 1%nat).
    { change (EvReset :: dR') with ([EvReset] ++ dR')%list. rewrite !resets_app.
      by rewrite (resets_none dE), (resets_none dB), (resets_none dW),
        (resets_none dR'), (resets_none dF). }
    assert (Himp : imported (dE ++ dB ++ dW) = (fun gr => (gr, false)) <$> baseResources).
    { rewrite !imported_app, HiE, HiB, HiW. by rewrite app_nil_r. }
    split; [|split; [lia|split]].
    + intros d1 e d2 Hd He.
      destruct (split_in_piece isWaitCall (dE ++ dB) dW ((EvReset :: dR') ++ dF) d1 e d2)
        as (x1 & x2 & -> & -> & _);
        [by apply Forall_app|apply Forall_app; split; [by constructor|done]
        |by rewrite <- Hd, <- !app_assoc|done|].
      destruct (piece_wait x1 (waitCalls_prefix _ _ HwW)) as (_ & Hi1 & _).
      rewrite !imported_app, HiE, HiB, Hi1. by rewrite app_nil_r.
    + intros d1 d2 Hd.
      destruct (split_in_piece isReset (dE ++ dB ++ dW) [EvReset] (dR' ++ dF) d1 EvReset d2)
        as (x1 & x2 & Hx & -> & ->);
        [by rewrite !Forall_app|by apply Forall_app
        |by rewrite <- Hd, <- !app_assoc|done|].
      destruct x1 as [|y [|z x1]]; try done. injection Hx as <-. rewrite app_nil_r.
      split; [done|]. split.
      { destruct Hwait as (w1 & w2 & Hw & Ht1 & Ht2).
        exists w1, w2, (dE ++ dB)%list, dW.
        split; [by rewrite <- app_assoc|]. split; [by rewrite Ht1|].
        split; [by rewrite imported_app, HiE, HiB|]. split; [by apply Forall_app|].
        split; [by apply importWait_allWaited|by rewrite Ht2]. }
      rewrite !app_nil_l.
      split; [by apply Forall_app|]. exists G.
      split; [by rewrite imported_app, HiR, HiF, app_nil_r|].
      intros fs2' grs [= <-]. apply HpG.
    + intros Hreach. split; [done|].
      destruct HcF as (grs & Hgrs & -> & Hdirs).
      { destruct Hreach as [?|Hm]; [by right|left].
        intros HmF. apply Hm.
        change (EvReset :: dR') with ([EvReset] ++ dR')%list.
        by rewrite !modified_app, HmE, HmB, HmW, HmR, HmF. }
      exists fs2, grs. repeat split; try done.
      change (EvReset :: dR') with ([EvReset] ++ dR')%list.
      rewrite !imported_app, HiE, HiB, HiW, HiR, HiF. by rewrite app_nil_r.
Qed.

(** *** Extraction happens once *)

Lemma extractions_app d1 d2 :
  extractions (d1 ++ d2) = (extractions d1 + extractions d2)%nat.
Proof. apply count_app. Qed.

Lemma extractions_none d : Forall (fun e => isOpen e = false) d -> extractions d = 0%nat.
Proof. apply count_none. Qed.

Lemma PreflightChecks_extracts im ctx w im' w' errs :
  PreflightChecks env im ctx w = (im', w', errs) ->
  exists d, trace w' = (trace w ++ d)%list /\ extractsOnlyIfMissing im im' d.
Proof.
  unfold PreflightChecks.
  destruct (envCollectInfo env w) as [err|observed].
  { intros [= <- <- <-]. exists [EvCollectInfo]. split; [done|].
    split; [done|]. by left. }
  destruct (fs im) as [f|] eqn:Hfs.
  - assert (Hfin : forall errs0, (mkImporter (Some f) (options im), call env EvCollectInfo w, errs0)
                           = (im', w', errs) ->
              exists d, trace w' = (trace w ++ d)%list /\ extractsOnlyIfMissing im im' d).
    { intros errs0 [= <- <- <-]. exists [EvCollectInfo]. split; [done|].
      split; [done|]. left. by rewrite Hfs. }
    destruct (ReadFile f "export.yaml") as [err|b]; [apply Hfin|].
    destruct (envUnmarshal env b); apply Hfin.
  - destruct (unarchive env (options im) ctx NewMemMapFs (call env EvCollectInfo w))
      as [[fs2 w2] uerr] eqn:Hu.
    apply unarchive_trace in Hu. rewrite trace_call in Hu.
    assert (Hfin : forall errs0, (mkImporter (Some fs2) (options im), w2, errs0)
                           = (im', w', errs) ->
              exists d, trace w' = (trace w ++ d)%list /\ extractsOnlyIfMissing im im' d).
    { intros errs0 [= <- <- <-].
      exists [EvCollectInfo; EvOpen (InputArchive (options im))].
      split; [by rewrite Hu, <- app_assoc|]. split; [done|]. right.
      rewrite Hfs. by repeat split. }
    destruct uerr as [err|]; [apply Hfin|].
    destruct (ReadFile fs2 "export.yaml") as [err|b]; [apply Hfin|].
    destruct (envUnmarshal env b); apply Hfin.
Qed.

Lemma Import_extracts im ctx w im' w' r :
  Import env im ctx w = Some (im', w', r) ->
  exists d, trace w' = (trace w ++ d)%list /\ extractsOnlyIfMissing im im' d.
Proof.
  intros HS. apply Import_shape in HS
    as (fs2 & dE & dB & dW & dR & dF & B & G & M & -> & Hfs & Ht & HsE & HsB & _ & HwW & Hst).
  exists (dE ++ dB ++ dW ++ dR ++ dF)%list. split; [done|]. split; [done|].
  destruct (piece_extract im dE HsE) as (_ & _ & _ & _ & HxE).
  destruct (piece_imports false B dB HsB) as (_ & _ & _ & _ & HoB).
  destruct (piece_wait dW HwW) as (_ & _ & _ & HoW).
  assert (Hrest : extractions (dR ++ dF) = 0%nat).
  { destruct Hst as [(-> & -> & _)|(_ & _ & (dR' & -> & HsR) & _ & Hfin)]; [done|].
    destruct (piece_imports true G dR' HsR) as (_ & _ & _ & _ & HoR).
    rewrite extractions_app. change (EvReset :: dR') with ([EvReset] ++ dR')%list.
    rewrite extractions_app, (extractions_none dR' HoR).
    destruct Hfin as [(-> & _)|(_ & HsF & _)]; [done|].
    destruct (piece_modify M dF HsF) as (_ & _ & _ & _ & HoF).
    by rewrite (extractions_none dF HoF). }
  rewrite !extractions_app, HxE, (extractions_none dB HoB), (extractions_none dW HoW).
  rewrite extractions_app in Hrest. rewrite Hrest.
  destruct (fs im) as [f|] eqn:Hf.
  - left. split; [|done]. simpl. f_equal. by apply Hfs.
  - right. by repeat split.
Qed.

(** C9.  Whatever sequence of calls of [PreflightChecks] and [Import] is
    made on one importer, every call returns and the archive is opened
    for extraction at most once in the whole run; when the store is
    already there at the start, it is never opened, and the store stays
    the one that was there. *)
Theorem archive_extracted_at_most_once calls :
  forall im w,
  exists im' w' d,
    runCalls env calls im w = Some (im', w') /\
    trace w' = (trace w ++ d)%list /\
    (extractions d <= 1)%nat /\
    (forall f, fs im = Some f -> extractions d = 0%nat /\ fs im' = Some f).
Proof.
  induction calls as [|c calls IH]; intros im w.
  { exists im, w, []. rewrite app_nil_r. split; [done|]. split; [done|].
    split; [unfold extractions, count; simpl; lia|]. by intros f Hf. }
  assert (Hstep : forall im1 w1 d1,
            trace w1 = (trace w ++ d1)%list -> extractsOnlyIfMissing im im1 d1 ->
            exists im' w' d,
              runCalls env calls im1 w1 = Some (im', w') /\
              trace w' = (trace w ++ d)%list /\
              (extractions d <= 1)%nat /\
              (forall f, fs im = Some f -> extractions d = 0%nat /\ fs im' = Some f)).
  { intros im1 w1 d1 Ht1 (_ & Hx).
    destruct (IH im1 w1) as (im' & w' & d & Hrun & Ht & Hle & Hsome).
    exists im', w', (d1 ++ d)%list.
    split; [done|]. split; [by rewrite Ht, Ht1, app_assoc|].
    rewrite extractions_app.
    destruct Hx as [(Hfs & ->)|(Hnone & [f1 Hf1] & ->)].
    - split; [lia|]. intros f Hf. rewrite <- Hfs in Hf.
      destruct (Hsome f Hf) as [-> ?]. by split.
    - destruct (Hsome f1 Hf1) as [-> _]. split; [lia|].
      intros f Hf. congruence. }
  destruct c as [ctx|ctx]; simpl.
  - destruct (PreflightChecks env im ctx w) as [[im1 w1] errs] eqn:HP.
    apply PreflightChecks_extracts in HP as (d1 & Ht1 & Hx1). by apply (Hstep im1 w1 d1).
  - destruct (Import_total env im ctx w) as [[[im1 w1] r] HI]. rewrite HI.
    apply Import_extracts in HI as (d1 & Ht1 & Hx1). by apply (Hstep im1 w1 d1).
Qed.

End ImportProperties.

(** ** Preflight checks *)

Section PreflightProperties.

Context {Fs : Type} `{Afero Fs}.
Variable env : Env Fs.

Lemma contains_elem_of ss s : contains ss s = true <-> s ∈ ss.
Proof.
  induction ss as [|v ss IH]; simpl.
  - split; [done|]. by intros ?%elem_of_nil.
  - destruct (decide (v = s)) as [->|Hne].
    + split; [intros _; by left|done].
    + rewrite IH. split; [by right|]. by intros [?|?]%elem_of_cons.
Qed.

Lemma checkFeatureFlags_spec observedFlags :
  forall ffs errs,
    checkFeatureFlags ffs observedFlags errs =
      (errs ++ (flagDiagnostic <$> filter (fun ff => contains observedFlags ff = false) ffs))%list.
Proof.
  induction ffs as [|ff ffs IH]; intros errs; simpl.
  - by rewrite app_nil_r.
  - rewrite filter_cons. destruct (contains observedFlags ff) eqn:Hc; simpl.
    + by rewrite IH.
    + by rewrite IH, <- app_assoc.
Qed.

Lemma compareInfo_spec observed em :
  compareInfo observed em =
    ((if decide (Version observed = Version (Crossplane em)) then []
      else [versionDiagnostic (Version observed) (Version (Crossplane em))]) ++
     (flagDiagnostic <$> filter (fun ff => contains (FeatureFlags observed) ff = false)
                           (FeatureFlags (Crossplane em))))%list.
Proof.
  unfold compareInfo. rewrite checkFeatureFlags_spec.
  destruct (decide (Version observed <> Version (Crossplane em)));
    destruct (decide (Version observed = Version (Crossplane em))); done.
Qed.

(** The diagnostics written out: the flags that are reported are the
    entries of the exported list that are not among the flags of the
    target. *)
Lemma compareInfo_explicit observed em :
  compareInfo observed em =
    ((if decide (Version observed = Version (Crossplane em)) then []
      else [Errorf "Crossplane version %q does not match exported version %q"
              [Version observed; Version (Crossplane em)]]) ++
     ((fun ff => Errorf "Feature flag %q was set in the exported control plane but is not set in the target control plane for import." [ff])
        <$> filter (fun ff => ff ∉ FeatureFlags observed) (FeatureFlags (Crossplane em))))%list.
Proof.
  rewrite compareInfo_spec. f_equal. unfold flagDiagnostic. f_equal.
  apply list_filter_iff. intros ff.
  pose proof (contains_elem_of (FeatureFlags observed) ff) as Hc.
  destruct (contains (FeatureFlags observed) ff); split; try done.
  - intros Hnot. exfalso. apply Hnot, Hc. done.
  - intros _ Hin. apply Hc in Hin. done.
Qed.

(** How often a flag is among the reported ones. *)
Lemma occurrences_missing (observedFlags exportedFlags : list string) ff :
  length (filter (fun x => x = ff) (filter (fun x => x ∉ observedFlags) exportedFlags)) =
    if decide (ff ∈ observedFlags) then 0%nat
    else length (filter (fun x => x = ff) exportedFlags).
Proof.
  induction exportedFlags as [|x l IH]; [by destruct (decide (ff ∈ observedFlags))|].
  rewrite !filter_cons.
  destruct (decide (x ∉ observedFlags)) as [Hx|Hx].
  - rewrite filter_cons. destruct (decide (x = ff)) as [->|Hne]; simpl.
    + rewrite IH. by destruct (decide (ff ∈ observedFlags)).
    + exact IH.
  - destruct (decide (x = ff)) as [->|Hne]; simpl.
    + rewrite IH. destruct (decide (ff ∈ observedFlags)); [done|].
      exfalso. by apply Hx.
    + exact IH.
Qed.

Lemma occurrences_NoDup (l : list string) ff :
  NoDup l -> ff ∈ l -> length (filter (fun x => x = ff) l) = 1%nat.
Proof.
  induction 1 as [|x l Hx Hnd IH]; [by intros ?%elem_of_nil|].
  rewrite filter_cons. destruct (decide (x = ff)) as [->|Hne]; simpl.
  - intros _. f_equal.
    destruct (filter (fun x => x = ff) l) as [|y l'] eqn:Hf; [done|].
    assert (Hy : y ∈ filter (fun x => x = ff) l) by (rewrite Hf; by left).
    apply list_elem_of_filter in Hy as [-> Hin]. done.
  - intros [?|Hin]%elem_of_cons; [done|]. by apply IH.
Qed.

(** C7, amended.  When the target can be asked for its Crossplane info and
    the export metadata is read and parsed, [PreflightChecks] returns the
    error "Crossplane version ... does not match exported version ...",
    if and only if the versions differ, followed by one error "Feature
    flag ... was set in the exported control plane ..." for each entry of
    the exported list of flags that is not a flag of the target, in the
    order of that list, and nothing else.  So a flag is reported as often
    as the export lists it when the target lacks it, and not at all when
    the target has it: once per missing flag when no flag is exported
    twice; nothing is returned when the versions are equal and every
    exported flag is set on the target; and for the exported flags A, B on
    a target with the flag A, B alone is reported, once. *)
Theorem preflight_diagnostics im ctx w observed fs2 w2 b em :
  envCollectInfo env w = inr observed ->
  match fs im with
  | None => unarchive env (options im) ctx NewMemMapFs (call env EvCollectInfo w)
  | Some fs1 => (fs1, call env EvCollectInfo w, None)
  end = (fs2, w2, None) ->
  ReadFile fs2 "export.yaml" = inr b ->
  envUnmarshal env b = inr em ->
  let exportedFlags := FeatureFlags (Crossplane em) in
  let missing := filter (fun ff => ff ∉ FeatureFlags observed) exportedFlags in
  exists diags,
    PreflightChecks env im ctx w = (mkImporter (Some fs2) (options im), w2, diags) /\
    diags = ((if decide (Version observed = Version (Crossplane em)) then []
              else [Errorf "Crossplane version %q does not match exported version %q"
                      [Version observed; Version (Crossplane em)]]) ++
             ((fun ff => Errorf "Feature flag %q was set in the exported control plane but is not set in the target control plane for import." [ff])
                <$> missing))%list /\
    (forall ff,
       length (filter (fun x => x = ff) missing) =
         if decide (ff ∈ FeatureFlags observed) then 0%nat
         else length (filter (fun x => x = ff) exportedFlags)) /\
    (NoDup exportedFlags ->
     forall ff, ff ∈ exportedFlags -> ff ∉ FeatureFlags observed ->
                length (filter (fun x => x = ff) missing) = 1%nat) /\
    (Version observed = Version (Crossplane em) ->
     (forall ff, ff ∈ exportedFlags -> ff ∈ FeatureFlags observed) ->
     diags = []) /\
    (forall A B, A <> B -> exportedFlags = [A; B] -> FeatureFlags observed = [A] ->
                 missing = [B]).
Proof.
  intros Hobs Hun Hread Hem exportedFlags missing.
  exists (compareInfo observed em). split.
  { unfold PreflightChecks. rewrite Hobs, Hun, Hread, Hem. done. }
  split; [apply compareInfo_explicit|].
  split; [intros ff; apply occurrences_missing|]. split.
  { intros Hnd ff Hin Hnot. unfold missing. rewrite occurrences_missing.
    rewrite decide_False by done. by apply occurrences_NoDup. }
  split.
  - intros Hv Hall. rewrite compareInfo_explicit, decide_True by done.
    fold exportedFlags. fold missing.
    destruct missing as [|ff l] eqn:Hm; [done|].
    assert (Hin : ff ∈ ff :: l) by (by left).
    rewrite <- Hm in Hin. apply list_elem_of_filter in Hin as [Hnot Hin].
    by apply Hall in Hin.
  - intros A B HAB HE HO. unfold missing. rewrite HE, HO.
    rewrite !filter_cons, filter_nil.
    rewrite decide_False by (intros Hn; apply Hn; by left).
    rewrite decide_True; [done|].
    intros [?|Hin]%elem_of_cons; [by apply HAB|]. by apply elem_of_nil in Hin.
Qed.

(** C8, amended.  [PreflightChecks] returns a single error in four cases
    only, each of them the failure of the step it names: collecting the
    Crossplane info of the target fails; the store is not there yet and
    [unarchive] fails; reading export.yaml from the store (the one that
    was there, or the one [unarchive] has just filled) fails; or parsing
    what was read fails.  In every other case it returns the diagnostics of
    all the mismatches between the target and the export: the version
    error when the versions differ and one error for each exported flag
    entry that the target lacks. *)
Theorem preflight_single_error_cases im ctx w :
  exists im' w' diags,
    PreflightChecks env im ctx w = (im', w', diags) /\
    ((exists e, envCollectInfo env w = inl e /\
                diags = [Wrap e "Cannot get Crossplane info"]) \/
     (exists observed,
         envCollectInfo env w = inr observed /\
         ((exists fs2 w2 e,
              fs im = None /\
              unarchive env (options im) ctx NewMemMapFs (call env EvCollectInfo w) =
                (fs2, w2, Some e) /\
              diags = [Wrap e "Cannot unarchive export archive"]) \/
          (exists fs2,
              (fs im = Some fs2 \/
               (fs im = None /\
                exists w2,
                  unarchive env (options im) ctx NewMemMapFs (call env EvCollectInfo w) =
                    (fs2, w2, None))) /\
              fs im' = Some fs2 /\
              ((exists e, ReadFile fs2 "export.yaml" = inl e /\
                          diags = [Wrap e "Cannot read export metadata"]) \/
               (exists b e, ReadFile fs2 "export.yaml" = inr b /\
                            envUnmarshal env b = inl e /\
                            diags = [Wrap e "Cannot unmarshal export metadata"]) \/
               (exists b em,
                   ReadFile fs2 "export.yaml" = inr b /\
                   envUnmarshal env b = inr em /\
                   diags =
                     ((if decide (Version observed = Version (Crossplane em)) then []
                       else [Errorf "Crossplane version %q does not match exported version %q"
                               [Version observed; Version (Crossplane em)]]) ++
                      ((fun ff => Errorf "Feature flag %q was set in the exported control plane but is not set in the target control plane for import." [ff])
                         <$> filter (fun ff => ff ∉ FeatureFlags observed)
                               (FeatureFlags (Crossplane em))))%list)))))).
Proof.
  unfold PreflightChecks.
  destruct (envCollectInfo env w) as [e|observed].
  { eexists _, _, _. split; [done|]. left. eauto. }
  destruct (match fs im with
            | None => unarchive env (options im) ctx NewMemMapFs (call env EvCollectInfo w)
            | Some fs1 => (fs1, call env EvCollectInfo w, None)
            end) as [[fs2 w2] uerr] eqn:Hun.
  destruct uerr as [e|].
  { eexists _, _, _. split; [done|]. right. exists observed. split; [done|]. left.
    exists fs2, w2, e. destruct (fs im); [done|]. by repeat split. }
  assert (Hstore : fs im = Some fs2 \/
                   (fs im = None /\
                    exists w2,
                      unarchive env (options im) ctx NewMemMapFs (call env EvCollectInfo w) =
                        (fs2, w2, None))).
  { destruct (fs im) as [f|]; [left; by injection Hun as -> _|right].
    split; [done|]. by exists w2. }
  destruct (ReadFile fs2 "export.yaml") as [e|b] eqn:Hread.
  { eexists _, _, _. split; [done|]. right. exists observed. split; [done|].
    right. exists fs2. split; [done|]. split; [done|]. left. by exists e. }
  destruct (envUnmarshal env b) as [e|em] eqn:Hem.
  { eexists _, _, _. split; [done|]. right. exists observed. split; [done|].
    right. exists fs2. split; [done|]. split; [done|]. right; left. by exists b, e. }
  eexists _, _, _. split; [done|]. right. exists observed. split; [done|].
  right. exists fs2. split; [done|]. split; [done|]. right; right.
  exists b, em. by rewrite compareInfo_explicit.
Qed.

End PreflightProperties.

(** ** The properties on the test double *)

Section Scenarios.

Import Scenario Cases.

Lemma wait_succeeds_on_poll_without_unmet_witness :
  waitForConditions flaky Background providerKind installedAndHealthy start =
    Some (call flaky (EvList (mapping providerKind)) (world second), None) /\
  now (call flaky (EvList (mapping providerKind)) (world second)) = 7 * Second.
Proof.
  split; [|reflexivity].
  apply (wait_succeeds_on_poll_without_unmet flaky Background providerKind
           installedAndHealthy start (mapping providerKind) second []).
  - reflexivity.
  - apply (Round_next _ _ _ _ (ps0 flaky) (Round_first _ _ _ _)); reflexivity.
  - reflexivity.
  - reflexivity.
  - left. reflexivity.
Defined.

Lemma wait_without_conditions_and_unmet_bound_witness :
  waitForConditions unhealthy Background providerKind [] start =
    Some (call unhealthy (EvList (mapping providerKind)) (world (ps0 unhealthy)), None) /\
  0 <= 1 <= Z.of_nat 1.
Proof.
  destruct (wait_without_conditions_and_unmet_bound unhealthy Background providerKind start
              (mapping providerKind) (ps0 unhealthy)
              [mkUnstructured "p" (StatusValue [mkCondition "Installed" "True";
                                                mkCondition "Healthy" "False"])]
              eq_refl (Round_first _ _ _ _) eq_refl eq_refl) as [Hwait Hbound].
  split.
  - apply Hwait. repeat constructor. intros e He. discriminate He.
  - apply (Hbound installedAndHealthy 1). reflexivity.
Defined.

Lemma poll_error_is_retried_witness :
  (let ps1 := poll flaky (mapping providerKind) providerKind installedAndHealthy (ps0 flaky) in
   world ps1 =
     emit
       (EvPrintf (Sprintf "cannot list packages with error: %v\n"
                    [ArgV (External "connection refused")]))
       (call flaky (EvList (mapping providerKind)) (world (ps0 flaky))) /\
   success ps1 = false /\ cancelled ps1 = false /\
   Round (WithTimeout Background 0 timeout)
     (poll flaky (mapping providerKind) providerKind installedAndHealthy) period
     (ps0 flaky) second) /\
  (let ps1 := poll halfReadable (mapping providerKind) providerKind installedAndHealthy
                (ps0 halfReadable) in
   world ps1 =
     emit
       (EvPrintf (Sprintf "cannot get status for %q %q with error: %v\n"
                    [ArgQ "Provider"; ArgQ "garbled";
                     ArgV (External "json: cannot unmarshal")]))
       (call halfReadable (EvList (mapping providerKind)) (world (ps0 halfReadable))) /\
   success ps1 = false /\ cancelled ps1 = false /\
   Round (WithTimeout Background 0 timeout)
     (poll halfReadable (mapping providerKind) providerKind installedAndHealthy) period
     (ps0 halfReadable) (atInstant (now (world ps1) + period) ps1)).
Proof.
  split.
  - intros ps1.
    destruct (poll_error_is_retried flaky Background providerKind installedAndHealthy start
                (mapping providerKind) (ps0 flaky)
                (Sprintf "cannot list packages with error: %v\n"
                   [ArgV (External "connection refused")])
                eq_refl (Round_first _ _ _ _) eq_refl)
      as (Hw & Hs & Hc & _ & Hround & _).
    + left. exists (External "connection refused"). split; reflexivity.
    + split; [exact Hw|]. split; [exact Hs|]. split; [exact Hc|].
      apply Hround. reflexivity.
  - intros ps1.
    destruct (poll_error_is_retried halfReadable Background providerKind installedAndHealthy
                start (mapping providerKind) (ps0 halfReadable)
                (Sprintf "cannot get status for %q %q with error: %v\n"
                   [ArgQ "Provider"; ArgQ "garbled";
                    ArgV (External "json: cannot unmarshal")])
                eq_refl (Round_first _ _ _ _) eq_refl)
      as (Hw & Hs & Hc & _ & Hround & _).
    + right. exists [provider "p" "True" "True"], garbled, [], (External "json: cannot unmarshal").
      split; [reflexivity|]. split.
      * constructor; [|constructor]. intros e He. discriminate He.
      * split; [reflexivity|]. split; reflexivity.
    + split; [exact Hw|]. split; [exact Hs|]. split; [exact Hc|].
      apply Hround. reflexivity.
Defined.

Lemma wait_times_out_naming_kind_and_conditions_witness :
  exists w',
    waitForConditions unhealthy Background providerKind installedAndHealthy start =
      Some (w', Some (Errorf "timeout waiting for conditions %q to be satisfied for all %q"
                        ["Installed and Healthy"; "Provider"])).
Proof.
  destruct (wait_times_out_naming_kind_and_conditions unhealthy Background providerKind
              installedAndHealthy start (mapping providerKind) eq_refl) as (w' & Hw & _).
  - intros ps items _ _ Hl. simpl in Hl. injection Hl as <-. vm_compute. discriminate.
  - exists w'. exact Hw.
Defined.

Lemma preflight_diagnostics_witness :
  exists im' w',
    PreflightChecks otherTarget (fresh false) Background start =
      (im', w',
       [Errorf "Crossplane version %q does not match exported version %q" ["1.15.0"; "1.14.0"];
        Errorf "Feature flag %q was set in the exported control plane but is not set in the target control plane for import." ["B"]]).
Proof.
  eassert (Hun : match fs (fresh false) with
                 | None => unarchive otherTarget (options (fresh false)) Background
                             NewMemMapFs (call otherTarget EvCollectInfo start)
                 | Some fs1 => (fs1, call otherTarget EvCollectInfo start, None)
                 end = (_, _, None)) by (vm_compute; reflexivity).
  destruct (preflight_diagnostics otherTarget (fresh false) Background start
              (mkInfo "1.15.0" ["A"]) _ _ "meta" exported eq_refl Hun eq_refl eq_refl)
    as (diags & Hrun & Hdiags & _).
  eexists _, _. rewrite Hrun, Hdiags. reflexivity.
Defined.

(** C6.  A caller that cancels seven seconds into the wait for a provider
    that is not healthy gets, at that instant, the error "timeout waiting
    for conditions" from [waitForConditions], not [ctx.Err()], which is
    [context.Canceled] by then; [unarchive], cancelled while it reads the
    archive, returns [ctx.Err()]. *)
Theorem cancelled_wait_reports_timeout :
  (exists w',
      waitForConditions unhealthy (DoneAt (7 * Second) Canceled) providerKind
        installedAndHealthy start =
        Some (w', Some (timeoutError providerKind installedAndHealthy)) /\
      now w' = 7 * Second /\
      Err (DoneAt (7 * Second) Canceled) (now w') = Some Canceled) /\
  (exists fs' w',
      unarchive slowDisk (mkOptions "xp-state.tar.gz" false) (DoneAt (2 * Second) Canceled)
        NewMemMapFs start = (fs', w', Some Canceled) /\
      now w' = 2 * Second).
Proof.
  split.
  - eexists. split; [vm_compute; reflexivity|]. split; reflexivity.
  - eexists _, _. split; [vm_compute; reflexivity|reflexivity].
Qed.

(** The run option asks for managed resources to be unpaused and the run
    gets to the finalize phase, yet "managed" is not touched: unpausing the
    composites failed. *)
Lemma managed_left_paused_when_composites_fail :
  exists im' w' r,
    Import frozenComposites (fresh true) Background start = Some (im', w', r) /\
    UnpauseAfterImport (options (fresh true)) = true /\
    modified (trace w') = [("composite", RemoveAnnotations ["crossplane.io/paused"])] /\
    ~ (("managed", RemoveAnnotations ["crossplane.io/paused"]) ∈ modified (trace w') <->
       UnpauseAfterImport (options (fresh true)) = true).
Proof.
  eexists _, _, _. split; [vm_compute; reflexivity|]. split; [reflexivity|].
  split; [reflexivity|].
  intros [_ Hiff]. specialize (Hiff eq_refl).
  apply list_elem_of_singleton in Hiff. discriminate Hiff.
Qed.

(** A run in which the first base group cannot be imported never resets
    the mapper, and imports no other base group. *)
Lemma mapper_not_reset_when_base_import_fails :
  exists im' w' r,
    Import noNamespaces (fresh false) Background start = Some (im', w', r) /\
    resets (trace w') = 0%nat /\
    resets (trace w') <> 1%nat /\
    imported (trace w') = [("namespaces", false)].
Proof.
  eexists _, _, _. split; [vm_compute; reflexivity|].
  split; [reflexivity|]. split; [discriminate|reflexivity].
Qed.

(** The export lists the flag B twice and the target lacks it:
    [PreflightChecks] returns two diagnostics for the one missing flag. *)
Lemma repeated_flag_is_reported_twice :
  envCollectInfo repeatedFlag start = inr (mkInfo "1.14.0" ["A"]) /\
  envUnmarshal repeatedFlag "meta" = inr (mkExportMeta (mkInfo "1.14.0" ["A"; "B"; "B"])) /\
  exists im' w',
    PreflightChecks repeatedFlag (fresh false) Background start =
      (im', w',
       [Errorf "Feature flag %q was set in the exported control plane but is not set in the target control plane for import." ["B"];
        Errorf "Feature flag %q was set in the exported control plane but is not set in the target control plane for import." ["B"]]).
Proof.
  split; [reflexivity|]. split; [reflexivity|].
  eexists _, _. vm_compute. reflexivity.
Qed.

(** The exported state can be read, yet [PreflightChecks] returns a single
    error: the target does not give its Crossplane info. *)
Lemma preflight_fails_on_unreachable_target :
  (exists im' w' e,
      PreflightChecks unreachableTarget (fresh false) Background start =
        (im', w', [Wrap e "Cannot get Crossplane info"])) /\
  (exists fs2 w2 em,
      unarchive unreachableTarget (options (fresh false)) Background NewMemMapFs
        (call unreachableTarget EvCollectInfo start) = (fs2, w2, None) /\
      ReadFile fs2 "export.yaml" = inr "meta" /\
      envUnmarshal unreachableTarget "meta" = inr em).
Proof.
  split.
  - eexists _, _, _. vm_compute. reflexivity.
  - eexists _, _, _. split; [vm_compute; reflexivity|]. split; reflexivity.
Qed.

End Scenarios.


(** * Further properties *)

(** ** More on [waitForConditions] *)

Section WaitOutcomes.

Context {Fs : Type} `{Afero Fs}.
Variable env : Env Fs.

Lemma isList_significant e : isList e = true -> significant e = true.
Proof. by destruct e. Qed.

Lemma listings_app d1 d2 : listings (d1 ++ d2) = (listings d1 + listings d2)%nat.
Proof. apply count_app. Qed.

Lemma poll_listings rm gk conditions ps :
  exists d,
    trace (world (poll env rm gk conditions ps)) = (trace (world ps) ++ d)%list /\
    listings d = 1%nat.
Proof.
  unfold poll.
  destruct (envList env (world ps) rm) as [err|items]; simpl.
  { eexists [_; _]. rewrite <- app_assoc. split; reflexivity. }
  destruct (countUnmet items conditions 0) as [[name err]|unmet]; simpl.
  { eexists [_; _]. rewrite <- app_assoc. split; reflexivity. }
  destruct (bool_decide (unmet > 0)); simpl.
  - eexists [_; _]. rewrite <- app_assoc. split; reflexivity.
  - eexists [_]. split; reflexivity.
Qed.

(** The listings of a loop fit, one period apart, before the deadline. *)
Lemma UntilWithContext_listings t0 e rm gk conditions :
  forall fuel ps r,
    UntilWithContext fuel (DoneAt t0 e) (poll env rm gk conditions) period ps = Some r ->
    exists d,
      trace (world r) = (trace (world ps) ++ d)%list /\
      (listings d = 0%nat \/
       (Z.of_nat (listings d) - 1) * period < t0 - now (world ps)).
Proof.
  induction fuel as [|fuel IH]; intros ps r; [done|].
  cbn [UntilWithContext].
  destruct (cancelled ps || Done (DoneAt t0 e) (now (world ps))) eqn:Hd.
  { intros [= <-]. exists []. rewrite app_nil_r. split; [done|by left]. }
  apply orb_false_elim in Hd as [_ Hd]. simpl in Hd. apply bool_decide_eq_false in Hd.
  destruct (poll_listings rm gk conditions ps) as (d1 & Hd1 & Hl1).
  pose proof (poll_now env rm gk conditions ps) as Hnow.
  assert (Hone : listings d1 = 0%nat \/
                 (Z.of_nat (listings d1) - 1) * period < t0 - now (world ps)).
  { right. rewrite Hl1. change (Z.of_nat 1) with 1. lia. }
  destruct (cancelled (poll env rm gk conditions ps)); [intros [= <-]; eauto|].
  destruct (Done (DoneAt t0 e) (now (world (poll env rm gk conditions ps)) + period))
    eqn:Hd2.
  { intros [= <-]. simpl. eauto. }
  intros Hr. apply IH in Hr as (d2 & Hd2' & Hl2). simpl in Hd2', Hl2.
  exists (d1 ++ d2)%list. split; [by rewrite Hd2', Hd1, app_assoc|].
  right. rewrite listings_app, Hl1.
  unfold period, Second in *. destruct Hl2 as [-> | Hl2]; simpl; lia.
Qed.

(** X1.  Every call of [waitForConditions] lists the resources at most 120
    times, whatever the live system answers and however long its answers
    take. *)
Theorem wait_lists_at_most_120_times ctx gk conditions w :
  exists w' r d,
    waitForConditions env ctx gk conditions w = Some (w', r) /\
    trace w' = (trace w ++ d)%list /\
    (listings d <= 120)%nat.
Proof.
  unfold waitForConditions.
  destruct (envRESTMapping env w gk) as [err|rm].
  { eexists _, _, [EvRESTMapping gk]. split; [done|]. split; [done|].
    unfold listings, count. simpl. lia. }
  destruct (poll_loop_total env ctx rm gk conditions (call env (EvRESTMapping gk) w))
    as [ps Hps].
  rewrite Hps.
  destruct (WithTimeout_DoneAt ctx (now (call env (EvRESTMapping gk) w)) timeout)
    as (t0 & e & Hctx & Hle).
  rewrite Hctx in Hps.
  apply UntilWithContext_listings in Hps as (d & Hd & Hl). simpl in Hd, Hl.
  exists (world ps), (if success ps then None else Some (timeoutError gk conditions)),
    ([EvRESTMapping gk] ++ d)%list.
  split; [by destruct (success ps)|]. split; [by rewrite Hd, app_assoc|].
  rewrite listings_app. change (listings [EvRESTMapping gk]) with 0%nat.
  unfold call in Hle. simpl in Hle.
  unfold timeout, Minute, period, Second in *. lia.
Qed.

(** X2.  [waitForConditions] returns [nil], the error of the REST mapping,
    wrapped, or the timeout error, and nothing else; when the REST mapping
    fails it returns at once, without listing anything. *)
Theorem waitForConditions_outcomes ctx gk conditions w :
  exists w' r,
    waitForConditions env ctx gk conditions w = Some (w', r) /\
    ((exists err,
         envRESTMapping env w gk = inl err /\
         r = Some (Wrapf err "cannot get REST mapping for %q" [GroupKind_String gk]) /\
         w' = call env (EvRESTMapping gk) w) \/
     (exists rm,
         envRESTMapping env w gk = inr rm /\
         (r = None \/
          r = Some (Errorf "timeout waiting for conditions %q to be satisfied for all %q"
                      [printConditions conditions; Kind gk])))).
Proof.
  destruct (waitForConditions_total env ctx gk conditions w) as [[w' r] Hw].
  exists w', r. split; [done|].
  destruct (envRESTMapping env w gk) as [err|rm] eqn:Hrm.
  - left. exists err. unfold waitForConditions in Hw. rewrite Hrm in Hw.
    by injection Hw as <- <-.
  - right. exists rm. split; [done|].
    by apply (waitForConditions_result env ctx gk conditions w w' r rm).
Qed.

Lemma UntilWithContext_done fuel ctx f p ps :
  cancelled ps = false ->
  Done ctx (now (world ps)) = true ->
  UntilWithContext (S fuel) ctx f p ps = Some ps.
Proof. intros Hc Hd. cbn [UntilWithContext]. by rewrite Hc, Hd. Qed.

(** X3.  When the context is already over as the REST mapping returns,
    [waitForConditions] does not list the resources at all and returns the
    timeout error at that instant. *)
Theorem wait_under_finished_context ctx gk conditions w rm :
  envRESTMapping env w gk = inr rm ->
  Done ctx (now (call env (EvRESTMapping gk) w)) = true ->
  waitForConditions env ctx gk conditions w =
    Some (call env (EvRESTMapping gk) w, Some (timeoutError gk conditions)).
Proof.
  intros Hrm Hd. unfold waitForConditions. rewrite Hrm.
  destruct ctx as [|t0 e]; [done|]. cbn [Done] in Hd. apply bool_decide_eq_true in Hd.
  assert (Hctx : WithTimeout (DoneAt t0 e) (now (call env (EvRESTMapping gk) w)) timeout
                 = DoneAt t0 e).
  { unfold WithTimeout. rewrite bool_decide_eq_true_2; [done|].
    unfold timeout, Minute, Second. lia. }
  rewrite Hctx. unfold pollBudget.
  rewrite UntilWithContext_done; [done|done|].
  cbn [Done world]. by apply bool_decide_eq_true_2.
Qed.

(** The loop sets [success] only in a round whose poll found nothing
    unmet. *)
Lemma success_has_a_round ctx rm gk conditions ps0 :
  success ps0 = false -> cancelled ps0 = false ->
  forall fuel ps r,
    Round ctx (poll env rm gk conditions) period ps0 ps ->
    UntilWithContext fuel ctx (poll env rm gk conditions) period ps = Some r ->
    success r = true ->
    exists ps' items,
      Round ctx (poll env rm gk conditions) period ps0 ps' /\
      Done ctx (now (world ps')) = false /\
      envList env (world ps') rm = inr items /\
      countUnmet items conditions 0 = inr 0 /\
      world r = call env (EvList rm) (world ps').
Proof.
  intros Hs0 Hc0. induction fuel as [|fuel IH]; intros ps r HR; [done|].
  destruct (Round_flags env _ _ _ _ _ _ HR Hs0 Hc0) as [Hs Hcan].
  cbn [UntilWithContext]. rewrite Hcan, orb_false_l.
  destruct (Done ctx (now (world ps))) eqn:Hd; [intros [= <-]; congruence|].
  destruct (cancelled (poll env rm gk conditions ps)) eqn:Hc1.
  { intros [= <-] _. exists ps. unfold poll in *.
    destruct (envList env (world ps) rm) as [err|items]; [simpl in Hc1; congruence|].
    destruct (countUnmet items conditions 0) as [[name err]|unmet] eqn:Hcount;
      [simpl in Hc1; congruence|].
    destruct (bool_decide (unmet > 0)) eqn:Hpos; [simpl in Hc1; congruence|].
    exists items. split; [done|]. split; [done|]. split; [done|]. split; [|done].
    apply bool_decide_eq_false in Hpos. rewrite Hcount.
    apply countUnmet_bounds in Hcount. f_equal. lia. }
  assert (Hs1 : success (poll env rm gk conditions ps) = false).
  { destruct (poll_flags env rm gk conditions ps) as [[_ Hx]|[Hx _]]; congruence. }
  destruct (Done ctx (now (world (poll env rm gk conditions ps)) + period)) eqn:Hd1.
  - intros [= <-]. simpl. congruence.
  - intros Hr. apply (IH _ _ (Round_next _ _ _ _ _ HR Hcan Hd Hc1 Hd1) Hr).
Qed.

(** X4.  [waitForConditions] returns [nil] only from a poll that listed the
    resources, could read every status and counted no resource unmet; it
    returns in the world in which that list call ended. *)
Theorem wait_success_comes_from_a_poll ctx gk conditions w w' :
  waitForConditions env ctx gk conditions w = Some (w', None) ->
  exists rm ps items,
    envRESTMapping env w gk = inr rm /\
    Round (WithTimeout ctx (now (call env (EvRESTMapping gk) w)) timeout)
      (poll env rm gk conditions) period
      (mkPollState (call env (EvRESTMapping gk) w) false false) ps /\
    envList env (world ps) rm = inr items /\
    countUnmet items conditions 0 = inr 0 /\
    w' = call env (EvList rm) (world ps).
Proof.
  unfold waitForConditions.
  destruct (envRESTMapping env w gk) as [err|rm]; [done|].
  destruct (UntilWithContext _ _ _ _ _) as [r|] eqn:Hu; [|done].
  destruct (success r) eqn:Hs; [|done]. intros [= <-].
  destruct (success_has_a_round
              (WithTimeout ctx (now (call env (EvRESTMapping gk) w)) timeout)
              rm gk conditions (mkPollState (call env (EvRESTMapping gk) w) false false)
              eq_refl eq_refl _ _ r (Round_first _ _ _ _) Hu Hs)
    as (ps & items & HR & _ & Hl & Hc & Hw).
  by exists rm, ps, items.
Qed.

(** ** More on counting *)

(** X5.  The inner loop finds a resource unmet exactly when one of the
    requested conditions is not reported as [True]; a resource without a
    status is unmet as soon as one condition is requested. *)
Theorem unmet_iff_some_condition_not_true conditions :
  (forall status,
     someConditionUnmet status conditions = true <->
     exists c, c ∈ conditions /\ Status (GetCondition status c) <> ConditionTrue) /\
  (forall r, statusField r = StatusAbsent ->
             (unmetResource conditions r = true <-> conditions <> [])).
Proof.
  assert (Hiff : forall status,
     someConditionUnmet status conditions = true <->
     exists c, c ∈ conditions /\ Status (GetCondition status c) <> ConditionTrue).
  { intros status. induction conditions as [|c cs IH]; simpl.
    - split; [done|]. by intros (c & ?%elem_of_nil & _).
    - destruct (decide (Status (GetCondition status c) <> ConditionTrue)) as [Hc|Hc].
      + split; [|done]. intros _. exists c. split; [by left|done].
      + rewrite IH. split.
        * intros (c' & Hin & Hc'). exists c'. split; [by right|done].
        * intros (c' & [->|Hin]%elem_of_cons & Hc'); [done|]. by exists c'. }
  split; [done|].
  intros r Hr. unfold unmetResource, GetValueInto_status. rewrite Hr. simpl.
  rewrite Hiff. split.
  - intros (c & Hin & _) ->. by apply elem_of_nil in Hin.
  - destruct conditions as [|c cs]; [done|]. intros _. exists c. split; [by left|done].
Qed.

(** X6.  The loop over the listed resources stops at the first resource
    whose status is there and cannot be decoded, and reports it;
    otherwise it returns the number of resources that have a requested
    condition not [True]. *)
Theorem countUnmet_counts_unmet_resources items conditions :
  countUnmet items conditions 0 =
    match firstBroken items with
    | Some broken => inl broken
    | None => inr (Z.of_nat (length (filter (fun r => unmetResource conditions r = true) items)))
    end.
Proof.
  assert (Hgen : forall unmet,
    countUnmet items conditions unmet =
      match firstBroken items with
      | Some broken => inl broken
      | None =>
          inr (unmet +
               Z.of_nat (length (filter (fun r => unmetResource conditions r = true) items)))
      end).
  { induction items as [|r items IH]; intros unmet; simpl.
    - f_equal. lia.
    - rewrite filter_cons. unfold statusBroken.
      pose proof (eq_refl : unmetResource conditions r =
                            someConditionUnmet (snd (GetValueInto_status r)) conditions) as Hu.
      unfold GetValueInto_status in *.
      destruct (statusField r) as [|e|s]; simpl in Hu |- *.
      + rewrite <- Hu, IH. destruct (firstBroken items); [done|].
        destruct (unmetResource conditions r); simpl; f_equal; lia.
      + destruct (IsNotFound e); simpl; [|done].
        rewrite <- Hu, IH. destruct (firstBroken items); [done|].
        destruct (unmetResource conditions r); simpl; f_equal; lia.
      + rewrite <- Hu, IH. destruct (firstBroken items); [done|].
        destruct (unmetResource conditions r); simpl; f_equal; lia. }
  rewrite Hgen. by destruct (firstBroken items).
Qed.

End WaitOutcomes.

(** ** More on [unarchive] *)

Section UnarchiveProperties.

Context {Fs : Type} `{Afero Fs}.
Variable env : Env Fs.

Lemma Done_mono ctx t t' : Done ctx t = true -> t <= t' -> Done ctx t' = true.
Proof.
  destruct ctx as [|t0 e]; simpl; [done|].
  intros Hd%bool_decide_eq_true Hle. apply bool_decide_eq_true. lia.
Qed.

Lemma Err_None ctx t : Err ctx t = None <-> Done ctx t = false.
Proof. destruct ctx as [|t0 e]; simpl; [done|]. by case_bool_decide. Qed.

Lemma elapse_0 w : elapse 0 w = w.
Proof. destruct w as [t tr]. unfold elapse. simpl. f_equal. lia. Qed.

Lemma elapse_elapse a b w : elapse b (elapse a w) = elapse (a + b) w.
Proof. unfold elapse. simpl. f_equal. lia. Qed.

Lemma elapse_now d w : now w <= now (elapse d w).
Proof. unfold elapse. simpl. lia. Qed.

Lemma unarchive_loop_success path ctx tarEnd :
  forall entries fs0 w fs1 w1,
    unarchive_loop path ctx entries tarEnd fs0 w = (fs1, w1, None) <->
    tarEnd = None /\
    storeEntries fs0 entries = Some fs1 /\
    w1 = elapse (readingTime entries) w /\
    Done ctx (now w1) = false.
Proof.
  induction entries as [|hdr entries IH]; intros fs0 w fs1 w1.
  - cbn [unarchive_loop storeEntries readingTime]. rewrite elapse_0. split.
    + destruct (Err ctx (now w)) eqn:He; [done|]. apply Err_None in He.
      destruct tarEnd; [done|]. by intros [= <- <-].
    + intros (-> & [= <-] & -> & Hd). apply Err_None in Hd. by rewrite Hd.
  - cbn [unarchive_loop storeEntries readingTime]. unfold storeEntry.
    rewrite <- elapse_elapse. split.
    + destruct (Err ctx (now w)) eqn:He; [done|].
      destruct (hdrIsDir hdr).
      * destruct (Mkdir fs0 (hdrName hdr)) as [err|fs']; [done|]. apply IH.
      * destruct (OpenFile fs0 (hdrName hdr)) as [err|fs']; [done|].
        destruct (Write fs' (hdrName hdr) (body hdr)) as [err|fs'']; [done|].
        destruct (bodyErr hdr); [done|]. apply IH.
    + intros (Hend & Hstore & Hw & Hd).
      assert (He : Err ctx (now w) = None).
      { apply Err_None. destruct (Done ctx (now w)) eqn:Hdw; [|done].
        rewrite <- Hd. symmetry. apply (Done_mono ctx (now w)); [done|].
        rewrite Hw. etrans; apply elapse_now. }
      rewrite He.
      destruct (hdrIsDir hdr).
      * destruct (Mkdir fs0 (hdrName hdr)) as [err|fs']; [done|]. by apply IH.
      * destruct (OpenFile fs0 (hdrName hdr)) as [err|fs']; [done|].
        destruct (Write fs' (hdrName hdr) (body hdr)) as [err|fs'']; [done|].
        destruct (bodyErr hdr); [done|]. by apply IH.
Qed.

(** X7.  [unarchive] succeeds exactly when the archive opens, the gzip
    header is read, every entry can be stored and the tar stream ends in
    [io.EOF], all before the context is over; the store then holds the
    entries in archive order, and the only call to the outside was opening
    the archive. *)
Theorem unarchive_succeeds_iff opts ctx fs0 w fs1 w1 :
  unarchive env opts ctx fs0 w = (fs1, w1, None) <->
  exists g,
    envOpen env w (InputArchive opts) = inr g /\
    gzipErr g = None /\
    tarEnd g = None /\
    storeEntries fs0 (tarEntries g) = Some fs1 /\
    w1 = elapse (readingTime (tarEntries g)) (call env (EvOpen (InputArchive opts)) w) /\
    Done ctx (now w1) = false.
Proof.
  unfold unarchive. split.
  - destruct (envOpen env w (InputArchive opts)) as [err|g]; [done|].
    destruct (gzipErr g) eqn:Hg; [done|].
    intros Hl%unarchive_loop_success. by exists g.
  - intros (g & -> & -> & Hl). by apply unarchive_loop_success.
Qed.

Lemma unarchive_loop_errors path ctx tarEnd :
  forall entries fs0 w fs1 w1 e,
    unarchive_loop path ctx entries tarEnd fs0 w = (fs1, w1, Some e) ->
    Err ctx (now w1) = Some e \/ unarchiveError path e.
Proof.
  induction entries as [|hdr entries IH]; intros fs0 w fs1 w1 e;
    cbn [unarchive_loop].
  - destruct (Err ctx (now w)) eqn:He; [intros [= <- <- <-]; by left|].
    destruct tarEnd as [err|]; [|done].
    intros [= <- <- <-]. right. exists err. tauto.
  - destruct (Err ctx (now w)) eqn:He; [intros [= <- <- <-]; by left|].
    destruct (hdrIsDir hdr).
    + destruct (Mkdir fs0 (hdrName hdr)) as [err|fs']; [|apply IH].
      intros [= <- <- <-]. right. exists err. do 3 right. left. eauto.
    + destruct (OpenFile fs0 (hdrName hdr)) as [err|fs'].
      { intros [= <- <- <-]. right. exists err. do 4 right. left. eauto. }
      destruct (Write fs' (hdrName hdr) (body hdr)) as [err|fs''].
      { intros [= <- <- <-]. right. exists err. do 5 right. eauto. }
      destruct (bodyErr hdr) as [err|]; [|apply IH].
      intros [= <- <- <-]. right. exists err. do 5 right. eauto.
Qed.

(** X8.  An error of [unarchive] is [ctx.Err()] as it stands, when the
    context is over at the instant [unarchive] returns, or else an error
    of the archive or of the store, wrapped with the archive path or with
    the name of the entry. *)
Theorem unarchive_errors opts ctx fs0 w fs1 w1 e :
  unarchive env opts ctx fs0 w = (fs1, w1, Some e) ->
  Err ctx (now w1) = Some e \/ unarchiveError (InputArchive opts) e.
Proof.
  unfold unarchive.
  destruct (envOpen env w (InputArchive opts)) as [err|g].
  { intros [= <- <- <-]. right. exists err. tauto. }
  destruct (gzipErr g) as [err|].
  { intros [= <- <- <-]. right. exists err. tauto. }
  apply unarchive_loop_errors.
Qed.

End UnarchiveProperties.

(** ** More on [PreflightChecks] and [Import] *)

Section EntryPointProperties.

Context {Fs : Type} `{Afero Fs}.
Variable env : Env Fs.

(** X9.  [PreflightChecks] only reads: all it does to the outside is to
    collect the Crossplane info of the target and then, exactly when that
    info was collected and the store is not there yet, to open the archive
    named by the options, which leaves a store in the importer; in every
    other case the store of the importer is left as it was; the options
    are never changed. *)
Theorem preflight_only_reads im ctx w :
  exists im' w' diags d,
    PreflightChecks env im ctx w = (im', w', diags) /\
    trace w' = (trace w ++ d)%list /\
    options im' = options im /\
    match envCollectInfo env w, fs im with
    | inr _, None =>
        d = [EvCollectInfo; EvOpen (InputArchive (options im))] /\ is_Some (fs im')
    | _, _ => d = [EvCollectInfo] /\ fs im' = fs im
    end.
Proof.
  unfold PreflightChecks.
  destruct (envCollectInfo env w) as [err|observed].
  { eexists _, _, _, [EvCollectInfo]. repeat split; try done. }
  destruct (fs im) as [f|] eqn:Hfs.
  - assert (Hfin : forall diags0 : list error,
      exists im' w' diags d,
        (mkImporter (Some f) (options im), call env EvCollectInfo w, diags0) = (im', w', diags) /\
        trace w' = (trace w ++ d)%list /\ options im' = options im /\
        d = [EvCollectInfo] /\ fs im' = Some f).
    { intros diags0. eexists _, _, _, [EvCollectInfo]. by repeat split. }
    destruct (ReadFile f "export.yaml") as [err|b]; [apply Hfin|].
    destruct (envUnmarshal env b); apply Hfin.
  - destruct (unarchive env (options im) ctx NewMemMapFs (call env EvCollectInfo w))
      as [[fs2 w2] uerr] eqn:Hu.
    apply unarchive_trace in Hu. rewrite trace_call in Hu.
    assert (Hfin : forall diags0 : list error,
      exists im' w' diags d,
        (mkImporter (Some fs2) (options im), w2, diags0) = (im', w', diags) /\
        trace w' = (trace w ++ d)%list /\ options im' = options im /\
        d = [EvCollectInfo; EvOpen (InputArchive (options im))] /\ is_Some (fs im')).
    { intros diags0.
      eexists _, _, _, [EvCollectInfo; EvOpen (InputArchive (options im))].
      split; [done|]. split; [by rewrite Hu, <- app_assoc|]. split; [done|].
      split; [done|]. by eexists. }
    destruct uerr as [err|]; [apply Hfin|].
    destruct (ReadFile fs2 "export.yaml") as [err|b]; [apply Hfin|].
    destruct (envUnmarshal env b); apply Hfin.
Qed.

(** X10.  [PreflightChecks] returns no diagnostic exactly when the info of
    the target is collected, the export metadata is there, read and
    parsed, the versions are equal and every exported feature flag is set
    on the target. *)
Theorem preflight_passes_iff im ctx w :
  snd (PreflightChecks env im ctx w) = [] <->
  exists observed fs2 w2 b em,
    envCollectInfo env w = inr observed /\
    match fs im with
    | None => unarchive env (options im) ctx NewMemMapFs (call env EvCollectInfo w)
    | Some fs1 => (fs1, call env EvCollectInfo w, None)
    end = (fs2, w2, None) /\
    ReadFile fs2 "export.yaml" = inr b /\
    envUnmarshal env b = inr em /\
    Version observed = Version (Crossplane em) /\
    forall ff, ff ∈ FeatureFlags (Crossplane em) -> ff ∈ FeatureFlags observed.
Proof.
  unfold PreflightChecks. split.
  - destruct (envCollectInfo env w) as [err|observed]; [done|].
    destruct (match fs im with
              | None => unarchive env (options im) ctx NewMemMapFs (call env EvCollectInfo w)
              | Some fs1 => (fs1, call env EvCollectInfo w, None)
              end) as [[fs2 w2] [err|]]; [done|].
    destruct (ReadFile fs2 "export.yaml") as [err|b] eqn:Hread; [done|].
    destruct (envUnmarshal env b) as [err|em] eqn:Hem; [done|].
    simpl. rewrite compareInfo_spec. intros [Hv Hf]%app_eq_nil.
    exists observed, fs2, w2, b, em. repeat split; try done.
    + by destruct (decide (Version observed = Version (Crossplane em))).
    + intros ff Hin. apply fmap_nil_inv in Hf.
      apply contains_elem_of. destruct (contains (FeatureFlags observed) ff) eqn:Hc; [done|].
      assert (Hx : ff ∈ filter (fun ff => contains (FeatureFlags observed) ff = false)
                          (FeatureFlags (Crossplane em)))
        by (by apply list_elem_of_filter).
      rewrite Hf in Hx. by apply elem_of_nil in Hx.
  - intros (observed & fs2 & w2 & b & em & -> & -> & -> & -> & Hv & Hf). simpl.
    rewrite compareInfo_spec, decide_True by done. simpl.
    destruct (filter (fun ff => contains (FeatureFlags observed) ff = false)
                (FeatureFlags (Crossplane em))) as [|ff l] eqn:Hfil; [done|].
    assert (Hx : ff ∈ filter (fun ff => contains (FeatureFlags observed) ff = false)
                        (FeatureFlags (Crossplane em)))
      by (rewrite Hfil; by left).
    apply list_elem_of_filter in Hx as [Hc Hin].
    apply Hf, contains_elem_of in Hin. congruence.
Qed.

(** *** The errors of the phases *)

Lemma importExtract_error im ctx w fs2 w1 e :
  importExtract env im ctx w = (fs2, w1, Some e) ->
  exists cause, e = Wrap cause "cannot unarchive export archive".
Proof.
  unfold importExtract.
  destruct (match fs im with
            | Some fs1 => (fs1, emit (EvSpinner SpStart unarchiveMsg) w, None)
            | None => unarchive env (options im) ctx NewMemMapFs
                        (emit (EvSpinner SpStart unarchiveMsg) w)
            end) as [[fs' w'] [err|]]; [|done].
  intros [= _ _ <-]. by exists err.
Qed.

Lemma importBase_loop_error fs0 :
  forall grs i counts w w1 e,
    importBase_loop env fs0 grs i counts w = (w1, inl e) ->
    exists cause gr, gr ∈ grs /\ e = Wrapf cause "cannot import %q resources" [gr].
Proof.
  induction grs as [|gr grs IH]; intros i counts w w1 e; simpl; [done|].
  destruct (envImportResources env fs0 w gr false) as [err|count].
  - intros [= _ <-]. exists err, gr. split; [by left|done].
  - intros Hr. apply IH in Hr as (cause & gr' & Hin & ->).
    exists cause, gr'. split; [by right|done].
Qed.

Lemma importBase_error fs0 w w1 e :
  importBase env fs0 w = (w1, Some e) ->
  exists cause gr, gr ∈ baseResources /\ e = Wrapf cause "cannot import %q resources" [gr].
Proof.
  unfold importBase.
  destruct (importBase_loop env fs0 baseResources 0 ∅ _) as [w2 [err|counts]] eqn:Hl; [|done].
  intros [= _ <-]. by apply importBase_loop_error in Hl.
Qed.

Lemma waitKinds_error ctx conditions :
  forall ks w w1 e,
    waitKinds env ctx ks conditions w = Some (w1, Some e) ->
    exists cause kind, e = Wrapf cause "there are unhealthy %qs" [kind].
Proof.
  induction ks as [|k ks IH]; intros w w1 e; simpl; [done|].
  destruct (waitForConditions env ctx k conditions w) as [[w2 [err|]]|]; [| |done].
  - intros [= _ <-]. by exists err, (Kind k).
  - apply IH.
Qed.

Lemma importWait_error ctx w w1 e :
  importWait env ctx w = Some (w1, Some e) ->
  (exists cause, e = Wrap cause "there are unhealthy CompositeResourceDefinitions") \/
  (exists cause kind, e = Wrapf cause "there are unhealthy %qs" [kind]).
Proof.
  unfold importWait.
  destruct (waitForConditions env ctx xrdKind ["Established"] _) as [[w2 [err|]]|];
    [| |done].
  { intros [= _ <-]. left. by exists err. }
  destruct (waitKinds env ctx packageKinds ["Installed"; "Healthy"] _)
    as [[w4 [err|]]|] eqn:Hp; [| |done].
  { intros [= _ <-]. right. by apply waitKinds_error in Hp. }
  destruct (waitKinds env ctx revisionKinds ["Healthy"] w4) as [[w5 [err|]]|] eqn:Hr;
    [| |done]; [|done].
  intros [= _ <-]. right. by apply waitKinds_error in Hr.
Qed.

Lemma importRemaining_loop_error fs0 n :
  forall grs i counts w w1 e,
    importRemaining_loop env fs0 grs i n counts w = (w1, inl e) ->
    (exists info, info ∈ grs /\ Name info <> "export.yaml" /\ IsDir info = false /\
                  e = Errorf "unexpected file %q in root directory of exported state"
                        [Name info]) \/
    (exists cause gr, gr ∈ remainingGroups grs /\
                      e = Wrapf cause "cannot import %q resources" [gr]).
Proof.
  induction grs as [|info grs IH]; intros i counts w w1 e; simpl; [done|].
  rewrite remainingGroups_cons.
  assert (Hrec : forall i' counts' w',
            importRemaining_loop env fs0 grs i' n counts' w' = (w1, inl e) ->
            (exists info0, info0 ∈ info :: grs /\ Name info0 <> "export.yaml" /\
                           IsDir info0 = false /\
                           e = Errorf "unexpected file %q in root directory of exported state"
                                 [Name info0]) \/
            (exists cause gr, gr ∈ remainingGroups grs /\
                              e = Wrapf cause "cannot import %q resources" [gr])).
  { intros i' counts' w' Hr.
    apply IH in Hr as [(info0 & Hin & ?)|?]; [left|by right].
    exists info0. split; [by right|done]. }
  destruct (decide (Name info = "export.yaml")) as [He|He]; [apply Hrec|].
  destruct (IsDir info) eqn:Hdir; simpl.
  2:{ intros [= _ <-]. left. exists info. split; [by left|done]. }
  destruct (isBaseResource (Name info)) eqn:Hb; [apply Hrec|].
  destruct (envImportResources env fs0 w (Name info) true) as [err|count].
  - intros [= _ <-]. right. exists err, (Name info). split; [by left|done].
  - intros Hr. apply Hrec in Hr as [?|(cause & gr & Hin & ->)]; [by left|right].
    exists cause, gr. split; [by right|done].
Qed.

Lemma importRemaining_error fs0 w w1 e :
  importRemaining env fs0 w = (w1, Some e) ->
  (exists cause, e = Wrap cause "cannot list group resources") \/
  (exists name, e = Errorf "unexpected file %q in root directory of exported state" [name]) \/
  (exists cause gr, e = Wrapf cause "cannot import %q resources" [gr]).
Proof.
  unfold importRemaining.
  destruct (ReadDir fs0 "/") as [err|grs].
  { intros [= _ <-]. left. by exists err. }
  destruct (importRemaining_loop env fs0 grs 0 _ ∅ _) as [w2 [err|counts]] eqn:Hl; [|done].
  intros [= _ <-]. right.
  apply importRemaining_loop_error in Hl as [(info & _ & _ & _ & ->)|(cause & gr & _ & ->)];
    [left|right]; eauto.
Qed.

Lemma importSteps_error opts fs0 ctx w w1 e :
  importSteps env opts fs0 ctx w = Some (w1, Some e) ->
  importError e /\ forall cause, e <> Wrap cause "cannot unarchive export archive".
Proof.
  unfold importSteps, importError.
  destruct (importBase env fs0 w) as [w2 [err|]] eqn:HB.
  { intros [= _ <-]. apply importBase_error in HB as (cause & gr & _ & ->).
    split; [|done]. right; left. eauto. }
  destruct (importWait env ctx w2) as [[w3 [err|]]|] eqn:HW; [| |done].
  { intros [= _ <-]. apply importWait_error in HW as [[cause ->]|(cause & kind & ->)].
    - split; [|done]. do 2 right; left. eauto.
    - split; [|done]. do 3 right; left. eauto. }
  destruct (importRemaining env fs0 w3) as [w4 [err|]] eqn:HR.
  { intros [= _ <-].
    apply importRemaining_error in HR as [[cause ->]|[[name ->]|(cause & gr & ->)]].
    - split; [|done]. do 4 right; left. eauto.
    - split; [|done]. do 5 right; left. eauto.
    - split; [|done]. right; left. eauto. }
  destruct (importFinalize env opts w4) as [w5 r] eqn:HF. intros [= _ ->].
  apply importFinalize_trace in HF as (d & M & _ & _ & Hout).
  destruct Hout as [(_ & cause & [= ->])|[(_ & cause & [= ->])|[(_ & [=] & _)|
                    (_ & _ & [[=]|(cause & [= ->])])]]].
  - split; [|done]. do 6 right; left. eauto.
  - split; [|done]. do 7 right; left. eauto.
  - split; [|done]. do 8 right. eauto.
Qed.

(** X11.  Every error that [Import] returns is made by [Import] itself: an
    error of a collaborator wrapped with the step that failed (and the
    group or kind it failed on), or the error about a file in the root
    directory of the exported state; errors of collaborators and of the
    context never come out as they are. *)
Theorem import_errors_name_the_step im ctx w im' w' e :
  Import env im ctx w = Some (im', w', Some e) ->
  (exists cause, e = Wrap cause "cannot unarchive export archive") \/
  (exists cause gr, e = Wrapf cause "cannot import %q resources" [gr]) \/
  (exists cause, e = Wrap cause "there are unhealthy CompositeResourceDefinitions") \/
  (exists cause kind, e = Wrapf cause "there are unhealthy %qs" [kind]) \/
  (exists cause, e = Wrap cause "cannot list group resources") \/
  (exists name, e = Errorf "unexpected file %q in root directory of exported state" [name]) \/
  (exists cause, e = Wrap cause "cannot unpause composites") \/
  (exists cause, e = Wrap cause "cannot unpause claims") \/
  (exists cause, e = Wrap cause "cannot unpause managed resources").
Proof.
  unfold Import.
  destruct (importExtract env im ctx w) as [[fs2 w1] [err|]] eqn:HE.
  { intros [= _ _ <-]. apply importExtract_error in HE. by left. }
  destruct (importSteps env _ fs2 ctx w1) as [[w2 r]|] eqn:HS; [|done].
  intros [= _ _ ->]. by apply importSteps_error in HS as [? _].
Qed.

Lemma importBase_loop_first fs0 gr grs i counts w w1 res :
  importBase_loop env fs0 (gr :: grs) i counts w = (w1, res) ->
  exists d, trace w1 = (trace w ++ EvImportResources gr false :: d)%list.
Proof.
  simpl. destruct (envImportResources env fs0 w gr false) as [err|count].
  - intros [= <- _]. eexists. by rewrite trace_emit, trace_call, <- !app_assoc.
  - intros Hl. apply importBase_loop_trace in Hl as (d & B & Ht & _).
    rewrite trace_emit, trace_call in Ht. eexists.
    rewrite Ht, <- !app_assoc. reflexivity.
Qed.

(** The steps after the extraction start with the import of the first base
    group. *)
Lemma importSteps_first opts fs0 ctx w w' r :
  importSteps env opts fs0 ctx w = Some (w', r) ->
  exists d rest,
    trace w' = (trace w ++ d)%list /\
    steps d = EvImportResources "namespaces" false :: rest.
Proof.
  unfold importSteps.
  destruct (importBase env fs0 w) as [w1 rB] eqn:HB.
  assert (H1 : exists d1, trace w1 =
                 (trace w ++ EvSpinner SpStart
                               (importBaseMsg +:+ "0 / " +:+
                                pretty (Z.of_nat (length baseResources)))
                          :: EvImportResources "namespaces" false :: d1)%list).
  { revert HB. unfold importBase.
    destruct (importBase_loop env fs0 baseResources 0 ∅ _) as [w2 res] eqn:Hl.
    apply (importBase_loop_first fs0 "namespaces" (tail baseResources)) in Hl as [d Ht].
    rewrite trace_emit in Ht.
    destruct res; intros [= <- _]; eexists.
    + rewrite Ht, <- !app_assoc. reflexivity.
    + rewrite trace_emit, Ht, <- !app_assoc. reflexivity. }
  destruct H1 as [d1 H1].
  assert (Hext : forall w2 d2, trace w2 = (trace w1 ++ d2)%list ->
            exists d rest,
              trace w2 = (trace w ++ d)%list /\
              steps d = EvImportResources "namespaces" false :: rest).
  { intros w2 d2 Ht2. eexists _, _. rewrite Ht2, H1, <- app_assoc.
    split; [reflexivity|]. rewrite <- app_comm_cons, steps_spinner.
    rewrite <- app_comm_cons. unfold steps. rewrite filter_cons. reflexivity. }
  destruct rB as [err|].
  { intros [= <- _]. apply (Hext w1 []). by rewrite app_nil_r. }
  destruct (importWait env ctx w1) as [[w2 rW]|] eqn:HW; [|done].
  apply importWait_trace in HW as (dW & HtW & _).
  destruct rW as [err|].
  { intros [= <- _]. by apply (Hext w2 dW). }
  destruct (importRemaining env fs0 w2) as [w3 rR] eqn:HR.
  apply importRemaining_trace in HR as (dR & G & HtR & _).
  destruct rR as [err|].
  { intros [= <- _]. apply (Hext w3 (dW ++ EvReset :: dR)%list).
    by rewrite HtR, HtW, <- app_assoc. }
  destruct (importFinalize env opts w3) as [w4 rF] eqn:HF.
  apply importFinalize_trace in HF as (dF & M & HtF & _).
  intros [= <- _]. apply (Hext w4 (dW ++ (EvReset :: dR) ++ dF)%list).
  by rewrite HtF, HtR, HtW, <- !app_assoc.
Qed.

(** X12.  On an importer as [NewControlPlaneStateImporter] makes it, the
    first thing [Import] does to the outside is to open the archive named
    by the options, and it leaves in the importer the store that
    [unarchive] has filled.  When [unarchive] fails, opening the archive is
    also the last thing [Import] does to the outside: nothing is imported,
    waited for, reset or modified, and the error of [unarchive] comes back
    as "cannot unarchive export archive"; when [unarchive] succeeds,
    [Import] goes on with the import of the first base group and cannot
    end with that error. *)
Theorem import_opens_the_archive_first opts ctx w :
  exists im' w' r d rest fs1 w1 uerr,
    Import env (NewControlPlaneStateImporter opts) ctx w = Some (im', w', r) /\
    trace w' = (trace w ++ d)%list /\
    steps d = EvOpen (InputArchive opts) :: rest /\
    unarchive env opts ctx NewMemMapFs (emit (EvSpinner SpStart unarchiveMsg) w) =
      (fs1, w1, uerr) /\
    im' = mkImporter (Some fs1) opts /\
    match uerr with
    | Some e =>
        rest = [] /\
        r = Some (Wrap e "cannot unarchive export archive") /\
        w' = emit (EvSpinner SpFail (unarchiveMsg +:+ stepFailed)) w1
    | None =>
        (exists rest', rest = EvImportResources "namespaces" false :: rest') /\
        forall cause, r <> Some (Wrap cause "cannot unarchive export archive")
    end.
Proof.
  destruct (Import_total env (NewControlPlaneStateImporter opts) ctx w) as [[[im' w'] r] HI].
  destruct (unarchive env opts ctx NewMemMapFs (emit (EvSpinner SpStart unarchiveMsg) w))
    as [[fs1 w1] uerr] eqn:Hun.
  pose proof (unarchive_trace env _ _ _ _ _ _ _ Hun) as Hu. rewrite trace_emit in Hu.
  revert HI. unfold Import, importExtract. simpl fs. simpl options. rewrite Hun.
  destruct uerr as [e|].
  - intros [= <- <- <-].
    eexists _, _, _,
      [EvSpinner SpStart unarchiveMsg; EvOpen (InputArchive opts);
       EvSpinner SpFail (unarchiveMsg +:+ stepFailed)], [], fs1, w1, (Some e).
    split; [done|]. split; [by rewrite trace_emit, Hu, <- !app_assoc|].
    split; [done|]. split; [done|]. split; [done|]. by repeat split.
  - destruct (importSteps env opts fs1 ctx _) as [[w2 r2]|] eqn:HS; [|done].
    intros [= <- <- <-].
    pose proof HS as HF. apply importSteps_first in HF as (d & rest & Ht & Hs).
    rewrite trace_emit, Hu in Ht.
    eexists _, _, _,
      ([EvSpinner SpStart unarchiveMsg; EvOpen (InputArchive opts);
        EvSpinner SpSuccess (unarchiveMsg +:+ "Done! 👀")] ++ d)%list,
      (EvImportResources "namespaces" false :: rest), fs1, w1, None.
    split; [done|]. split; [by rewrite Ht, <- !app_assoc|].
    split; [by rewrite steps_app, Hs|]. split; [done|]. split; [done|].
    split; [by eexists|].
    intros cause ->. apply importSteps_error in HS as [_ Hne]. by destruct (Hne cause).
Qed.

(** X13.  An extraction that fails in [PreflightChecks] still leaves its
    store, as far as it got, in the importer.  An [Import] on that importer
    does not open the archive again: it works on that store and cannot fail
    with the unarchive error. *)
Theorem failed_extraction_is_not_retried im ctx w observed fs2 w2 e :
  fs im = None ->
  envCollectInfo env w = inr observed ->
  unarchive env (options im) ctx NewMemMapFs (call env EvCollectInfo w) = (fs2, w2, Some e) ->
  PreflightChecks env im ctx w =
    (mkImporter (Some fs2) (options im), w2, [Wrap e "Cannot unarchive export archive"]) /\
  forall ctx' w3,
  exists im' w' r d,
    Import env (mkImporter (Some fs2) (options im)) ctx' w3 = Some (im', w', r) /\
    trace w' = (trace w3 ++ d)%list /\
    extractions d = 0%nat /\
    fs im' = Some fs2 /\
    forall cause, r <> Some (Wrap cause "cannot unarchive export archive").
Proof.
  intros Hfs Hobs Hun. split.
  { unfold PreflightChecks. by rewrite Hobs, Hfs, Hun. }
  intros ctx' w3.
  destruct (Import_total env (mkImporter (Some fs2) (options im)) ctx' w3)
    as [[[im' w'] r] HI].
  exists im', w', r. pose proof HI as HX.
  apply Import_extracts in HX as (d & Ht & _ & [(Hf & Hx)|(Hnone & _)]); [|done].
  exists d. split; [done|]. split; [done|]. split; [done|]. split; [done|].
  intros cause ->. revert HI. unfold Import, importExtract. simpl.
  destruct (importSteps env _ fs2 ctx' _) as [[w4 r4]|] eqn:HS; [|done].
  intros [= _ _ ->]. apply importSteps_error in HS as [_ Hne]. by destruct (Hne cause).
Qed.

End EntryPointProperties.


(** ** More on the groups that are imported *)

Section GroupProperties.

Context {Fs : Type} `{Afero Fs}.
Variable env : Env Fs.

Lemma importRemaining_loop_stray fs0 n info post :
  Name info <> "export.yaml" ->
  IsDir info = false ->
  forall pre i counts w w1 res,
    Forall (fun i => Name i = "export.yaml" \/ IsDir i = true) pre ->
    importRemaining_loop env fs0 (pre ++ info :: post) i n counts w = (w1, res) ->
    exists d G,
      trace w1 = (trace w ++ d)%list /\
      steps d = importOf true <$> G /\
      G `prefix_of` remainingGroups pre /\
      ((res = inl (Errorf "unexpected file %q in root directory of exported state"
                     [Name info]) /\
        G = remainingGroups pre) \/
       (exists cause gr,
           gr ∈ remainingGroups pre /\
           res = inl (Wrapf cause "cannot import %q resources" [gr]))).
Proof.
  intros Hname Hfile.
  induction pre as [|i0 pre IH]; intros i counts w w1 res Hpre; simpl.
  { rewrite decide_False by done. rewrite Hfile. simpl.
    intros [= <- <-]. exists [], []. rewrite app_nil_r.
    split; [done|]. split; [done|]. split; [done|]. by left. }
  apply Forall_cons in Hpre as [Hi0 Hpre].
  rewrite remainingGroups_cons.
  assert (Hskip : forall i' counts' w',
    importRemaining_loop env fs0 (pre ++ info :: post) i' n counts' w' = (w1, res) ->
    exists d G,
      trace w1 = (trace w' ++ d)%list /\
      steps d = importOf true <$> G /\
      G `prefix_of` remainingGroups pre /\
      ((res = inl (Errorf "unexpected file %q in root directory of exported state"
                     [Name info]) /\
        G = remainingGroups pre) \/
       (exists cause gr,
           gr ∈ remainingGroups pre /\
           res = inl (Wrapf cause "cannot import %q resources" [gr])))).
  { intros i' counts' w'. by apply IH. }
  destruct (decide (Name i0 = "export.yaml")) as [He|He]; [apply Hskip|].
  destruct Hi0 as [?|Hdir]; [done|]. rewrite Hdir. simpl.
  destruct (isBaseResource (Name i0)) eqn:Hb; [apply Hskip|].
  destruct (envImportResources env fs0 w (Name i0) true) as [err|count].
  { intros [= <- <-]. exists [EvImportResources (Name i0) true], [Name i0].
    split; [done|]. split; [done|]. split; [by apply prefix_cons, prefix_nil|].
    right. exists err, (Name i0). split; [by left|done]. }
  intros Hr. apply Hskip in Hr as (d & G & Ht & Hs & Hp & Hres).
  exists (EvImportResources (Name i0) true
            :: EvSpinner SpUpdateText (importingText i n (Name i0)) :: d), (Name i0 :: G).
  split; [by rewrite Ht, trace_emit, trace_call, <- !app_assoc|].
  split; [by rewrite fmap_cons, <- Hs|].
  split; [by apply prefix_cons|].
  destruct Hres as [[-> ->]|(cause & gr & Hin & ->)]; [by left|right].
  exists cause, gr. split; [by right|done].
Qed.

(** X14.  A file other than export.yaml in the root directory of the
    exported state stops the import of the remaining groups with an error:
    the error about the unexpected file, once the groups listed before it
    are imported, unless one of these fails first; no group listed after
    the file is imported. *)
Theorem unexpected_file_stops_the_import fs0 w pre info post :
  ReadDir fs0 "/" = inr (pre ++ info :: post)%list ->
  Forall (fun i => Name i = "export.yaml" \/ IsDir i = true) pre ->
  Name info <> "export.yaml" ->
  IsDir info = false ->
  exists w1 e d G,
    importRemaining env fs0 w = (w1, Some e) /\
    trace w1 = (trace w ++ EvReset :: d)%list /\
    steps d = importOf true <$> G /\
    G `prefix_of` remainingGroups pre /\
    ((e = Errorf "unexpected file %q in root directory of exported state" [Name info] /\
      G = remainingGroups pre) \/
     (exists cause gr,
         gr ∈ remainingGroups pre /\
         e = Wrapf cause "cannot import %q resources" [gr])).
Proof.
  intros Hread Hpre Hname Hfile. unfold importRemaining. rewrite Hread.
  destruct (importRemaining_loop env fs0 (pre ++ info :: post) 0 _ ∅ _)
    as [w2 res] eqn:Hl.
  apply (importRemaining_loop_stray fs0 _ info post Hname Hfile pre) in Hl
    as (d & G & Ht & Hs & Hp & Hres); [|done].
  rewrite trace_emit, trace_call in Ht.
  destruct Hres as [[-> ->]|(cause & gr & Hin & ->)].
  - eexists w2, _, (EvSpinner SpStart importRemainingMsg :: d), (remainingGroups pre).
    split; [done|]. split; [by rewrite Ht, <- !app_assoc|].
    split; [by rewrite steps_spinner|]. split; [done|]. by left.
  - eexists w2, _, (EvSpinner SpStart importRemainingMsg :: d), G.
    split; [done|]. split; [by rewrite Ht, <- !app_assoc|].
    split; [by rewrite steps_spinner|]. split; [done|]. right. by exists cause, gr.
Qed.

Lemma sumCounts_insert (counts : gmap string Z) gr count :
  counts !! gr = None ->
  sumCounts (<[gr := count]> counts) = sumCounts counts + count.
Proof.
  intros Hnone. unfold sumCounts.
  rewrite map_fold_insert_L; [done| |done]. intros. lia.
Qed.

Lemma importBase_loop_counts fs0 (c : string -> Z) :
  forall grs i (counts : gmap string Z) w,
    (forall w' gr, gr ∈ grs -> envImportResources env fs0 w' gr false = inr (c gr)) ->
    NoDup grs ->
    (forall gr, gr ∈ grs -> counts !! gr = None) ->
    exists w1 counts',
      importBase_loop env fs0 grs i counts w = (w1, inr counts') /\
      sumCounts counts' = sumCounts counts + foldr Z.add 0 (c <$> grs).
Proof.
  induction grs as [|gr grs IH]; intros i counts w Hans Hnd Hfresh; simpl.
  { exists w, counts. split; [done|]. lia. }
  rewrite Hans by (by left). apply NoDup_cons in Hnd as [Hnotin Hnd].
  assert (Hans' : forall w' gr', gr' ∈ grs ->
                   envImportResources env fs0 w' gr' false = inr (c gr')).
  { intros w' gr' Hin. apply Hans. by right. }
  assert (Hfresh' : forall gr', gr' ∈ grs -> <[gr := c gr]> counts !! gr' = None).
  { intros gr' Hin. rewrite lookup_insert_ne; [apply Hfresh; by right|].
    intros ->. done. }
  destruct (IH (i + 1) (<[gr := c gr]> counts)
              (emit (EvSpinner SpUpdateText
                       (importingText i (Z.of_nat (length baseResources)) gr))
                 (call env (EvImportResources gr false) w)) Hans' Hnd Hfresh')
    as (w1 & counts' & Hl & Hsum).
  exists w1, counts'. split; [exact Hl|].
  rewrite Hsum, sumCounts_insert by (apply Hfresh; by left).
  by rewrite Z.add_assoc.
Qed.

Lemma baseResources_NoDup : NoDup baseResources.
Proof. apply (bool_decide_unpack (NoDup baseResources)). by vm_compute. Qed.

(** X15.  When [ImportResources] answers every base group with a count that
    depends on the group only, the base phase succeeds and the total it
    reports last is the sum of these counts over the base groups: every
    group is counted once. *)
Theorem base_total_is_the_sum_of_the_counts fs0 (c : string -> Z) w :
  (forall w' gr, gr ∈ baseResources ->
                 envImportResources env fs0 w' gr false = inr (c gr)) ->
  exists w0,
    importBase env fs0 w =
      (emit (EvSpinner SpSuccess
               (importBaseMsg +:+ importedText (foldr Z.add 0 (c <$> baseResources)))) w0,
       None).
Proof.
  intros Hans. unfold importBase.
  destruct (importBase_loop_counts fs0 c baseResources 0 ∅
              (emit (EvSpinner SpStart
                       (importBaseMsg +:+ "0 / " +:+
                        pretty (Z.of_nat (length baseResources)))) w)
              Hans baseResources_NoDup (fun gr _ => lookup_empty gr))
    as (w1 & counts' & Hl & Hsum).
  rewrite Hl. exists w1. rewrite Hsum. unfold sumCounts at 1.
  by rewrite map_fold_empty, Z.add_0_l.
Qed.

(** X16.  [contains] is membership in the slice, and [isBaseResource] is
    membership in [baseResources]. *)
Theorem contains_is_membership (ss : list string) (s : string) :
  (contains ss s = true <-> s ∈ ss) /\
  (contains ss s = false <-> s ∉ ss) /\
  isBaseResource s = contains baseResources s /\
  (isBaseResource s = true <-> s ∈ baseResources).
Proof.
  assert (Hc : forall l : list string, contains l s = true <-> s ∈ l).
  { induction l as [|v l IH]; simpl.
    - split; [done|]. by intros ?%elem_of_nil.
    - destruct (decide (v = s)) as [->|Hne].
      + split; [intros _; by left|done].
      + rewrite IH. split; [by right|]. by intros [?|?]%elem_of_cons. }
  assert (Hb : forall l : list string, isBaseResource_loop l s = contains l s).
  { induction l as [|v l IH]; simpl; [done|]. by rewrite IH. }
  split; [apply Hc|]. split.
  - rewrite <- Hc. by destruct (contains ss s).
  - split; [apply Hb|]. unfold isBaseResource. rewrite Hb. apply Hc.
Qed.

(** *** The order of the waits *)

Lemma mapped_app d1 d2 : mapped (d1 ++ d2) = (mapped d1 ++ mapped d2)%list.
Proof. apply omap_app. Qed.

Lemma poll_mapped rm gk conditions ps :
  exists d,
    trace (world (poll env rm gk conditions ps)) = (trace (world ps) ++ d)%list /\
    mapped d = [].
Proof.
  unfold poll.
  destruct (envList env (world ps) rm) as [err|items]; simpl.
  { eexists [_; _]. rewrite <- app_assoc. split; reflexivity. }
  destruct (countUnmet items conditions 0) as [[name err]|unmet]; simpl.
  { eexists [_; _]. rewrite <- app_assoc. split; reflexivity. }
  destruct (bool_decide (unmet > 0)); simpl.
  - eexists [_; _]. rewrite <- app_assoc. split; reflexivity.
  - eexists [_]. split; reflexivity.
Qed.

Lemma UntilWithContext_mapped ctx rm gk conditions p :
  forall fuel ps r,
    UntilWithContext fuel ctx (poll env rm gk conditions) p ps = Some r ->
    exists d, trace (world r) = (trace (world ps) ++ d)%list /\ mapped d = [].
Proof.
  induction fuel as [|fuel IH]; intros ps r; [done|].
  cbn [UntilWithContext].
  destruct (poll_mapped rm gk conditions ps) as (d1 & Hd1 & Hm1).
  destruct (cancelled ps || Done ctx (now (world ps))).
  { intros [= <-]. exists []. by rewrite app_nil_r. }
  destruct (cancelled (poll env rm gk conditions ps)); [intros [= <-]; eauto|].
  destruct (Done ctx (now (world (poll env rm gk conditions ps)) + p)).
  { intros [= <-]. simpl. eauto. }
  intros Hr. apply IH in Hr as (d2 & Hd2 & Hm2). simpl in Hd2.
  exists (d1 ++ d2)%list. split; [by rewrite Hd2, Hd1, app_assoc|].
  by rewrite mapped_app, Hm1, Hm2.
Qed.

Lemma waitForConditions_mapped ctx gk conditions w w1 r :
  waitForConditions env ctx gk conditions w = Some (w1, r) ->
  exists d, trace w1 = (trace w ++ d)%list /\ mapped d = [gk].
Proof.
  unfold waitForConditions.
  destruct (envRESTMapping env w gk) as [err|rm].
  { intros [= <- <-]. by exists [EvRESTMapping gk]. }
  destruct (UntilWithContext _ _ _ _ _) as [ps|] eqn:Hu; [|done].
  apply UntilWithContext_mapped in Hu as (d & Hd & Hm). simpl in Hd.
  destruct (success ps); intros [= <- <-];
    (exists ([EvRESTMapping gk] ++ d)%list; split;
     [by rewrite Hd, app_assoc|by rewrite mapped_app, Hm]).
Qed.

Lemma afterOutput_mapped w w' :
  afterOutput w w' -> exists d, trace w' = (trace w ++ d)%list /\ mapped d = [].
Proof.
  intros [_ (o & Ht & Hs)]. exists o. split; [done|].
  unfold mapped. rewrite <- omap_steps; [by rewrite Hs|]. by intros [].
Qed.

Lemma allWaited_mapped ctx :
  forall ks w w',
    allWaited env ctx ks w w' ->
    exists d, trace w' = (trace w ++ d)%list /\ mapped d = ks.*1.
Proof.
  induction ks as [|[k c] ks IH]; intros w w'; simpl.
  - apply afterOutput_mapped.
  - intros (w1 & w2 & Ho & Hw & Hrest).
    apply afterOutput_mapped in Ho as (d0 & Ht0 & Hm0).
    apply waitForConditions_mapped in Hw as (d1 & Ht1 & Hm1).
    apply IH in Hrest as (d2 & Ht2 & Hm2).
    exists (d0 ++ d1 ++ d2)%list. split; [by rewrite Ht2, Ht1, Ht0, <- !app_assoc|].
    by rewrite !mapped_app, Hm0, Hm1, Hm2.
Qed.

Lemma waitKinds_total ctx conditions :
  forall ks w, is_Some (waitKinds env ctx ks conditions w).
Proof.
  induction ks as [|k ks IH]; intros w; simpl; [eauto|].
  destruct (waitForConditions_total env ctx k conditions w) as [[w' [e|]] ->];
    [eauto|apply IH].
Qed.

(** X18.  The condition waits of [Import] are made in the order of the
    source: composite resource definitions, then providers, functions and
    configurations, then their revisions, each once, each asking for the
    REST mapping of its kind.  When the phase returns [nil], all seven
    waits were made and every one of them returned [nil].  When it returns
    an error, some wait of the list returned an error: every wait before
    it returned [nil], it is the last wait made, none of the kinds after
    it is asked for, and its error comes back wrapped, naming composite
    resource definitions or the kind. *)
Theorem waits_follow_the_order_of_the_kinds ctx w :
  exists w' r d,
    importWait env ctx w = Some (w', r) /\
    trace w' = (trace w ++ d)%list /\
    match r with
    | None => mapped d = waitedKinds /\ allWaited env ctx conditionWaits w w'
    | Some e =>
        exists before k conditions rest wk wk' cause,
          conditionWaits = (before ++ (k, conditions) :: rest)%list /\
          mapped d = (before.*1 ++ [k])%list /\
          allWaited env ctx before w wk /\
          waitForConditions env ctx k conditions wk = Some (wk', Some cause) /\
          afterOutput wk' w' /\
          e = match before with
              | [] => Wrap cause "there are unhealthy CompositeResourceDefinitions"
              | _ => Wrapf cause "there are unhealthy %qs" [Kind k]
              end
    end.
Proof.
  assert (Hmain : exists w' r,
    importWait env ctx w = Some (w', r) /\
    match r with
    | None => allWaited env ctx conditionWaits w w'
    | Some e =>
        exists before k conditions rest wk wk' cause,
          conditionWaits = (before ++ (k, conditions) :: rest)%list /\
          allWaited env ctx before w wk /\
          waitForConditions env ctx k conditions wk = Some (wk', Some cause) /\
          afterOutput wk' w' /\
          e = match before with
              | [] => Wrap cause "there are unhealthy CompositeResourceDefinitions"
              | _ => Wrapf cause "there are unhealthy %qs" [Kind k]
              end
    end).
  { assert (HW : is_Some (importWait env ctx w)).
    { unfold importWait.
      destruct (waitForConditions_total env ctx xrdKind ["Established"]
                  (emit (EvSpinner SpStart waitXRDsMsg) w)) as [[w1 [e|]] ->]; [eauto|].
      destruct (waitKinds_total ctx ["Installed"; "Healthy"] packageKinds
                  (emit (EvSpinner SpStart waitPkgsMsg)
                     (emit (EvSpinner SpSuccess (waitXRDsMsg +:+ "Established! ⏳")) w1)))
        as [[w4 [e|]] ->]; [eauto|].
      destruct (waitKinds_total ctx ["Healthy"] revisionKinds w4) as [[w5 [e|]] ->]; eauto. }
    destruct HW as [[w' r] HW]. exists w', r. split; [done|].
    destruct r as [e|]; [|by apply importWait_allWaited].
    revert HW. unfold importWait.
    destruct (waitForConditions env ctx xrdKind ["Established"] _)
      as [[w1 [err|]]|] eqn:Hx; [| |done].
    { intros [= <- <-].
      exists [], xrdKind, ["Established"], (tail conditionWaits),
        (emit (EvSpinner SpStart waitXRDsMsg) w), w1, err.
      split; [done|]. split; [apply afterOutput_spinner|]. split; [done|].
      split; [apply afterOutput_spinner|done]. }
    assert (Hxrd : forall ks wk,
      allWaited env ctx ks
        (emit (EvSpinner SpStart waitPkgsMsg)
           (emit (EvSpinner SpSuccess (waitXRDsMsg +:+ "Established! ⏳")) w1)) wk ->
      allWaited env ctx ((xrdKind, ["Established"]) :: ks) w wk).
    { intros ks wk Hks. cbn [allWaited]. eexists _, w1.
      split; [apply afterOutput_spinner|]. split; [exact Hx|].
      eapply allWaited_output_l; [|exact Hks].
      eapply afterOutput_trans; apply afterOutput_spinner. }
    destruct (waitKinds env ctx packageKinds ["Installed"; "Healthy"] _)
      as [[w4 [err|]]|] eqn:Hp; [| |done].
    { intros [= <- <-].
      apply waitKinds_failure in Hp
        as (before & k & rest & wk & wk' & cause & Hks & Ha & Hf & -> & ->).
      exists ((xrdKind, ["Established"])
                :: ((fun k => (k, ["Installed"; "Healthy"])) <$> before)),
        k, ["Installed"; "Healthy"],
        (((fun k => (k, ["Installed"; "Healthy"])) <$> rest) ++
         ((fun k => (k, ["Healthy"])) <$> revisionKinds))%list, wk, wk', cause.
      split.
      { change conditionWaits with
          ((xrdKind, ["Established"])
             :: (((fun k => (k, ["Installed"; "Healthy"])) <$> packageKinds) ++
                 ((fun k => (k, ["Healthy"])) <$> revisionKinds)))%list.
        rewrite Hks, fmap_app, fmap_cons, <- app_assoc. done. }
      split; [by apply Hxrd|]. split; [done|]. split; [apply afterOutput_spinner|done]. }
    destruct (waitKinds env ctx revisionKinds ["Healthy"] w4)
      as [[w5 [err|]]|] eqn:Hr; [| |done]; [|done].
    intros [= <- <-].
    apply waitKinds_allWaited in Hp.
    apply waitKinds_failure in Hr
      as (before & k & rest & wk & wk' & cause & Hks & Ha & Hf & -> & ->).
    exists ((xrdKind, ["Established"])
              :: (((fun k => (k, ["Installed"; "Healthy"])) <$> packageKinds) ++
                  ((fun k => (k, ["Healthy"])) <$> before)))%list,
      k, ["Healthy"], ((fun k => (k, ["Healthy"])) <$> rest), wk, wk', cause.
    split.
    { change conditionWaits with
        ((xrdKind, ["Established"])
           :: (((fun k => (k, ["Installed"; "Healthy"])) <$> packageKinds) ++
               ((fun k => (k, ["Healthy"])) <$> revisionKinds)))%list.
      rewrite Hks, fmap_app, fmap_cons. simpl. by rewrite <- ?app_assoc. }
    split; [apply Hxrd; by apply (allWaited_app _ _ _ _ _ w4)|].
    split; [done|]. split; [apply afterOutput_spinner|done]. }
  destruct Hmain as (w' & r & HW & Hr). exists w', r.
  destruct r as [e|].
  - destruct Hr as (before & k & conditions & rest & wk & wk' & cause
                    & Hks & Ha & Hf & Ho & He).
    pose proof Ha as Hma. apply allWaited_mapped in Hma as (da & Hta & Hma).
    pose proof Hf as Hmf. apply waitForConditions_mapped in Hmf as (dk & Htk & Hmk).
    pose proof Ho as Hmo. apply afterOutput_mapped in Hmo as (do & Hto & Hmo).
    exists (da ++ dk ++ do)%list. split; [done|].
    split; [by rewrite Hto, Htk, Hta, <- !app_assoc|].
    exists before, k, conditions, rest, wk, wk', cause.
    split; [done|]. split; [by rewrite !mapped_app, Hma, Hmk, Hmo, app_nil_r|].
    split; [done|]. split; [done|]. split; [done|]. exact He.
  - pose proof Hr as Hm. apply allWaited_mapped in Hm as (d & Ht & Hm).
    exists d. split; [done|]. split; [done|]. by split.
Qed.

End GroupProperties.

(** ** The get command *)

Section GetProperties.

Variable ControlPlane : Type.
Variable env : GetCmd.Env ControlPlane.
Variable c : GetCmd.getCmd.

(** X17.  What [Run] does, by the answers it gets.  An error of the
    kubeconfig namespace comes back as "error getting namespace" and
    nothing else is done.  Otherwise, and only then, the client is asked,
    once, for the control plane named by the command in that namespace.
    The table is printed exactly for the control plane the client
    returned, and [Run] returns what printing returns.  The line "Control
    plane <name> not found" is printed exactly when the client fails with
    a not-found error, and [Run] returns [nil] then; any other error of the
    client comes back as "error getting control plane". *)
Theorem Run_outcomes :
  exists events r,
    GetCmd.Run env c = (events, r) /\
    (forall cause,
       GetCmd.Namespace env = inl cause ->
       events = [GetCmd.EvNamespace] /\ r = Some (Wrap cause "error getting namespace")) /\
    (forall ns,
       GetCmd.Namespace env = inr ns ->
       exists rest,
         events = GetCmd.EvNamespace :: GetCmd.EvGet ns (GetCmd.Name c) :: rest /\
         forall ns' name, GetCmd.EvGet ns' name ∉ rest) /\
    (forall ns name,
       GetCmd.EvGet ns name ∈ events ->
       GetCmd.Namespace env = inr ns /\ name = GetCmd.Name c) /\
    (forall ctp,
       GetCmd.EvTabularPrint ctp ∈ events <->
       exists ns, GetCmd.Namespace env = inr ns /\
                  GetCmd.Get env ns (GetCmd.Name c) = inr ctp) /\
    (forall ns ctp,
       GetCmd.Namespace env = inr ns ->
       GetCmd.Get env ns (GetCmd.Name c) = inr ctp ->
       r = GetCmd.tabularPrint env ctp) /\
    (forall msg,
       GetCmd.EvPrintfln msg ∈ events <->
       msg = Sprintf "Control plane %s not found" [ArgS (GetCmd.Name c)] /\
       exists ns err, GetCmd.Namespace env = inr ns /\
                      GetCmd.Get env ns (GetCmd.Name c) = inl err /\
                      GetCmd.IsNotFound env err = true) /\
    (forall ns err,
       GetCmd.Namespace env = inr ns ->
       GetCmd.Get env ns (GetCmd.Name c) = inl err ->
       r = if GetCmd.IsNotFound env err then None
           else Some (Wrap err "error getting control plane")).
Proof.
  unfold GetCmd.Run.
  destruct (GetCmd.Namespace env) as [nerr|ns] eqn:Hns.
  { eexists _, _. split; [done|].
    split; [by intros cause [= <-]|].
    split; [by intros ns [=]|].
    split; [intros ns name Hin; in_events Hin|].
    split; [intros ctp; split; [intros Hin; in_events Hin|by intros (ns & [=] & _)]|].
    split; [by intros ns ctp [=]|].
    split; [|by intros ns err [=]].
    intros msg; split; [intros Hin; in_events Hin|by intros (_ & ns & err & [=] & _)]. }
  destruct (GetCmd.Get env ns (GetCmd.Name c)) as [gerr|ctp] eqn:Hget.
  - destruct (GetCmd.IsNotFound env gerr) eqn:Hnf.
    + eexists _, _. split; [done|].
      split; [by intros cause [=]|].
      split.
      { intros ns' [= <-]. eexists. split; [done|]. intros ns'' name Hin. in_events Hin. }
      split; [intros ns' name Hin; in_events Hin; by injection Hin as -> ->|].
      split.
      { intros ctp; split; [intros Hin; in_events Hin|].
        intros (ns' & [= <-] & Hg). congruence. }
      split; [intros ns' ctp [= <-] Hg; congruence|].
      split.
      { intros msg; split.
        - intros Hin. in_events Hin. injection Hin as ->. split; [done|]. by exists ns, gerr.
        - intros [-> _]. do 2 right. by left. }
      intros ns' err [= <-] Hg. rewrite Hget in Hg. injection Hg as <-. by rewrite Hnf.
    + eexists _, _. split; [done|].
      split; [by intros cause [=]|].
      split.
      { intros ns' [= <-]. eexists. split; [done|]. intros ns'' name Hin. in_events Hin. }
      split; [intros ns' name Hin; in_events Hin; by injection Hin as -> ->|].
      split.
      { intros ctp; split; [intros Hin; in_events Hin|].
        intros (ns' & [= <-] & Hg). congruence. }
      split; [intros ns' ctp [= <-] Hg; congruence|].
      split.
      { intros msg; split; [intros Hin; in_events Hin|].
        intros (_ & ns' & err & [= <-] & Hg & Hx). congruence. }
      intros ns' err [= <-] Hg. rewrite Hget in Hg. injection Hg as <-. by rewrite Hnf.
  - eexists _, _. split; [done|].
    split; [by intros cause [=]|].
    split.
    { intros ns' [= <-]. eexists. split; [done|]. intros ns'' name Hin. in_events Hin. }
    split; [intros ns' name Hin; in_events Hin; by injection Hin as -> ->|].
    split.
    { intros ctp'; split.
      - intros Hin. in_events Hin. injection Hin as ->. by exists ns.
      - intros (ns' & [= <-] & Hg). rewrite Hget in Hg. injection Hg as <-.
        do 2 right. by left. }
    split; [intros ns' ctp' [= <-] Hg; rewrite Hget in Hg; by injection Hg as <-|].
    split.
    { intros msg; split; [intros Hin; in_events Hin|].
      intros (_ & ns' & err & [= <-] & Hg & _). congruence. }
    intros ns' err [= <-] Hg. congruence.
Qed.

End GetProperties.

(** ** The further properties on the test doubles *)

Section MoreScenarios.

Import Scenario Cases.

Lemma wait_under_finished_context_witness :
  waitForConditions healthy (DoneAt 0 Canceled) providerKind installedAndHealthy start =
    Some (call healthy (EvRESTMapping providerKind) start,
          Some (timeoutError providerKind installedAndHealthy)).
Proof.
  apply (wait_under_finished_context healthy (DoneAt 0 Canceled) providerKind
           installedAndHealthy start (mapping providerKind)); reflexivity.
Defined.

Lemma wait_success_comes_from_a_poll_witness :
  exists rm ps items,
    envRESTMapping flaky start providerKind = inr rm /\
    envList flaky (world ps) rm = inr items /\
    countUnmet items installedAndHealthy 0 = inr 0 /\
    now (world ps) = 6 * Second.
Proof.
  eassert (Hw : waitForConditions flaky Background providerKind installedAndHealthy start
                = Some (_, None)) by (vm_compute; reflexivity).
  destruct (wait_success_comes_from_a_poll flaky Background providerKind
              installedAndHealthy start _ Hw) as (rm & ps & items & Hrm & HR & Hl & Hc & Hw').
  exists rm, ps, items. split; [exact Hrm|]. split; [exact Hl|]. split; [exact Hc|].
  apply (f_equal now) in Hw'. unfold call in Hw'. simpl in Hw'.
  unfold Second. lia.
Defined.

Lemma unarchive_errors_witness :
  exists fs1 w1 e,
    unarchive truncated (mkOptions "xp-state.tar.gz" false) Background NewMemMapFs start =
      (fs1, w1, Some e) /\
    (Err Background (now w1) = Some e \/ unarchiveError "xp-state.tar.gz" e).
Proof.
  eassert (Hun : unarchive truncated (mkOptions "xp-state.tar.gz" false) Background
                   NewMemMapFs start = (_, _, Some _)) by (vm_compute; reflexivity).
  eexists _, _, _. split; [exact Hun|].
  exact (unarchive_errors truncated _ _ _ _ _ _ _ Hun).
Defined.

Lemma import_errors_name_the_step_witness :
  exists im' w' e,
    Import noNamespaces (fresh false) Background start = Some (im', w', Some e) /\
    importError e.
Proof.
  eassert (HI : Import noNamespaces (fresh false) Background start = Some (_, _, Some _))
    by (vm_compute; reflexivity).
  eexists _, _, _. split; [exact HI|].
  exact (import_errors_name_the_step noNamespaces _ _ _ _ _ _ HI).
Defined.

Lemma failed_extraction_is_not_retried_witness :
  exists fs2 w2 e,
    PreflightChecks truncated (fresh false) Background start =
      (mkImporter (Some fs2) (options (fresh false)), w2,
       [Wrap e "Cannot unarchive export archive"]) /\
    exists im' w' r d,
      Import truncated (mkImporter (Some fs2) (options (fresh false))) Background w2 =
        Some (im', w', r) /\
      trace w' = (trace w2 ++ d)%list /\
      extractions d = 0%nat.
Proof.
  eassert (Hun : unarchive truncated (options (fresh false)) Background NewMemMapFs
                   (call truncated EvCollectInfo start) = (_, _, Some _))
    by (vm_compute; reflexivity).
  destruct (failed_extraction_is_not_retried truncated (fresh false) Background start
              (mkInfo "1.14.0" ["A"; "B"]) _ _ _ eq_refl eq_refl Hun) as [Hpre Himp].
  eexists _, _, _. split; [exact Hpre|].
  destruct (Himp Background
              (mkWorld 0 [EvCollectInfo; EvOpen "xp-state.tar.gz"]))
    as (im' & w' & r & d & HI & Ht & Hx & _).
  exists im', w', r, d. split; [exact HI|]. split; [exact Ht|exact Hx].
Defined.

Lemma unexpected_file_stops_the_import_witness :
  exists w1 e d G,
    importRemaining strayFile strayStore start = (w1, Some e) /\
    trace w1 = (trace start ++ EvReset :: d)%list /\
    steps d = importOf true <$> G /\
    G `prefix_of` remainingGroups [mkFileInfo "export.yaml" false; mkFileInfo "namespaces" true].
Proof.
  destruct (unexpected_file_stops_the_import strayFile strayStore start
              [mkFileInfo "export.yaml" false; mkFileInfo "namespaces" true]
              (mkFileInfo "README" false) [mkFileInfo "widgets.example.io" true])
    as (w1 & e & d & G & Hr & Ht & Hs & Hp & _).
  - vm_compute. reflexivity.
  - constructor; [by left|]. constructor; [by right|]. constructor.
  - discriminate.
  - reflexivity.
  - exists w1, e, d, G. split; [exact Hr|]. split; [exact Ht|]. split; [exact Hs|exact Hp].
Defined.

Lemma base_total_is_the_sum_of_the_counts_witness :
  exists w0,
    importBase byName strayStore start =
      (emit (EvSpinner SpSuccess "Importing base resources... 368 resources imported! 📥") w0,
       None).
Proof.
  destruct (base_total_is_the_sum_of_the_counts byName strayStore
              (fun gr => Z.of_nat (String.length gr)) start) as [w0 Hw0].
  - intros w' gr _. reflexivity.
  - exists w0. exact Hw0.
Defined.

(** *** The code run on further inputs *)

(** A kind the mapper does not know: the wait ends with the wrapped error and
    the resources are never listed. *)
Example wait_for_an_unknown_kind :
  waitForConditions unknownKind Background providerKind installedAndHealthy start =
    Some (mkWorld 0 [EvRESTMapping providerKind],
          Some (Wrapf (External "no matches for kind") "cannot get REST mapping for %q"
                  ["Provider.pkg.crossplane.io"])).
Proof. vm_compute. reflexivity. Qed.

(** No archive: [Import] stops after the attempt to open it, and the importer
    keeps the empty store. *)
Example import_without_an_archive :
  Import noArchive (fresh false) Background start =
    Some (mkImporter (Some NewMemMapFs) (mkOptions "xp-state.tar.gz" false),
          mkWorld 0 [EvSpinner SpStart "Reading state from the archive... ";
                     EvOpen "xp-state.tar.gz";
                     EvSpinner SpFail "Reading state from the archive... Failed!"],
          Some (Wrap (Wrapf (External "no such file or directory")
                        "cannot open archive %q" ["xp-state.tar.gz"])
                  "cannot unarchive export archive")).
Proof. vm_compute. reflexivity. Qed.

(** Resources without a status count as unmet; one whose status cannot be
    decoded ends the count. *)
Example counting_bare_and_garbled :
  countUnmet [bare; provider "p" "True" "True"; bare] installedAndHealthy 0 = inr 2 /\
  countUnmet [bare; garbled; bare] installedAndHealthy 0 =
    inl ("garbled", External "json: cannot unmarshal").
Proof. split; vm_compute; reflexivity. Qed.

(** [up ctp get] of a control plane that exists, and of one that does not. *)
Example get_ctp1 :
  GetCmd.Run space (GetCmd.mkGetCmd "ctp1") =
    ([GetCmd.EvNamespace; GetCmd.EvGet "default" "ctp1"; GetCmd.EvTabularPrint "ctp1"],
     None).
Proof. reflexivity. Qed.

Example get_ctp2 :
  GetCmd.Run space (GetCmd.mkGetCmd "ctp2") =
    ([GetCmd.EvNamespace; GetCmd.EvGet "default" "ctp2";
      GetCmd.EvPrintfln (Sprintf "Control plane %s not found" [ArgS "ctp2"])],
     None).
Proof. reflexivity. Qed.

End MoreScenarios.
